(** * dropbox-appender: the append flow, the storage client, the config
      store and the token resolver, embedded from the Go sources

    Go strings are byte sequences: they are [string] (a list of 8-bit
    [ascii]) here.  A Go [int] that the program only prints is a [Z].
    Functions that return [(value, error)] return a pair whose second
    component is [option error], [None] standing for [nil].

    The operating system, the network and the clock are a [World] of
    oracles; the file system and the log of HTTP requests are threaded
    as explicit state.  Of the Go standard library, [strings], [fmt] and
    the part of [time] that the program's layouts use are modelled
    concretely; [encoding/json], [net/http]'s request constructor,
    [path/filepath] and [flag] are an interface ([Runtime]) that every
    theorem is proved for, with a reference instance used on concrete
    inputs.  What the config store reads back from what it wrote depends
    on the text that [encoding/json] writes: for that, the package is
    embedded in [Json], on [unicode/utf8] in [Utf8].

    The entry point is the [main] that resolves its token through the
    config store and the OAuth client. *)

From Stdlib Require Import ZArith String Ascii List Lia DecimalString.
From stdpp Require Import base strings gmap.

Local Open Scope Z_scope.

(* ===================================================================== *)
(** ** Bytes that have no literal *)

Definition byte (n : nat) : string := String (ascii_of_nat n) "".

(** ["\n"] *)
Definition LF : string := byte 10.

(* ===================================================================== *)
(** ** package strings *)

Module Strings.

(** [strings.Join(elems, sep)] *)
Fixpoint Join (elems : list string) (sep : string) : string :=
  match elems with
  | [] => ""
  | a :: rest =>
      match rest with
      | [] => a
      | _ :: _ => a +:+ sep +:+ Join rest sep
      end
  end.

(** [strings.HasPrefix(s, prefix)] *)
Definition HasPrefix (s p : string) : bool := String.prefix p s.

(** [strings.Contains(s, substr)]: [substr] starts at some index of [s]. *)
Fixpoint Contains (s substr : string) : bool :=
  HasPrefix s substr ||
  match s with
  | "" => false
  | String _ s' => Contains s' substr
  end.

(** [s[len(p):]] when [p] is a prefix of [s]. *)
Fixpoint cut_prefix (p s : string) : option string :=
  match p, s with
  | "", _ => Some s
  | String a p', String b s' =>
      if Ascii.eqb a b then cut_prefix p' s' else None
  | String _ _, "" => None
  end.

(** The UTF-8 encodings of the runes for which [unicode.IsSpace] holds:
    '\t' '\n' '\v' '\f' '\r' ' ', U+0085, U+00A0, U+1680,
    U+2000..U+200A, U+2028, U+2029, U+202F, U+205F, U+3000. *)
Definition utf8_3 (a b c : nat) : string := byte a +:+ byte b +:+ byte c.

Definition space_runes : list string :=
  [ byte 9; byte 10; byte 11; byte 12; byte 13; byte 32;
    byte 194 +:+ byte 133; byte 194 +:+ byte 160;
    utf8_3 225 154 128;
    utf8_3 226 128 128; utf8_3 226 128 129; utf8_3 226 128 130;
    utf8_3 226 128 131; utf8_3 226 128 132; utf8_3 226 128 133;
    utf8_3 226 128 134; utf8_3 226 128 135; utf8_3 226 128 136;
    utf8_3 226 128 137; utf8_3 226 128 138;
    utf8_3 226 128 168; utf8_3 226 128 169; utf8_3 226 128 175;
    utf8_3 226 129 159;
    utf8_3 227 128 128 ].

(** The rest of [s] after one leading rune of [runes], if it starts
    with one. *)
Fixpoint cut_rune (runes : list string) (s : string) : option string :=
  match runes with
  | [] => None
  | r :: runes' =>
      match cut_prefix r s with
      | Some rest => Some rest
      | None => cut_rune runes' s
      end
  end.

(** The loop of [strings.TrimLeftFunc]: drop leading runes of [runes]
    while there is one; [n] bounds the iterations. *)
Fixpoint trim_loop (runes : list string) (n : nat) (s : string) : string :=
  match n with
  | O => s
  | S n' =>
      match cut_rune runes s with
      | Some rest => trim_loop runes n' rest
      | None => s
      end
  end.

Definition TrimLeftSpace (s : string) : string :=
  trim_loop space_runes (String.length s) s.

(** [strings.TrimRightFunc(s, unicode.IsSpace)]: the same loop from the
    end, a rune being recognised by the bytes that end the string. *)
Definition TrimRightSpace (s : string) : string :=
  String.rev
    (trim_loop (map String.rev space_runes) (String.length s) (String.rev s)).

(** [strings.TrimSpace(s)] *)
Definition TrimSpace (s : string) : string :=
  TrimRightSpace (TrimLeftSpace s).

End Strings.


(* ===================================================================== *)
(** ** The [error] interface *)

(** An error value: an error that wraps nothing, or one that wraps a
    cause.  [Error] is the method [Error()], [Unwrap] the method
    [Unwrap()], [None] standing for [nil]. *)
Inductive error : Type :=
| errNew (msg : string)
| errWrap (msg : string) (cause : error).

Definition Error (e : error) : string :=
  match e with errNew msg | errWrap msg _ => msg end.

Definition Unwrap (e : error) : option error :=
  match e with errNew _ => None | errWrap _ cause => Some cause end.

(* ===================================================================== *)
(** ** package fmt *)

Module Fmt.

(** An operand of a formatting call. *)
Inductive arg : Type :=
| AStr (s : string)
| AInt (n : Z)
| AErr (e : error).

(** Decimal rendering of an [int], as [%d] prints it. *)
Definition itoa (n : Z) : string := NilZero.string_of_int (Z.to_int n).

(** One operand under one verb.  The program uses [%s] with strings,
    [%d] with ints and [%v], [%w] with errors; a verb that does not fit
    its operand is rendered with Go's [%!verb(type=value)] marker. *)
Definition fmt_verb (verb : ascii) (a : arg) : string :=
  match a with
  | AStr s =>
      if (Ascii.eqb verb "s" || Ascii.eqb verb "v")%bool then s
      else "%!" +:+ String verb ("(string=" +:+ s +:+ ")")
  | AInt n =>
      if (Ascii.eqb verb "d" || Ascii.eqb verb "v")%bool then itoa n
      else "%!" +:+ String verb ("(int=" +:+ itoa n +:+ ")")
  | AErr e =>
      if (Ascii.eqb verb "s" || Ascii.eqb verb "v" || Ascii.eqb verb "w")%bool
      then Error e
      else "%!" +:+ String verb ("(error=" +:+ Error e +:+ ")")
  end.

(** [fmt.Sprintf(format, a...)] for formats of plain verbs: each [%x]
    consumes the next operand; a verb without operand prints
    [%!x(MISSING)]. *)
Fixpoint Sprintf (format : string) (a : list arg) : string :=
  match format with
  | "" => ""
  | String c rest =>
      if Ascii.eqb c "%" then
        match rest with
        | "" => "%!(NOVERB)"
        | String verb rest' =>
            match a with
            | [] => "%!" +:+ String verb "(MISSING)" +:+ Sprintf rest' []
            | x :: a' => fmt_verb verb x +:+ Sprintf rest' a'
            end
        end
      else String c (Sprintf rest a)
  end.

(** The operand of the first [%w] of [format], which [fmt.Errorf] makes
    the wrapped error. *)
Fixpoint wrapped (format : string) (a : list arg) : option error :=
  match format with
  | "" => None
  | String c rest =>
      if Ascii.eqb c "%" then
        match rest with
        | "" => None
        | String verb rest' =>
            match a with
            | [] => None
            | x :: a' =>
                match x with
                | AErr e => if Ascii.eqb verb "w" then Some e else wrapped rest' a'
                | _ => wrapped rest' a'
                end
            end
        end
      else wrapped rest a
  end.

(** [fmt.Errorf(format, a...)] *)
Definition Errorf (format : string) (a : list arg) : error :=
  match wrapped format a with
  | Some cause => errWrap (Sprintf format a) cause
  | None => errNew (Sprintf format a)
  end.

End Fmt.

(* ===================================================================== *)
(** ** package time *)

Module Time.

(** A [time.Time] as [Format] reads it: the calendar date that [Date()]
    returns, and the absolute second count from which [Clock()] computes
    the time of day. *)
Record Time : Type := mkTime {
  year : Z;
  month : Z;
  day : Z;
  abs : N
}.

Definition secondsPerMinute : Z := 60.
Definition secondsPerHour : Z := 60 * secondsPerMinute.
Definition secondsPerDay : Z := 24 * secondsPerHour.

(** [absClock]: hour, minute and second of the day. *)
Definition Clock (t : Time) : Z * Z * Z :=
  let sec := Z.of_N (abs t) mod secondsPerDay in
  let hour := sec / secondsPerHour in
  let sec := sec - hour * secondsPerHour in
  let min := sec / secondsPerMinute in
  let sec := sec - min * secondsPerMinute in
  (hour, min, sec).

Definition hour (t : Time) : Z := fst (fst (Clock t)).
Definition minute (t : Time) : Z := snd (fst (Clock t)).
Definition second (t : Time) : Z := snd (Clock t).

(** [time.Date(y, m, d, h, mi, s, 0, loc)] for fields that are in range
    (no normalisation is modelled). *)
Definition Date (y m d h mi s : Z) : Time :=
  mkTime y m d (Z.to_N (h * secondsPerHour + mi * secondsPerMinute + s)).

(** [utod]: the digit character of [u < 10]. *)
Definition utod (u : Z) : ascii := ascii_of_nat (48 + Z.to_nat u).

Fixpoint zeros (n : nat) : string :=
  match n with
  | O => ""
  | S n' => String "0" (zeros n')
  end.

(** [appendInt(b, x, width)]: the decimal form of [x], zero-padded to
    [width], after [b]. *)
Definition appendInt (b : string) (x : Z) (width : Z) : string :=
  let b := if x <? 0 then b +:+ "-" else b in
  let u := Z.abs x in
  if ((width =? 2) && (u <? 100))%bool then
    b +:+ String (utod (u / 10)) (String (utod (u mod 10)) "")
  else if ((width =? 4) && (u <? 10000))%bool then
    b +:+ String (utod (u / 1000)) (String (utod (u / 100 mod 10))
           (String (utod (u / 10 mod 10)) (String (utod (u mod 10)) "")))
  else
    let digits := Fmt.itoa u in
    let n := Z.of_nat (String.length digits) in
    b +:+ zeros (Z.to_nat (width - n)) +:+ digits.

(** The elements of a layout that the program's layouts are made of. *)
Inductive chunk : Type :=
| stdLongYear      (* "2006" *)
| stdZeroMonth     (* "01" *)
| stdZeroDay       (* "02" *)
| stdHour          (* "15" *)
| stdZeroMinute    (* "04" *)
| stdZeroSecond    (* "05" *)
| literal (c : ascii).

(** [nextStdChunk], iterated, on layouts built from the six elements
    above and bytes that start no layout element. *)
Fixpoint chunks (n : nat) (layout : string) : list chunk :=
  match n with
  | O => []
  | S n' =>
      match layout with
      | "" => []
      | String c rest =>
          match Strings.cut_prefix "2006" layout with
          | Some r => stdLongYear :: chunks n' r
          | None =>
          match Strings.cut_prefix "01" layout with
          | Some r => stdZeroMonth :: chunks n' r
          | None =>
          match Strings.cut_prefix "02" layout with
          | Some r => stdZeroDay :: chunks n' r
          | None =>
          match Strings.cut_prefix "15" layout with
          | Some r => stdHour :: chunks n' r
          | None =>
          match Strings.cut_prefix "04" layout with
          | Some r => stdZeroMinute :: chunks n' r
          | None =>
          match Strings.cut_prefix "05" layout with
          | Some r => stdZeroSecond :: chunks n' r
          | None => literal c :: chunks n' rest
          end end end end end end
      end
  end.

(** The body of the loop of [appendFormat] for one element. *)
Definition appendChunk (t : Time) (b : string) (c : chunk) : string :=
  match c with
  | stdLongYear => appendInt b (year t) 4
  | stdZeroMonth => appendInt b (month t) 2
  | stdZeroDay => appendInt b (day t) 2
  | stdHour => appendInt b (hour t) 2
  | stdZeroMinute => appendInt b (minute t) 2
  | stdZeroSecond => appendInt b (second t) 2
  | literal c => b +:+ String c ""
  end.

(** [t.Format(layout)] *)
Definition Format (t : Time) (layout : string) : string :=
  fold_left (appendChunk t) (chunks (String.length layout) layout) "".

End Time.

(* ===================================================================== *)
(** ** Data of the program and of its surroundings *)

(** [Config] holds OAuth credentials (fields [app_key], [app_secret],
    [refresh_token] of the JSON file). *)
Record Config : Type := mkConfig {
  AppKey : string;
  AppSecret : string;
  RefreshToken : string
}.

(** [&Config{}] *)
Definition zeroConfig : Config := mkConfig "" "" "".

(** [tokenResponse] is the response from the [/oauth2/token] endpoint. *)
Record tokenResponse : Type := mkTokenResponse {
  AccessToken : string;
  tr_RefreshToken : string;
  TokenType : string
}.

Definition zeroTokenResponse : tokenResponse := mkTokenResponse "" "" "".

(** The anonymous struct that [Download] decodes a 409 body into. *)
Record apiError : Type := mkApiError {
  ErrorSummary : string
}.

(** [DropboxClient] talks to the content API. *)
Record DropboxClient : Type := mkClient {
  Token : string;
  BaseURL : string
}.

(** The values that the program puts in a JSON object. *)
Inductive jvalue : Type :=
| JString (s : string)
| JBool (b : bool).

(** An [http.Request]: method, URL, header and the bytes of its body. *)
Record Request : Type := mkRequest {
  Method : string;
  URL : string;
  Header : gmap string string;
  ReqBody : string
}.

(** An [http.Response]: the status code, and what [io.ReadAll] of the
    body returns (the bytes read, and the error that stopped the read). *)
Record Response : Type := mkResponse {
  StatusCode : Z;
  Body : string * option error
}.

(** The standard-library packages that are taken as an interface. *)
Class Runtime : Type := {
  (** [encoding/json]: the well-formedness scan that [Unmarshal] runs
      first, and the decoder proper for each destination type *)
  checkValid : string -> option error;
  decode_Config : string -> Config -> Config * option error;
  decode_tokenResponse : string -> tokenResponse -> tokenResponse * option error;
  decode_apiError : string -> apiError -> apiError * option error;
  (** [json.Marshal] of a map, [json.MarshalIndent(cfg, "", "  ")] *)
  Marshal_map : gmap string jvalue -> string;
  MarshalIndent_Config : Config -> string * option error;
  (** [net/http]: the error of [http.NewRequest(method, url, _)] *)
  NewRequest_err : string -> string -> option error;
  (** [path/filepath] *)
  filepath_Dir : string -> string;
  filepath_Join : list string -> string;
  (** [flag.Parse] and [flag.Args] on [os.Args[1:]] for the one boolean
      flag [no-timestamp]: the exit status when the package ends the
      process, or the flag and the remaining arguments *)
  flag_Parse : list string -> Z + (bool * list string)
}.

(** What the process finds around it. *)
Record World : Type := mkWorld {
  (** [os.Args] *)
  Args : list string;
  (** the environment; [os.Getenv] of an unset variable is [""] *)
  Environ : gmap string string;
  (** [time.Now()] *)
  Now : Time.Time;
  (** [os.UserHomeDir()], its error dropped *)
  UserHomeDir : string;
  (** [os.Stdin.Stat()]: the mode bits, [None] when it fails *)
  Stdin_Stat : option Z;
  (** [io.ReadAll(os.Stdin)] *)
  Stdin_ReadAll : string * option error;
  (** [scanner.Text()] after one [scanner.Scan()] on standard input *)
  Stdin_ScanLine : string;
  (** [http.DefaultClient.Do(req)], given the requests sent before *)
  Do : list Request -> Request -> error + Response;
  (** the error of [os.ReadFile] for a path that cannot be read *)
  ReadFile_err : string -> error;
  (** [os.MkdirAll(dir, 0700)] *)
  MkdirAll : string -> option error;
  (** the error, if any, with which [os.WriteFile(path, _, 0600)] fails
      before writing *)
  WriteFile_err : string -> option error
}.

(** What the process changes: the readable files, the requests sent, and
    the two output streams. *)
Record State : Type := mkState {
  files : gmap string string;
  sent : list Request;
  stdout : string;
  stderr : string
}.

(** How [main] ends: by returning (status 0) or by [os.Exit(code)]. *)
Inductive Outcome : Type :=
| Returned
| Exit (code : Z).

(* ===================================================================== *)
(** ** State and panic *)

(** A computation on the state that may panic ([None]). *)
Definition M (A : Type) : Type := State -> option A * State.

#[global] Instance M_ret : MRet M := fun A a st => (Some a, st).

#[global] Instance M_bind : MBind M := fun A B k c st =>
  match c st with
  | (Some a, st') => k a st'
  | (None, st') => (None, st')
  end.

(** A run-time panic. *)
Definition panic {A : Type} : M A := fun st => (None, st).

(** [fmt.Fprint] to the two streams. *)
Definition print_stdout (s : string) : M unit :=
  fun st => (Some tt, mkState (files st) (sent st) (stdout st +:+ s) (stderr st)).

Definition print_stderr (s : string) : M unit :=
  fun st => (Some tt, mkState (files st) (sent st) (stdout st) (stderr st +:+ s)).

(* ===================================================================== *)
(** ** package net/url: form encoding *)

Module Url.

(** [url.Values]: a key with its values, as the literal lists them. *)
Definition Values : Type := list (string * list string).

Definition upperhex (n : nat) : ascii :=
  if (n <? 10)%nat then ascii_of_nat (48 + n) else ascii_of_nat (55 + n).

Definition between (lo hi : nat) (c : ascii) : bool :=
  ((lo <=? nat_of_ascii c)%nat && (nat_of_ascii c <=? hi)%nat)%bool.

(** [shouldEscape(c, encodeQueryComponent)]: everything but letters,
    digits and [-_.~]. *)
Definition shouldEscape (c : ascii) : bool :=
  negb (between 97 122 c || between 65 90 c || between 48 57 c
        || Ascii.eqb c "-" || Ascii.eqb c "_" || Ascii.eqb c "."
        || Ascii.eqb c "~")%bool.

(** [url.QueryEscape(s)] *)
Fixpoint QueryEscape (s : string) : string :=
  match s with
  | "" => ""
  | String c rest =>
      if Ascii.eqb c " " then String "+" (QueryEscape rest)
      else if shouldEscape c then
        String "%" (String (upperhex (nat_of_ascii c / 16))
                   (String (upperhex (nat_of_ascii c mod 16)) (QueryEscape rest)))
      else String c (QueryEscape rest)
  end.

(** Insertion of a key in a list sorted by key. *)
Fixpoint insert_sorted (kv : string * list string) (v : Values) : Values :=
  match v with
  | [] => [kv]
  | kv' :: v' =>
      if String.leb (fst kv) (fst kv') then kv :: v
      else kv' :: insert_sorted kv v'
  end.

Definition sort_keys (v : Values) : Values := foldr insert_sorted [] v.

(** The [key=value] pairs of one key. *)
Definition encode_key (kv : string * list string) : list string :=
  map (fun x => QueryEscape (fst kv) +:+ "=" +:+ QueryEscape x) (snd kv).

(** [v.Encode()]: the pairs, sorted by key, joined with [&]. *)
Definition Encode (v : Values) : string :=
  Strings.Join (concat (map encode_key (sort_keys v))) "&".

End Url.

(* ===================================================================== *)
(** ** The program *)

Section Program.

Context {R : Runtime} (w : World).

Import Fmt.

(** *** Standard-library calls on the world and the state *)

(** [os.Getenv(key)] *)
Definition Getenv (key : string) : string := default "" (Environ w !! key).

(** [os.ReadFile(path)] *)
Definition os_ReadFile (path : string) : M (string * option error) :=
  fun st =>
    match files st !! path with
    | Some data => (Some (data, None), st)
    | None => (Some ("", Some (ReadFile_err w path)), st)
    end.

(** [os.WriteFile(path, data, 0600)] *)
Definition os_WriteFile (path data : string) : M (option error) :=
  fun st =>
    match WriteFile_err w path with
    | Some err => (Some (Some err), st)
    | None =>
        (Some None,
         mkState (<[path := data]> (files st)) (sent st) (stdout st) (stderr st))
    end.

(** [json.Unmarshal(data, v)]: nothing is stored when [data] is not
    well-formed JSON. *)
Definition json_Unmarshal {T : Type} (decode : string -> T -> T * option error)
    (data : string) (v : T) : T * option error :=
  match checkValid data with
  | Some err => (v, Some err)
  | None => decode data v
  end.

(** [http.NewRequest(method, url, body)] *)
Definition http_NewRequest (method url body : string) : error + Request :=
  match NewRequest_err method url with
  | Some err => inl err
  | None => inr (mkRequest method url ∅ body)
  end.

(** [req.Header.Set(key, value)] *)
Definition Header_Set (req : Request) (key value : string) : Request :=
  mkRequest (Method req) (URL req) (<[key := value]> (Header req)) (ReqBody req).

(** [http.DefaultClient.Do(req)]: the request is sent and logged. *)
Definition http_Do (req : Request) : M (error + Response) :=
  fun st =>
    (Some (Do w (sent st) req),
     mkState (files st) (sent st ++ [req]) (stdout st) (stderr st)).

(** [http.PostForm(url, data)] *)
Definition http_PostForm (url : string) (data : Url.Values) : M (error + Response) :=
  match http_NewRequest "POST" url (Url.Encode data) with
  | inl err => mret (inl err)
  | inr req =>
      http_Do (Header_Set req "Content-Type" "application/x-www-form-urlencoded")
  end.

(** *** main.go *)

(** [resolvePath] returns the Dropbox path for today's journal file. *)
Definition resolvePath (now : Time.Time) : string :=
  Sprintf "/Notes/Journal/%s/%s/Note%s.md"
    [AStr (Time.Format now "2006");
     AStr (Time.Format now "01");
     AStr (Time.Format now "20060102")].

(** [formatEntry] formats the input text, optionally with a timestamp
    header. *)
Definition formatEntry (now : Time.Time) (text : string) (noTimestamp : bool)
    : string :=
  if noTimestamp then text +:+ LF
  else Sprintf ("### %s" +:+ LF +:+ "%s" +:+ LF)
         [AStr (Time.Format now "15:04:05"); AStr text].

(** [os.ModeCharDevice] *)
Definition ModeCharDevice : Z := Z.shiftl 1 21.

Definition no_input : error :=
  Errorf "no input provided: pass text as argument or via stdin" [].

(** [readInput] reads from remaining CLI args first, then stdin.  The
    error of [Stat] is dropped, so [stat.Mode()] on the [nil] that comes
    with it panics. *)
Definition readInput (args : list string) : M (string * option error) :=
  if (0 <? length args)%nat then mret (Strings.Join args " ", None)
  else
    match Stdin_Stat w with
    | None => panic
    | Some mode =>
        if Z.land mode ModeCharDevice =? 0 then
          let '(data, err) := Stdin_ReadAll w in
          match err with
          | Some err => mret ("", Some (Errorf "reading stdin: %w" [AErr err]))
          | None =>
              let text := Strings.TrimSpace data in
              if negb (String.eqb text "") then mret (text, None)
              else mret ("", Some no_input)
          end
        else mret ("", Some no_input)
    end.

(** [appendContent] combines existing file content with the new entry. *)
Definition appendContent (existing entry : string) : string :=
  if String.eqb existing "" then entry
  else existing +:+ LF +:+ entry.

(** *** config.go *)

(** [defaultConfigPath] returns ~/.config/dropbox-appender/config.json. *)
Definition defaultConfigPath : string :=
  filepath_Join [UserHomeDir w; ".config"; "dropbox-appender"; "config.json"].

Definition set_AppKey (cfg : Config) (v : string) : Config :=
  mkConfig v (AppSecret cfg) (RefreshToken cfg).
Definition set_AppSecret (cfg : Config) (v : string) : Config :=
  mkConfig (AppKey cfg) v (RefreshToken cfg).
Definition set_RefreshToken (cfg : Config) (v : string) : Config :=
  mkConfig (AppKey cfg) (AppSecret cfg) v.

(** The three overrides at the end of [loadConfig]. *)
Definition env_overrides (cfg : Config) : Config :=
  let cfg :=
    let v := Getenv "DROPBOX_APP_KEY" in
    if negb (String.eqb v "") then set_AppKey cfg v else cfg in
  let cfg :=
    let v := Getenv "DROPBOX_APP_SECRET" in
    if negb (String.eqb v "") then set_AppSecret cfg v else cfg in
  let cfg :=
    let v := Getenv "DROPBOX_REFRESH_TOKEN" in
    if negb (String.eqb v "") then set_RefreshToken cfg v else cfg in
  cfg.

(** [loadConfig] reads config from file, then applies env var overrides. *)
Definition loadConfig (path : string) : M (Config * option error) :=
  let cfg := zeroConfig in
  '(data, err) ← os_ReadFile path;
  let cfg :=
    match err with
    | None => fst (json_Unmarshal decode_Config data cfg)
    | Some _ => cfg
    end in
  mret (env_overrides cfg, None).

(** [saveConfig] writes config to file, creating directories as needed. *)
Definition saveConfig (path : string) (cfg : Config) : M (option error) :=
  match MkdirAll w (filepath_Dir path) with
  | Some err => mret (Some err)
  | None =>
      let '(data, err) := MarshalIndent_Config cfg in
      match err with
      | Some err => mret (Some err)
      | None => os_WriteFile path data
      end
  end.

(** *** auth.go *)

Definition defaultTokenURL : string := "https://api.dropboxapi.com/oauth2/token".

(** [authorizeURL] returns the OAuth2 authorization URL. *)
Definition authorizeURL (appKey : string) : string :=
  let params : Url.Values :=
    [("client_id", [appKey]);
     ("response_type", ["code"]);
     ("token_access_type", ["offline"])] in
  "https://www.dropbox.com/oauth2/authorize?" +:+ Url.Encode params.

(** [exchangeCode] exchanges an authorization code for access + refresh
    tokens. *)
Definition exchangeCode (tokenURL appKey appSecret code : string)
    : M (error + tokenResponse) :=
  let data : Url.Values :=
    [("grant_type", ["authorization_code"]);
     ("code", [code]);
     ("client_id", [appKey]);
     ("client_secret", [appSecret])] in
  r ← http_PostForm tokenURL data;
  match r with
  | inl err => mret (inl (Errorf "token request: %w" [AErr err]))
  | inr resp =>
      let '(body, err) := Body resp in
      match err with
      | Some err => mret (inl (Errorf "reading response: %w" [AErr err]))
      | None =>
          if negb (StatusCode resp =? 200) then
            mret (inl (Errorf "token exchange failed (status %d): %s"
                         [AInt (StatusCode resp); AStr (Strings.TrimSpace body)]))
          else
            let '(result, err) :=
              json_Unmarshal decode_tokenResponse body zeroTokenResponse in
            match err with
            | Some err => mret (inl (Errorf "parsing response: %w" [AErr err]))
            | None => mret (inr result)
            end
      end
  end.

(** [refreshAccessToken] uses a refresh token to get a fresh short-lived
    access token. *)
Definition refreshAccessToken (tokenURL appKey appSecret refreshToken : string)
    : M (string * option error) :=
  let data : Url.Values :=
    [("grant_type", ["refresh_token"]);
     ("refresh_token", [refreshToken]);
     ("client_id", [appKey]);
     ("client_secret", [appSecret])] in
  r ← http_PostForm tokenURL data;
  match r with
  | inl err => mret ("", Some (Errorf "refresh request: %w" [AErr err]))
  | inr resp =>
      let '(body, err) := Body resp in
      match err with
      | Some err => mret ("", Some (Errorf "reading response: %w" [AErr err]))
      | None =>
          if negb (StatusCode resp =? 200) then
            mret ("", Some (Errorf "token refresh failed (status %d): %s"
                              [AInt (StatusCode resp); AStr (Strings.TrimSpace body)]))
          else
            let '(result, err) :=
              json_Unmarshal decode_tokenResponse body zeroTokenResponse in
            match err with
            | Some err => mret ("", Some (Errorf "parsing response: %w" [AErr err]))
            | None => mret (AccessToken result, None)
            end
      end
  end.

(** *** dropbox.go *)

Definition defaultBaseURL : string := "https://content.dropboxapi.com".

Definition baseURL (c : DropboxClient) : string :=
  if negb (String.eqb (BaseURL c) "") then BaseURL c else defaultBaseURL.

(** The request that [Download] builds. *)
Definition download_request (c : DropboxClient) (path : string) : error + Request :=
  match http_NewRequest "POST" (baseURL c +:+ "/2/files/download") "" with
  | inl err => inl err
  | inr req =>
      let arg := Marshal_map {[ "path" := JString path ]} in
      let req := Header_Set req "Authorization" ("Bearer " +:+ Token c) in
      let req := Header_Set req "Dropbox-API-Arg" arg in
      inr req
  end.

(** [Download] fetches a file from Dropbox.  Returns empty string if
    file doesn't exist. *)
Definition Download (c : DropboxClient) (path : string) : M (string * option error) :=
  match download_request c path with
  | inl err => mret ("", Some (Errorf "creating request: %w" [AErr err]))
  | inr req =>
      r ← http_Do req;
      match r with
      | inl err => mret ("", Some (Errorf "download request: %w" [AErr err]))
      | inr resp =>
          let '(body, err) := Body resp in
          match err with
          | Some err => mret ("", Some (Errorf "reading response: %w" [AErr err]))
          | None =>
              if StatusCode resp =? 409 then
                let apiErr :=
                  fst (json_Unmarshal decode_apiError body (mkApiError "")) in
                if Strings.Contains (ErrorSummary apiErr) "not_found" then
                  mret ("", None)
                else
                  mret ("", Some (Errorf "dropbox API error: %s"
                                    [AStr (ErrorSummary apiErr)]))
              else if negb (StatusCode resp =? 200) then
                mret ("", Some (Errorf "dropbox API error (status %d): %s"
                                  [AInt (StatusCode resp); AStr body]))
              else mret (body, None)
          end
      end
  end.

(** The request that [Upload] builds. *)
Definition upload_request (c : DropboxClient) (path content : string)
    : error + Request :=
  match http_NewRequest "POST" (baseURL c +:+ "/2/files/upload") content with
  | inl err => inl err
  | inr req =>
      let arg :=
        Marshal_map
          {[ "path" := JString path;
             "mode" := JString "overwrite";
             "mute" := JBool true ]} in
      let req := Header_Set req "Authorization" ("Bearer " +:+ Token c) in
      let req := Header_Set req "Dropbox-API-Arg" arg in
      let req := Header_Set req "Content-Type" "application/octet-stream" in
      inr req
  end.

(** [Upload] writes content to a file in Dropbox, overwriting if it
    exists. *)
Definition Upload (c : DropboxClient) (path content : string) : M (option error) :=
  match upload_request c path content with
  | inl err => mret (Some (Errorf "creating request: %w" [AErr err]))
  | inr req =>
      r ← http_Do req;
      match r with
      | inl err => mret (Some (Errorf "upload request: %w" [AErr err]))
      | inr resp =>
          if negb (StatusCode resp =? 200) then
            let '(body, _) := Body resp in
            mret (Some (Errorf "dropbox API error (status %d): %s"
                          [AInt (StatusCode resp); AStr body]))
          else mret None
      end
  end.

(** *** main.go, the entry point *)

(** [resolveToken] gets an access token using the priority chain:
    1. DROPBOX_TOKEN env var (direct)
    2. Refresh token + app key/secret (auto-refresh)
    3. Error *)
Definition resolveToken (cfg : Config) : M (string * option error) :=
  let token := Getenv "DROPBOX_TOKEN" in
  if negb (String.eqb token "") then mret (token, None)
  else if (negb (String.eqb (RefreshToken cfg) "")
           && negb (String.eqb (AppKey cfg) "")
           && negb (String.eqb (AppSecret cfg) ""))%bool then
    '(token, err) ← refreshAccessToken defaultTokenURL
                       (AppKey cfg) (AppSecret cfg) (RefreshToken cfg);
    match err with
    | Some err =>
        mret ("", Some (Errorf ("refresh token invalid, run: dropbox-appender auth"
                                +:+ LF +:+ "  (%w)") [AErr err]))
    | None => mret (token, None)
    end
  else
    mret ("", Some (Errorf "no authentication configured, run: dropbox-appender auth" [])).

Definition runAuth (configPath : string) : M Outcome :=
  '(cfg, err) ← loadConfig configPath;
  match err with
  | Some err =>
      print_stderr (Sprintf ("error loading config: %v" +:+ LF) [AErr err]);;
      mret (Exit 1)
  | None =>
      if (String.eqb (AppKey cfg) "" || String.eqb (AppSecret cfg) "")%bool then
        print_stderr ("app_key and app_secret required." +:+ LF);;
        print_stderr
          (Sprintf ("Set in %s or via DROPBOX_APP_KEY and DROPBOX_APP_SECRET env vars."
                    +:+ LF) [AStr configPath]);;
        mret (Exit 1)
      else
        print_stdout ("1. Open this URL in your browser:" +:+ LF);;
        print_stdout LF;;
        print_stdout ("  " +:+ " " +:+ authorizeURL (AppKey cfg) +:+ LF);;
        print_stdout LF;;
        print_stdout "2. Enter the authorization code: ";;
        let code := Strings.TrimSpace (Stdin_ScanLine w) in
        if String.eqb code "" then
          print_stderr ("no code entered" +:+ LF);;
          mret (Exit 1)
        else
          r ← exchangeCode defaultTokenURL (AppKey cfg) (AppSecret cfg) code;
          match r with
          | inl err =>
              print_stderr (Sprintf ("error: %v" +:+ LF) [AErr err]);;
              mret (Exit 1)
          | inr result =>
              let cfg := set_RefreshToken cfg (tr_RefreshToken result) in
              err ← saveConfig configPath cfg;
              match err with
              | Some err =>
                  print_stderr (Sprintf ("error saving config: %v" +:+ LF) [AErr err]);;
                  mret (Exit 1)
              | None =>
                  print_stdout (LF +:+ "Authentication successful! Refresh token saved."
                                +:+ LF);;
                  mret Returned
              end
          end
  end.

(** The append flow: [main] from [flag.Parse()] on, given [os.Args[1:]]. *)
Definition append_flow (osargs : list string) : M Outcome :=
  match flag_Parse osargs with
  | inl code => mret (Exit code)
  | inr (noTimestamp, args) =>
      let configPath := defaultConfigPath in
      '(cfg, err) ← loadConfig configPath;
      match err with
      | Some err =>
          print_stderr (Sprintf ("error loading config: %v" +:+ LF) [AErr err]);;
          mret (Exit 1)
      | None =>
          '(token, err) ← resolveToken cfg;
          match err with
          | Some err => print_stderr (Error err +:+ LF);; mret (Exit 1)
          | None =>
              '(input, err) ← readInput args;
              match err with
              | Some err => print_stderr (Error err +:+ LF);; mret (Exit 1)
              | None =>
                  let now := Now w in
                  let path := resolvePath now in
                  let entry := formatEntry now input noTimestamp in
                  let client := mkClient token "" in
                  '(existing, err) ← Download client path;
                  match err with
                  | Some err =>
                      print_stderr
                        (Sprintf ("error downloading: %v" +:+ LF) [AErr err]);;
                      mret (Exit 1)
                  | None =>
                      let newContent := appendContent existing entry in
                      err ← Upload client path newContent;
                      match err with
                      | Some err =>
                          print_stderr
                            (Sprintf ("error uploading: %v" +:+ LF) [AErr err]);;
                          mret (Exit 1)
                      | None =>
                          print_stdout (Sprintf ("Appended to %s" +:+ LF) [AStr path]);;
                          mret Returned
                      end
                  end
              end
          end
      end
  end.

(** The test for the auth subcommand at the head of [main]. *)
Definition auth_subcommand : bool :=
  ((1 <? length (Args w))%nat && String.eqb (nth 1 (Args w) "") "auth")%bool.

(** [main]; [flag.Parse] reads [os.Args[1:]], which panics on an empty
    [os.Args]. *)
Definition main : M Outcome :=
  if auth_subcommand
  then runAuth defaultConfigPath
  else
    match Args w with
    | _ :: osargs => append_flow osargs
    | [] => panic
    end.

(** The earlier entry point ([main] of main.go before the OAuth flow):
    the token comes from [DROPBOX_TOKEN] alone. *)
Definition main_direct_token : M Outcome :=
  match Args w with
  | [] => panic
  | _ :: osargs =>
      match flag_Parse osargs with
      | inl code => mret (Exit code)
      | inr (noTimestamp, args) =>
          let token := Getenv "DROPBOX_TOKEN" in
          if String.eqb token "" then
            print_stderr ("DROPBOX_TOKEN environment variable is required" +:+ LF);;
            mret (Exit 1)
          else
            '(input, err) ← readInput args;
            match err with
            | Some err => print_stderr (Error err +:+ LF);; mret (Exit 1)
            | None =>
                let now := Now w in
                let path := resolvePath now in
                let entry := formatEntry now input noTimestamp in
                let client := mkClient token "" in
                '(existing, err) ← Download client path;
                match err with
                | Some err =>
                    print_stderr
                      (Sprintf ("error downloading: %v" +:+ LF) [AErr err]);;
                    mret (Exit 1)
                | None =>
                    let newContent := appendContent existing entry in
                    err ← Upload client path newContent;
                    match err with
                    | Some err =>
                        print_stderr
                          (Sprintf ("error uploading: %v" +:+ LF) [AErr err]);;
                        mret (Exit 1)
                    | None =>
                        print_stdout (Sprintf ("Appended to %s" +:+ LF) [AStr path]);;
                        mret Returned
                    end
                end
            end
      end
  end.

End Program.

(* ===================================================================== *)
(** ** A reference runtime

    An instance of [Runtime] for concrete runs.  Its JSON codec reads and
    writes objects whose members are strings, with a backslash before a
    quote or a backslash as the only escapes: on texts of printable ASCII without [<], [>], [&] it
    produces and accepts what [encoding/json] does.  Its [flag_Parse]
    knows the forms [-no-timestamp], [--no-timestamp], [--] and the help
    flags; its [filepath] functions expect clean paths. *)

Module Ref.

Inductive token : Type :=
| TLBrace | TRBrace | TColon | TComma
| TString (s : string).

Definition is_ws (c : ascii) : bool :=
  (Ascii.eqb c " " || Ascii.eqb c "009" || Ascii.eqb c "010" || Ascii.eqb c "013")%bool.

Definition quote : ascii := "034".
Definition backslash : ascii := "092".

(** The tokens of [s]; [cur] is the string literal being read, reversed. *)
Fixpoint lex (s : string) (cur : option string) : option (list token) :=
  match s with
  | "" => match cur with None => Some [] | Some _ => None end
  | String c r =>
      match cur with
      | Some acc =>
          if Ascii.eqb c quote then
            match lex r None with
            | Some ts => Some (TString (String.rev acc) :: ts)
            | None => None
            end
          else if Ascii.eqb c backslash then
            match r with
            | String d r' =>
                if (Ascii.eqb d quote || Ascii.eqb d backslash)%bool
                then lex r' (Some (String d acc))
                else None
            | "" => None
            end
          else lex r (Some (String c acc))
      | None =>
          if is_ws c then lex r None
          else if Ascii.eqb c quote then lex r (Some "")
          else
            let single (t : token) :=
              match lex r None with
              | Some ts => Some (t :: ts)
              | None => None
              end in
            if Ascii.eqb c "{" then single TLBrace
            else if Ascii.eqb c "}" then single TRBrace
            else if Ascii.eqb c ":" then single TColon
            else if Ascii.eqb c "," then single TComma
            else None
      end
  end.

(** The members after the first, up to the closing brace. *)
Fixpoint more_members (ts : list token) : option (list (string * string)) :=
  match ts with
  | [TRBrace] => Some []
  | TComma :: TString k :: TColon :: TString v :: ts' =>
      match more_members ts' with
      | Some kvs => Some ((k, v) :: kvs)
      | None => None
      end
  | _ => None
  end.

(** The members of an object of strings. *)
Definition members (data : string) : option (list (string * string)) :=
  match lex data None with
  | Some [TLBrace; TRBrace] => Some []
  | Some (TLBrace :: TString k :: TColon :: TString v :: ts) =>
      match more_members ts with
      | Some kvs => Some ((k, v) :: kvs)
      | None => None
      end
  | _ => None
  end.

Definition syntax_error : error := errNew "invalid character".

Definition ref_checkValid (data : string) : option error :=
  match members data with
  | Some _ => None
  | None => Some syntax_error
  end.

(** Decoding into a struct: each member whose key is a field's tag is
    stored in that field, in order. *)
Definition decode_with {T : Type} (store : T -> string -> string -> T)
    (data : string) (v : T) : T * option error :=
  match members data with
  | Some kvs => (fold_left (fun v kv => store v (fst kv) (snd kv)) kvs v, None)
  | None => (v, Some syntax_error)
  end.

Definition store_Config (cfg : Config) (k v : string) : Config :=
  if String.eqb k "app_key" then mkConfig v (AppSecret cfg) (RefreshToken cfg)
  else if String.eqb k "app_secret" then mkConfig (AppKey cfg) v (RefreshToken cfg)
  else if String.eqb k "refresh_token" then mkConfig (AppKey cfg) (AppSecret cfg) v
  else cfg.

Definition store_tokenResponse (r : tokenResponse) (k v : string) : tokenResponse :=
  if String.eqb k "access_token" then mkTokenResponse v (tr_RefreshToken r) (TokenType r)
  else if String.eqb k "refresh_token" then mkTokenResponse (AccessToken r) v (TokenType r)
  else if String.eqb k "token_type" then mkTokenResponse (AccessToken r) (tr_RefreshToken r) v
  else r.

Definition store_apiError (e : apiError) (k v : string) : apiError :=
  if String.eqb k "error_summary" then mkApiError v else e.

(** A string literal. *)
Fixpoint escape (s : string) : string :=
  match s with
  | "" => ""
  | String c r =>
      if (Ascii.eqb c quote || Ascii.eqb c backslash)%bool
      then String backslash (String c (escape r))
      else String c (escape r)
  end.

Definition literal (s : string) : string :=
  String quote (escape s) +:+ String quote "".

Definition render (v : jvalue) : string :=
  match v with
  | JString s => literal s
  | JBool true => "true"
  | JBool false => "false"
  end.

Fixpoint insert_member (kv : string * jvalue) (l : list (string * jvalue))
    : list (string * jvalue) :=
  match l with
  | [] => [kv]
  | kv' :: l' =>
      if String.leb (fst kv) (fst kv') then kv :: l
      else kv' :: insert_member kv l'
  end.

(** A map, its keys sorted. *)
Definition ref_Marshal_map (m : gmap string jvalue) : string :=
  "{" +:+
  Strings.Join
    (map (fun kv => literal (fst kv) +:+ ":" +:+ render (snd kv))
         (foldr insert_member [] (map_to_list m))) ","
  +:+ "}".

Definition ref_MarshalIndent_Config (cfg : Config) : string * option error :=
  ("{" +:+ LF +:+
   "  " +:+ literal "app_key" +:+ ": " +:+ literal (AppKey cfg) +:+ "," +:+ LF +:+
   "  " +:+ literal "app_secret" +:+ ": " +:+ literal (AppSecret cfg) +:+ "," +:+ LF +:+
   "  " +:+ literal "refresh_token" +:+ ": " +:+ literal (RefreshToken cfg) +:+ LF +:+
   "}", None).

(** The directory of a clean path. *)
Fixpoint drop_last_element (rev_path : string) : string :=
  match rev_path with
  | "" => ""
  | String c r => if Ascii.eqb c "/" then r else drop_last_element r
  end.

Definition ref_Dir (path : string) : string :=
  let d := String.rev (drop_last_element (String.rev path)) in
  if String.eqb d "" then (if Strings.HasPrefix path "/" then "/" else ".") else d.

Fixpoint ref_flag_Parse_from (seen : bool) (args : list string) : Z + (bool * list string) :=
  match args with
  | [] => inr (seen, [])
  | a :: rest =>
      if (String.eqb a "-no-timestamp" || String.eqb a "--no-timestamp")%bool
      then ref_flag_Parse_from true rest
      else if String.eqb a "--" then inr (seen, rest)
      else if (String.eqb a "-h" || String.eqb a "--h"
               || String.eqb a "-help" || String.eqb a "--help")%bool then inl 0
      else if (Strings.HasPrefix a "-" && negb (String.eqb a "-"))%bool then inl 2
      else inr (seen, args)
  end.

#[local] Instance runtime : Runtime := {|
  checkValid := ref_checkValid;
  decode_Config := decode_with store_Config;
  decode_tokenResponse := decode_with store_tokenResponse;
  decode_apiError := decode_with store_apiError;
  Marshal_map := ref_Marshal_map;
  MarshalIndent_Config := ref_MarshalIndent_Config;
  NewRequest_err := fun _ _ => None;
  filepath_Dir := ref_Dir;
  filepath_Join := fun elems => Strings.Join elems "/";
  flag_Parse := ref_flag_Parse_from false
|}.

End Ref.

(* ===================================================================== *)
(** ** package unicode/utf8 *)

Module Utf8.

(** A byte as a number, and the byte that [byte(n)] keeps of a number. *)
Definition code (c : ascii) : Z := Z.of_N (N_of_ascii c).

Definition chr (n : Z) : ascii := ascii_of_N (Z.to_N (Z.land n 0xFF)).

Definition RuneError : Z := 0xFFFD.
Definition RuneSelf : Z := 0x80.
Definition MaxRune : Z := 0x10FFFF.

Definition surrogateMin : Z := 0xD800.
Definition surrogateMax : Z := 0xDFFF.

Definition t2 : Z := 0xC0.
Definition t3 : Z := 0xE0.
Definition t4 : Z := 0xF0.
Definition tx : Z := 0x80.

Definition maskx : Z := 0x3F.
Definition mask2 : Z := 0x1F.
Definition mask3 : Z := 0x0F.
Definition mask4 : Z := 0x07.

Definition rune1Max : Z := 0x7F.
Definition rune2Max : Z := 0x7FF.
Definition rune3Max : Z := 0xFFFF.

(** The default lowest and highest continuation byte. *)
Definition locb : Z := 0x80.
Definition hicb : Z := 0xBF.

(** The entries of [first]: the size of the encoding in the low bits,
    the index into [acceptRanges] in the high ones. *)
Definition xx : Z := 0xF1.
Definition as_ : Z := 0xF0.
Definition s1 : Z := 0x02.
Definition s2 : Z := 0x13.
Definition s3 : Z := 0x03.
Definition s4 : Z := 0x23.
Definition s5 : Z := 0x34.
Definition s6 : Z := 0x04.
Definition s7 : Z := 0x44.

(** [first[b]]: information about the first byte of an encoding. *)
Definition first (b : Z) : Z :=
  if b <? 0x80 then as_
  else if b <? 0xC2 then xx
  else if b <? 0xE0 then s1
  else if b =? 0xE0 then s2
  else if b <? 0xED then s3
  else if b =? 0xED then s4
  else if b <? 0xF0 then s3
  else if b =? 0xF0 then s5
  else if b <? 0xF4 then s6
  else if b =? 0xF4 then s7
  else xx.

(** [acceptRanges[i]]: the range of the second byte. *)
Definition acceptRanges (i : Z) : Z * Z :=
  if i =? 1 then (0xA0, hicb)
  else if i =? 2 then (locb, 0x9F)
  else if i =? 3 then (0x90, hicb)
  else if i =? 4 then (locb, 0x8F)
  else (locb, hicb).

(** [s[:n]] and [s[n:]] *)
Fixpoint bytes_to (n : nat) (s : string) : string :=
  match n, s with
  | S n', String c r => String c (bytes_to n' r)
  | _, _ => ""
  end.

Fixpoint bytes_from (n : nat) (s : string) : string :=
  match n, s with
  | S n', String _ r => bytes_from n' r
  | _, _ => s
  end.

(** [utf8.DecodeRuneInString(s)] and [utf8.DecodeRune(p)]: the first
    rune of [s] and its width in bytes; [(RuneError, 1)] when [s] does
    not start with an encoding.  A byte that the encoding needs and
    that [s] is too short to have is the test [n < sz]. *)
Definition DecodeRuneInString (s : string) : Z * nat :=
  match s with
  | "" => (RuneError, 0%nat)
  | String c0 r0 =>
      let s0 := code c0 in
      let x := first s0 in
      if as_ <=? x then
        ((if Z.odd x then RuneError else s0), 1%nat)
      else
        let sz := Z.land x 7 in
        let accept := acceptRanges (Z.shiftr x 4) in
        match r0 with
        | "" => (RuneError, 1%nat)
        | String c1 r1 =>
            let b1 := code c1 in
            if ((b1 <? fst accept) || (snd accept <? b1))%bool then (RuneError, 1%nat)
            else if sz <=? 2 then
              (Z.lor (Z.shiftl (Z.land s0 mask2) 6) (Z.land b1 maskx), 2%nat)
            else
              match r1 with
              | "" => (RuneError, 1%nat)
              | String c2 r2 =>
                  let b2 := code c2 in
                  if ((b2 <? locb) || (hicb <? b2))%bool then (RuneError, 1%nat)
                  else if sz <=? 3 then
                    (Z.lor (Z.lor (Z.shiftl (Z.land s0 mask3) 12)
                                  (Z.shiftl (Z.land b1 maskx) 6))
                           (Z.land b2 maskx), 3%nat)
                  else
                    match r2 with
                    | "" => (RuneError, 1%nat)
                    | String c3 _ =>
                        let b3 := code c3 in
                        if ((b3 <? locb) || (hicb <? b3))%bool then (RuneError, 1%nat)
                        else
                          (Z.lor (Z.lor (Z.lor (Z.shiftl (Z.land s0 mask4) 18)
                                               (Z.shiftl (Z.land b1 maskx) 12))
                                        (Z.shiftl (Z.land b2 maskx) 6))
                                 (Z.land b3 maskx), 4%nat)
                    end
              end
        end
  end.

(** The three bytes of a rune up to [rune3Max], the four of a larger
    one. *)
Definition encode3 (r : Z) : string :=
  String (chr (Z.lor t3 (Z.shiftr r 12)))
    (String (chr (Z.lor tx (Z.land (Z.shiftr r 6) maskx)))
       (String (chr (Z.lor tx (Z.land r maskx))) "")).

Definition encode4 (r : Z) : string :=
  String (chr (Z.lor t4 (Z.shiftr r 18)))
    (String (chr (Z.lor tx (Z.land (Z.shiftr r 12) maskx)))
       (String (chr (Z.lor tx (Z.land (Z.shiftr r 6) maskx)))
          (String (chr (Z.lor tx (Z.land r maskx))) ""))).

(** [utf8.EncodeRune(p, r)] and [utf8.AppendRune(p, r)]: the bytes
    written; [i] is [uint32(r)]. *)
Definition EncodeRune (r : Z) : string :=
  let i := r mod 2 ^ 32 in
  if i <=? rune1Max then String (chr r) ""
  else if i <=? rune2Max then
    String (chr (Z.lor t2 (Z.shiftr r 6)))
      (String (chr (Z.lor tx (Z.land r maskx))) "")
  else if ((MaxRune <? i) || ((surrogateMin <=? i) && (i <=? surrogateMax)))%bool
  then encode3 RuneError
  else if i <=? rune3Max then encode3 r
  else encode4 r.

(** The loop of [utf8.ValidString]: rune after rune, none of them an
    error of width 1; [fuel] bounds the iterations. *)
Fixpoint valid_loop (fuel : nat) (s : string) : bool :=
  match s with
  | "" => true
  | String _ _ =>
      match fuel with
      | O => false
      | S fuel' =>
          let '(r, size) := DecodeRuneInString s in
          if ((r =? RuneError) && (size =? 1)%nat)%bool then false
          else valid_loop fuel' (bytes_from size s)
      end
  end.

(** [utf8.ValidString(s)] *)
Definition ValidString (s : string) : bool := valid_loop (String.length s) s.

End Utf8.

(* ===================================================================== *)
(** ** package encoding/json

    The scanner and the decoder of the package read the same bytes one
    after the other; here one descent over the text yields the tree of
    the value, or the syntax error at the first byte that the scanner
    refuses.  The decoder for a struct of string fields then stores the
    members of the tree. *)

Module Json.

Import Utf8.

Definition quote : ascii := "034".
Definition backslash : ascii := "092".
Definition apostrophe : ascii := "039".

(** [hex]: the digits [0123456789abcdef] *)
Definition hex (n : Z) : ascii := chr (if n <? 10 then 48 + n else 87 + n).

(** *** encode.go *)

(** [htmlSafeSet[b]]: the ASCII bytes that need no escape, with [<],
    [>] and [&] escaped. *)
Definition htmlSafeSet (b : Z) : bool :=
  ((0x20 <=? b) && (b <? 0x80)
   && negb ((b =? 0x22) || (b =? 0x5C) || (b =? 0x3C) || (b =? 0x3E) || (b =? 0x26)))%bool.

(** The escape of an ASCII byte outside [htmlSafeSet]. *)
Definition escaped (c : ascii) : string :=
  let b := code c in
  if ((b =? 0x5C) || (b =? 0x22))%bool then String backslash (String c "")
  else if b =? 8 then String backslash "b"
  else if b =? 12 then String backslash "f"
  else if b =? 10 then String backslash "n"
  else if b =? 13 then String backslash "r"
  else if b =? 9 then String backslash "t"
  else
    String backslash
      ("u00" +:+ String (hex (Z.shiftr b 4)) (String (hex (Z.land b 0xF)) "")).

(** The loop of [appendString(dst, src, true)]: the bytes between the
    quotes.  A byte that is not the start of an encoding becomes the
    escape of U+FFFD; the line and paragraph separators are escaped. *)
Fixpoint appendString_loop (fuel : nat) (src : string) : string :=
  match src with
  | "" => ""
  | String c rest =>
      match fuel with
      | O => ""
      | S fuel' =>
          if code c <? RuneSelf then
            (if htmlSafeSet (code c) then String c "" else escaped c)
            +:+ appendString_loop fuel' rest
          else
            let '(r, size) := DecodeRuneInString src in
            if ((r =? RuneError) && (size =? 1)%nat)%bool then
              String backslash "ufffd"
              +:+ appendString_loop fuel' (bytes_from size src)
            else if ((r =? 0x2028) || (r =? 0x2029))%bool then
              String backslash "u202" +:+ String (hex (Z.land r 0xF)) ""
              +:+ appendString_loop fuel' (bytes_from size src)
            else
              bytes_to size src +:+ appendString_loop fuel' (bytes_from size src)
      end
  end.

(** [appendString(dst, src, true)]: a JSON string literal. *)
Definition appendString (src : string) : string :=
  String quote (appendString_loop (String.length src) src) +:+ String quote "".

(** [json.MarshalIndent(cfg, "", "  ")] for a [Config]: [Marshal]
    writes the fields in the order of their declaration, each under its
    tag; [Indent] puts every member on a line of its own, two blanks
    before it and one after the colon. *)
Definition MarshalIndent_Config (cfg : Config) : string * option error :=
  ("{" +:+ LF +:+
   "  " +:+ appendString "app_key" +:+ ": " +:+ appendString (AppKey cfg)
   +:+ "," +:+ LF +:+
   "  " +:+ appendString "app_secret" +:+ ": " +:+ appendString (AppSecret cfg)
   +:+ "," +:+ LF +:+
   "  " +:+ appendString "refresh_token" +:+ ": "
   +:+ appendString (RefreshToken cfg) +:+ LF +:+
   "}", None).

Definition render (v : jvalue) : string :=
  match v with
  | JString s => appendString s
  | JBool true => "true"
  | JBool false => "false"
  end.

(** [json.Marshal] of a map: the members in the order of their keys. *)
Definition Marshal_map (m : gmap string jvalue) : string :=
  "{" +:+
  Strings.Join
    (map (fun kv => appendString (fst kv) +:+ ":" +:+ render (snd kv))
         (foldr Ref.insert_member [] (map_to_list m))) ","
  +:+ "}".

(** *** scanner.go *)

(** [strconv.IsPrint(r)] for a rune below 256 *)
Definition IsPrint (r : Z) : bool :=
  ((0x20 <=? r) && (r <=? 0x7E)
   || (0xA1 <=? r) && (r <=? 0xFF) && negb (r =? 0xAD))%bool.

(** What [strconv.Quote] writes between the quotes for one rune below
    256. *)
Definition appendEscapedRune (r : Z) : string :=
  if ((r =? 0x22) || (r =? 0x5C))%bool then String backslash (String (chr r) "")
  else if IsPrint r then EncodeRune r
  else if r =? 7 then String backslash "a"
  else if r =? 8 then String backslash "b"
  else if r =? 12 then String backslash "f"
  else if r =? 10 then String backslash "n"
  else if r =? 13 then String backslash "r"
  else if r =? 9 then String backslash "t"
  else if r =? 11 then String backslash "v"
  else if ((r <? 0x20) || (r =? 0x7F))%bool then
    String backslash
      ("x" +:+ String (hex (Z.shiftr r 4)) (String (hex (Z.land r 0xF)) ""))
  else
    String backslash
      ("u00" +:+ String (hex (Z.shiftr r 4)) (String (hex (Z.land r 0xF)) "")).

(** [quoteChar(c)]: the byte as a character literal. *)
Definition quoteChar (c : ascii) : string :=
  if Ascii.eqb c apostrophe then
    String apostrophe (String backslash (String apostrophe (String apostrophe "")))
  else if Ascii.eqb c quote then
    String apostrophe (String quote (String apostrophe ""))
  else
    String apostrophe (appendEscapedRune (code c) +:+ String apostrophe "").

(** A [*SyntaxError]. *)
Definition SyntaxError (msg : string) : error := errNew msg.

(** [s.error(c, context)] *)
Definition invalid (c : ascii) (context : string) : error :=
  SyntaxError ("invalid character " +:+ quoteChar c +:+ " " +:+ context).

(** The error of [s.eof()] in a state that accepts a blank. *)
Definition unexpected_end : error := SyntaxError "unexpected end of JSON input".

(** [isSpace(c)] *)
Definition isSpace (c : ascii) : bool :=
  (Ascii.eqb c " " || Ascii.eqb c "009" || Ascii.eqb c "013" || Ascii.eqb c "010")%bool.

Fixpoint skip (s : string) : string :=
  match s with
  | "" => ""
  | String c r => if isSpace c then skip r else s
  end.

Definition is_digit (c : ascii) : bool :=
  ((48 <=? code c) && (code c <=? 57))%bool.

Definition is_hex (c : ascii) : bool :=
  (is_digit c || (97 <=? code c) && (code c <=? 102)
   || (65 <=? code c) && (code c <=? 70))%bool.

Definition simple_escape (c : ascii) : bool :=
  (Ascii.eqb c "b" || Ascii.eqb c "f" || Ascii.eqb c "n" || Ascii.eqb c "r"
   || Ascii.eqb c "t" || Ascii.eqb c backslash || Ascii.eqb c "/"
   || Ascii.eqb c quote)%bool.

(** The bytes read so far, put before what the rest of the scan
    yields. *)
Definition push {A : Type} (piece : string) (r : error + (string * A))
    : error + (string * A) :=
  match r with
  | inl e => inl e
  | inr (raw, rest) => inr (piece +:+ raw, rest)
  end.

Definition in_escape : string := "in string escape code".

Definition in_hex_escape : string :=
  "in " +:+ String backslash "u hexadecimal character escape".

(** The states [stateInString], [stateInStringEsc] and
    [stateInStringEscU] to [stateInStringEscU123]: from the byte after
    the opening quote, the bytes between the quotes and the text after
    the closing one.  At the end of the input the scanner is stepped
    with a blank. *)
Fixpoint string_literal (s : string) : error + (string * string) :=
  match s with
  | "" => inl unexpected_end
  | String c r =>
      if Ascii.eqb c quote then inr ("", r)
      else if Ascii.eqb c backslash then
        match r with
        | "" => inl (invalid " " in_escape)
        | String e r1 =>
            if simple_escape e then
              push (String c (String e "")) (string_literal r1)
            else if Ascii.eqb e "u" then
              match r1 with
              | "" => inl (invalid " " in_hex_escape)
              | String h1 r2 =>
                  if negb (is_hex h1) then inl (invalid h1 in_hex_escape)
                  else
                    match r2 with
                    | "" => inl (invalid " " in_hex_escape)
                    | String h2 r3 =>
                        if negb (is_hex h2) then inl (invalid h2 in_hex_escape)
                        else
                          match r3 with
                          | "" => inl (invalid " " in_hex_escape)
                          | String h3 r4 =>
                              if negb (is_hex h3) then inl (invalid h3 in_hex_escape)
                              else
                                match r4 with
                                | "" => inl (invalid " " in_hex_escape)
                                | String h4 r5 =>
                                    if negb (is_hex h4)
                                    then inl (invalid h4 in_hex_escape)
                                    else
                                      push (String c (String e (String h1 (String h2
                                              (String h3 (String h4 ""))))))
                                           (string_literal r5)
                                end
                          end
                    end
              end
            else inl (invalid e in_escape)
        end
      else if code c <? 0x20 then inl (invalid c "in string literal")
      else push (String c "") (string_literal r)
  end.

(** [state1] and [stateDot0], [stateE0]: the digits that follow. *)
Fixpoint digits (s : string) : string :=
  match s with
  | "" => ""
  | String c r => if is_digit c then digits r else s
  end.

Definition in_exponent : string := "in exponent of numeric literal".
Definition after_point : string := "after decimal point in numeric literal".

(** [stateE] and [stateESign]: after the [e] of a number. *)
Definition exponent (s : string) : error + string :=
  let s' :=
    match s with
    | String c r => if (Ascii.eqb c "+" || Ascii.eqb c "-")%bool then r else s
    | "" => s
    end in
  match s' with
  | "" => inl (invalid " " in_exponent)
  | String c r => if is_digit c then inr (digits r) else inl (invalid c in_exponent)
  end.

Definition is_e (c : ascii) : bool := (Ascii.eqb c "e" || Ascii.eqb c "E")%bool.

(** [state0], [stateDot] and [stateDot0]: after the integer part. *)
Definition fraction (s : string) : error + string :=
  match s with
  | "" => inr s
  | String c r =>
      if Ascii.eqb c "." then
        match r with
        | "" => inl (invalid " " after_point)
        | String d r1 =>
            if is_digit d then
              match digits r1 with
              | "" => inr ""
              | String e r2 =>
                  if is_e e then exponent r2 else inr (String e r2)
              end
            else inl (invalid d after_point)
        end
      else if is_e c then exponent r
      else inr s
  end.

(** A number that starts with [c]: the text after it. *)
Definition number (c : ascii) (r : string) : error + string :=
  if Ascii.eqb c "-" then
    match r with
    | "" => inl (invalid " " "in numeric literal")
    | String d r1 =>
        if Ascii.eqb d "0" then fraction r1
        else if is_digit d then fraction (digits r1)
        else inl (invalid d "in numeric literal")
    end
  else if Ascii.eqb c "0" then fraction r
  else fraction (digits r).

(** The states of a literal name after its first letter. *)
Fixpoint expect (pending name s : string) : error + string :=
  match pending with
  | "" => inr s
  | String p pending' =>
      let context :=
        "in literal " +:+ name +:+ " (expecting "
        +:+ String apostrophe (String p (String apostrophe ")")) in
      match s with
      | "" => inl (invalid " " context)
      | String c r =>
          if Ascii.eqb c p then expect pending' name r
          else inl (invalid c context)
      end
  end.

(** The tree of a value, as far as the decoder of a struct looks at it:
    a string holds the bytes between its quotes, an array is kept
    without its elements. *)
Inductive node : Type :=
| Object (ms : member_list)
| Array
| Str (raw : string)
| Num
| Bool
| Null
with member_list : Type :=
| no_member
| member (key : string) (v : node) (rest : member_list).

(** [maxNestingDepth] *)
Definition maxNestingDepth : Z := 10000.

(** [s.pushParseState]: the error of one level too many. *)
Definition exceeded (c : ascii) (depth : Z) : option error :=
  if maxNestingDepth <? depth + 1 then Some (invalid c "exceeded max depth")
  else None.

(** [stateBeginValue] and the states it leads to.  [value] reads one
    value, [members] the members of an object from a key on, [elements]
    the elements of an array; [depth] is the length of [parseState],
    [fuel] bounds the calls. *)
Fixpoint value (fuel : nat) (depth : Z) (s : string) {struct fuel}
    : error + (node * string) :=
  match fuel with
  | O => inl unexpected_end
  | S fuel' =>
      match skip s with
      | "" => inl unexpected_end
      | String c r =>
          if Ascii.eqb c "{" then
            match exceeded c depth with
            | Some e => inl e
            | None =>
                match skip r with
                | "" => inl unexpected_end
                | String c' r' =>
                    if Ascii.eqb c' "}" then inr (Object no_member, r')
                    else
                      match members fuel' (depth + 1) r with
                      | inl e => inl e
                      | inr (ms, rest) => inr (Object ms, rest)
                      end
                end
            end
          else if Ascii.eqb c "[" then
            match exceeded c depth with
            | Some e => inl e
            | None =>
                match skip r with
                | "" => inl unexpected_end
                | String c' r' =>
                    if Ascii.eqb c' "]" then inr (Array, r')
                    else
                      match elements fuel' (depth + 1) r with
                      | inl e => inl e
                      | inr rest => inr (Array, rest)
                      end
                end
            end
          else if Ascii.eqb c quote then
            match string_literal r with
            | inl e => inl e
            | inr (raw, rest) => inr (Str raw, rest)
            end
          else if Ascii.eqb c "t" then
            match expect "rue" "true" r with
            | inl e => inl e
            | inr rest => inr (Bool, rest)
            end
          else if Ascii.eqb c "f" then
            match expect "alse" "false" r with
            | inl e => inl e
            | inr rest => inr (Bool, rest)
            end
          else if Ascii.eqb c "n" then
            match expect "ull" "null" r with
            | inl e => inl e
            | inr rest => inr (Null, rest)
            end
          else if (Ascii.eqb c "-" || is_digit c)%bool then
            match number c r with
            | inl e => inl e
            | inr rest => inr (Num, rest)
            end
          else inl (invalid c "looking for beginning of value")
      end
  end
with members (fuel : nat) (depth : Z) (s : string) {struct fuel}
    : error + (member_list * string) :=
  match fuel with
  | O => inl unexpected_end
  | S fuel' =>
      match skip s with
      | "" => inl unexpected_end
      | String c r =>
          if Ascii.eqb c quote then
            match string_literal r with
            | inl e => inl e
            | inr (key, r1) =>
                match skip r1 with
                | "" => inl unexpected_end
                | String c1 r2 =>
                    if Ascii.eqb c1 ":" then
                      match value fuel' depth r2 with
                      | inl e => inl e
                      | inr (v, r3) =>
                          match skip r3 with
                          | "" => inl unexpected_end
                          | String c3 r4 =>
                              if Ascii.eqb c3 "," then
                                match members fuel' depth r4 with
                                | inl e => inl e
                                | inr (ms, rest) => inr (member key v ms, rest)
                                end
                              else if Ascii.eqb c3 "}" then
                                inr (member key v no_member, r4)
                              else inl (invalid c3 "after object key:value pair")
                          end
                      end
                    else inl (invalid c1 "after object key")
                end
            end
          else inl (invalid c "looking for beginning of object key string")
      end
  end
with elements (fuel : nat) (depth : Z) (s : string) {struct fuel}
    : error + string :=
  match fuel with
  | O => inl unexpected_end
  | S fuel' =>
      match value fuel' depth s with
      | inl e => inl e
      | inr (v, r1) =>
          match skip r1 with
          | "" => inl unexpected_end
          | String c r2 =>
              if Ascii.eqb c "," then elements fuel' depth r2
              else if Ascii.eqb c "]" then inr r2
              else inl (invalid c "after array element")
          end
      end
  end.

(** The tree of a text that holds one value and blanks. *)
Definition parse (data : string) : error + node :=
  match value (3 * String.length data + 3) 0 data with
  | inl e => inl e
  | inr (v, rest) =>
      match skip rest with
      | "" => inr v
      | String c _ => inl (invalid c "after top-level value")
      end
  end.

(** [checkValid(data, scan)] *)
Definition checkValid (data : string) : option error :=
  match parse data with
  | inl e => Some e
  | inr _ => None
  end.

(** *** decode.go *)

Definition hexval (c : ascii) : Z :=
  if is_digit c then code c - 48
  else if ((97 <=? code c) && (code c <=? 102))%bool then code c - 97 + 10
  else if ((65 <=? code c) && (code c <=? 70))%bool then code c - 65 + 10
  else -1.

(** [getu4(s)]: the number of a [\uXXXX] at the start of [s], or -1. *)
Definition getu4 (s : string) : Z :=
  match s with
  | String b (String u (String h1 (String h2 (String h3 (String h4 _))))) =>
      if (Ascii.eqb b backslash && Ascii.eqb u "u"
          && is_hex h1 && is_hex h2 && is_hex h3 && is_hex h4)%bool
      then ((hexval h1 * 16 + hexval h2) * 16 + hexval h3) * 16 + hexval h4
      else -1
  | _ => -1
  end.

(** [utf16.IsSurrogate(r)] and [utf16.DecodeRune(r1, r2)] *)
Definition IsSurrogate (r : Z) : bool := ((0xD800 <=? r) && (r <? 0xE000))%bool.

Definition utf16_DecodeRune (r1 r2 : Z) : Z :=
  if ((0xD800 <=? r1) && (r1 <? 0xDC00) && (0xDC00 <=? r2) && (r2 <? 0xE000))%bool
  then Z.lor (Z.shiftl (r1 - 0xD800) 10) (r2 - 0xDC00) + 0x10000
  else 0xFFFD.

Definition put (piece : string) (r : option string) : option string :=
  match r with
  | Some t => Some (piece +:+ t)
  | None => None
  end.

(** The loop of [unquoteBytes] on the bytes between the quotes: [None]
    is its [ok = false], on bytes that the scanner refuses.  Bytes that
    are not UTF-8 are coerced. *)
Fixpoint unquote_loop (fuel : nat) (s : string) : option string :=
  match s with
  | "" => Some ""
  | String c r =>
      match fuel with
      | O => None
      | S fuel' =>
          if Ascii.eqb c backslash then
            match r with
            | "" => None
            | String e r1 =>
                if (Ascii.eqb e quote || Ascii.eqb e backslash || Ascii.eqb e "/"
                    || Ascii.eqb e apostrophe)%bool
                then put (String e "") (unquote_loop fuel' r1)
                else if Ascii.eqb e "b" then put (byte 8) (unquote_loop fuel' r1)
                else if Ascii.eqb e "f" then put (byte 12) (unquote_loop fuel' r1)
                else if Ascii.eqb e "n" then put (byte 10) (unquote_loop fuel' r1)
                else if Ascii.eqb e "r" then put (byte 13) (unquote_loop fuel' r1)
                else if Ascii.eqb e "t" then put (byte 9) (unquote_loop fuel' r1)
                else if Ascii.eqb e "u" then
                  let rr := getu4 s in
                  if rr <? 0 then None
                  else
                    let after := bytes_from 6 s in
                    if IsSurrogate rr then
                      let dec := utf16_DecodeRune rr (getu4 after) in
                      if negb (dec =? 0xFFFD) then
                        put (EncodeRune dec) (unquote_loop fuel' (bytes_from 6 after))
                      else put (EncodeRune 0xFFFD) (unquote_loop fuel' after)
                    else put (EncodeRune rr) (unquote_loop fuel' after)
                else None
            end
          else if (Ascii.eqb c quote || (code c <? 0x20))%bool then None
          else if code c <? RuneSelf then put (String c "") (unquote_loop fuel' r)
          else
            let '(rr, size) := DecodeRuneInString s in
            put (EncodeRune rr) (unquote_loop fuel' (bytes_from size s))
      end
  end.

Definition unquote (raw : string) : option string :=
  unquote_loop (String.length raw) raw.

(** [caseMask]: the bit that tells an upper-case letter from a
    lower-case one, cleared. *)
Definition caseMask : Z := 0xDF.

(** Whether the key [t] is the field name [s] under simple case
    folding: letters match in either case, the Kelvin sign is a [k] and
    the long s an [s]. *)
Fixpoint equalFold (s t : string) : bool :=
  match s with
  | "" => String.eqb t ""
  | String sb s' =>
      match t with
      | "" => false
      | String tb t' =>
          if code tb <? RuneSelf then
            if Ascii.eqb sb tb then equalFold s' t'
            else
              let sbUpper := Z.land (code sb) caseMask in
              if ((65 <=? sbUpper) && (sbUpper <=? 90)
                  && (sbUpper =? Z.land (code tb) caseMask))%bool
              then equalFold s' t'
              else false
          else
            let '(tr, size) := DecodeRuneInString t in
            if (((Ascii.eqb sb "s" || Ascii.eqb sb "S") && (tr =? 0x17F))
                || ((Ascii.eqb sb "k" || Ascii.eqb sb "K") && (tr =? 0x212A)))%bool
            then equalFold s' (bytes_from size t)
            else false
      end
  end.

(** A struct whose fields are strings: its type as [reflect] prints it,
    its name, the tags of its fields, and the assignment to the field
    of a tag. *)
Record structType (T : Type) : Type := mkStructType {
  type_string : string;
  struct_name : string;
  fields : list string;
  store : T -> string -> string -> T
}.

Arguments type_string {T} _.
Arguments struct_name {T} _.
Arguments fields {T} _.
Arguments store {T} _ _ _ _.

(** The field for a key: the one of that name, or else the first whose
    name is the key up to case. *)
Definition find_field (names : list string) (key : string) : option string :=
  match find (String.eqb key) names with
  | Some f => Some f
  | None => find (fun f => equalFold f key) names
  end.

(** The text of an [UnmarshalTypeError]. *)
Definition UnmarshalTypeError (value struct field type : string) : error :=
  if (negb (String.eqb struct "") || negb (String.eqb field ""))%bool then
    errNew ("json: cannot unmarshal " +:+ value +:+ " into Go struct field "
            +:+ struct +:+ "." +:+ field +:+ " of type " +:+ type)
  else
    errNew ("json: cannot unmarshal " +:+ value +:+ " into Go value of type "
            +:+ type).

Definition kind (x : node) : string :=
  match x with
  | Object _ => "object"
  | Array => "array"
  | Str _ => "string"
  | Num => "number"
  | Bool => "bool"
  | Null => "null"
  end.

(** [d.saveError(err)]: the first error is kept. *)
Definition saveError (saved : option error) (err : error) : option error :=
  match saved with
  | Some e => Some e
  | None => Some err
  end.

(** The decoder's panic when a literal does not unquote; the scanner
    has accepted the literals that the decoder reads. *)
Definition phasePanicMsg : string :=
  "JSON decoder out of sync - data changing underfoot?".

(** [d.object(v)] for a struct of strings: the members in turn.  A
    member whose key names no field is skipped, a string is stored in
    its field, [null] leaves the field as it is, and any other value is
    a type error that is saved while decoding goes on. *)
Fixpoint object {T : Type} (ty : structType T) (ms : member_list) (v : T)
    (saved : option error) : T * option error :=
  match ms with
  | no_member => (v, saved)
  | member rawkey x rest =>
      match unquote rawkey with
      | None => (v, Some (errNew phasePanicMsg))
      | Some key =>
          match find_field (fields ty) key with
          | None => object ty rest v saved
          | Some f =>
              match x with
              | Str raw =>
                  match unquote raw with
                  | Some text => object ty rest (store ty v f text) saved
                  | None => (v, Some (errNew phasePanicMsg))
                  end
              | Null => object ty rest v saved
              | _ =>
                  object ty rest v
                    (saveError saved
                       (UnmarshalTypeError (kind x) (struct_name ty) f "string"))
              end
          end
      end
  end.

(** [d.value(v)] for a pointer to a struct of strings. *)
Definition decode_value {T : Type} (ty : structType T) (x : node) (v : T)
    : T * option error :=
  match x with
  | Object ms => object ty ms v None
  | Null => (v, None)
  | _ => (v, Some (UnmarshalTypeError (kind x) "" "" (type_string ty)))
  end.

(** [d.unmarshal(v)] after [checkValid]. *)
Definition unmarshal {T : Type} (ty : structType T) (data : string) (v : T)
    : T * option error :=
  match parse data with
  | inl e => (v, Some e)
  | inr x => decode_value ty x v
  end.

Definition Config_type : structType Config :=
  mkStructType Config "main.Config" "Config"
    ["app_key"; "app_secret"; "refresh_token"] Ref.store_Config.

Definition tokenResponse_type : structType tokenResponse :=
  mkStructType tokenResponse "main.tokenResponse" "tokenResponse"
    ["access_token"; "refresh_token"; "token_type"] Ref.store_tokenResponse.

Definition apiError_type : structType apiError :=
  mkStructType apiError
    ("struct { ErrorSummary string " +:+ String quote "json:"
     +:+ String backslash (String quote "error_summary")
     +:+ String backslash (String quote (String quote " }")))
    "" ["error_summary"] Ref.store_apiError.

(** A runtime with this [encoding/json] in the place of its own. *)
Definition runtime_over (base : Runtime) : Runtime :=
  Build_Runtime checkValid
    (unmarshal Config_type) (unmarshal tokenResponse_type) (unmarshal apiError_type)
    Marshal_map MarshalIndent_Config
    (@NewRequest_err base) (@filepath_Dir base) (@filepath_Join base)
    (@flag_Parse base).

(** The reference runtime with this [encoding/json]. *)
Definition runtime : Runtime := runtime_over Ref.runtime.

End Json.

(* ===================================================================== *)
(** ** Scenarios *)

Module Scenario.

Definition download_url : string := "https://content.dropboxapi.com/2/files/download".
Definition upload_url : string := "https://content.dropboxapi.com/2/files/upload".

(** The body with which the service reports a missing path. *)
Definition not_found_body : string :=
  "{" +:+ Ref.literal "error_summary" +:+ ": " +:+ Ref.literal "path/not_found/" +:+ "}".

(** The document that the uploads of [history] leave, after [initial]. *)
Fixpoint stored (initial : option string) (history : list Request) : option string :=
  match history with
  | [] => initial
  | req :: rest =>
      stored (if String.eqb (URL req) upload_url then Some (ReqBody req) else initial)
             rest
  end.

(** A storage service that holds one document. *)
Definition storage (initial : option string) (history : list Request) (req : Request)
    : error + Response :=
  if String.eqb (URL req) download_url then
    match stored initial history with
    | Some content => inr (mkResponse 200 (content, None))
    | None => inr (mkResponse 409 (not_found_body, None))
    end
  else if String.eqb (URL req) upload_url then inr (mkResponse 200 ("{}", None))
  else inr (mkResponse 404 ("", None)).

(** A service that answers every request with one response. *)
Definition always (status : Z) (body : string) (history : list Request) (req : Request)
    : error + Response :=
  inr (mkResponse status (body, None)).

(** Mode bits of standard input: a terminal, a pipe, a directory. *)
Definition terminal : Z := Z.shiftl 1 26 + Z.shiftl 1 21 + 400.
Definition pipe : Z := Z.shiftl 1 25 + 384.
Definition directory : Z := Z.shiftl 1 31 + 493.

Definition world (args : list string) (env : gmap string string) (now : Time.Time)
    (stat : option Z) (stdin : string * option error)
    (service : list Request -> Request -> error + Response) : World :=
  mkWorld args env now "/home/user" stat stdin "" service
    (fun path => errNew ("open " +:+ path +:+ ": no such file or directory"))
    (fun _ => None) (fun _ => None).

Definition start : State := mkState ∅ [] "" "".

(** The first note of a day: no document yet. *)
Definition first_note : World :=
  world ["dropbox-appender"; "first"; "note"; "of"; "the"; "day"]
    {[ "DROPBOX_TOKEN" := "token" ]}
    (Time.Date 2025 1 15 9 0 0) (Some terminal) ("", None) (storage None).

(** A second note on the same day, without timestamp. *)
Definition second_note : World :=
  world ["dropbox-appender"; "-no-timestamp"; "second"; "note"]
    {[ "DROPBOX_TOKEN" := "token" ]}
    (Time.Date 2025 1 15 9 30 0) (Some terminal) ("", None) (storage None).

(** A later note, piped in, on a document that has one entry. *)
Definition morning : string := "### 10:00:00" +:+ LF +:+ "morning note" +:+ LF.

(** Nothing to read but a directory on standard input. *)
Definition unreadable : World :=
  world ["dropbox-appender"] ∅ (Time.Date 2025 1 15 9 0 0) (Some directory)
    ("", Some (errNew "read /dev/stdin: is a directory")) (storage None).

(** An app key in the environment. *)
Definition overridden : World :=
  world ["dropbox-appender"; "note"] {[ "DROPBOX_APP_KEY" := "env_key" ]}
    (Time.Date 2025 1 15 9 0 0) (Some terminal) ("", None) (storage None).

(** No credentials in the environment. *)
Definition bare : World :=
  world ["dropbox-appender"; "note"] ∅
    (Time.Date 2025 1 15 9 0 0) (Some terminal) ("", None) (storage None).

Definition config_path : string := "/home/user/.config/dropbox-appender/config.json".

(** A config file with the three fields. *)
Definition config_text : string :=
  "{" +:+ Ref.literal "app_key" +:+ ":" +:+ Ref.literal "file_key" +:+ ","
  +:+ Ref.literal "app_secret" +:+ ":" +:+ Ref.literal "file_secret" +:+ ","
  +:+ Ref.literal "refresh_token" +:+ ":" +:+ Ref.literal "file_refresh" +:+ "}".

Definition with_file (text : string) : State :=
  mkState {[ config_path := text ]} [] "" "".

(** A direct token next to refresh credentials. *)
Definition direct : World :=
  world ["dropbox-appender"; "note"] {[ "DROPBOX_TOKEN" := "direct_token" ]}
    (Time.Date 2025 1 15 9 0 0) (Some terminal) ("", None) (storage None).

(** A token endpoint that grants an access token. *)
Definition granting : World :=
  world ["dropbox-appender"; "note"] ∅
    (Time.Date 2025 1 15 9 0 0) (Some terminal) ("", None)
    (always 200 ("{" +:+ Ref.literal "access_token" +:+ ":"
                 +:+ Ref.literal "fresh_access" +:+ "}")).

(** A direct token and a service that fails. *)
Definition broken : World :=
  world ["dropbox-appender"; "note"] {[ "DROPBOX_TOKEN" := "token" ]}
    (Time.Date 2025 1 15 9 0 0) (Some terminal) ("", None)
    (always 500 "internal").

(** Refresh credentials and a service that fails. *)
Definition failing : World :=
  world ["dropbox-appender"; "note"] ∅
    (Time.Date 2025 1 15 9 0 0) (Some terminal) ("", None)
    (always 500 "internal").

Definition client : DropboxClient := mkClient "test-token" "".

Definition later_note : World :=
  world ["dropbox-appender"]
    {[ "DROPBOX_TOKEN" := "token" ]}
    (Time.Date 2025 1 15 14 30 45) (Some pipe)
    ("  afternoon note" +:+ LF, None) (storage (Some morning)).

(** The body of a token response. *)
Definition token_body : string :=
  "{" +:+ Ref.literal "access_token" +:+ ":" +:+ Ref.literal "fresh_access" +:+ ","
  +:+ Ref.literal "refresh_token" +:+ ":" +:+ Ref.literal "new_refresh" +:+ ","
  +:+ Ref.literal "token_type" +:+ ":" +:+ Ref.literal "bearer" +:+ "}".

(** The auth subcommand: app credentials in the environment, a code
    typed with blanks around it, a token endpoint that grants. *)
Definition authorizing : World :=
  mkWorld ["dropbox-appender"; "auth"]
    {[ "DROPBOX_APP_KEY" := "key 1"; "DROPBOX_APP_SECRET" := "s&cret" ]}
    (Time.Date 2025 1 15 9 0 0) "/home/user" (Some terminal) ("", None)
    ("  code123 " +:+ LF) (always 200 token_body)
    (fun path => errNew ("open " +:+ path +:+ ": no such file or directory"))
    (fun _ => None) (fun _ => None).

(** The three refresh credentials in the environment, an old config on
    disk. *)
Definition environment_only : World :=
  world ["dropbox-appender"; "note"]
    {[ "DROPBOX_APP_KEY" := "env_key"; "DROPBOX_APP_SECRET" := "env_secret";
       "DROPBOX_REFRESH_TOKEN" := "env_refresh" ]}
    (Time.Date 2025 1 15 9 0 0) (Some terminal) ("", None) (always 200 token_body).

(** A config file that is well-formed JSON, with a number where the
    app key should be. *)
Definition mistyped_text : string :=
  "{" +:+ Ref.literal "app_key" +:+ ": 5, "
  +:+ Ref.literal "app_secret" +:+ ": " +:+ Ref.literal "file_secret" +:+ "}".

(** Credentials with the characters that [encoding/json] escapes, an
    accented letter and a line separator. *)
Definition escaped_config : Config :=
  mkConfig ("k<1>&2" +:+ String Ref.quote (String Ref.backslash ""))
           ("s" +:+ byte 195 +:+ byte 169 +:+ LF)
           (byte 226 +:+ byte 128 +:+ byte 168 +:+ "r").

(** An app key with a byte that is not UTF-8. *)
Definition broken_config : Config := mkConfig ("k" +:+ byte 255) "s" "r".

End Scenario.


(* ===================================================================== *)
(** ** Notions that the statements use *)

(** [s] ends with [suffix]. *)
Definition ends_with (s suffix : string) : Prop :=
  exists front, s = front +:+ suffix.

Definition is_digit (c : ascii) : bool :=
  ((48 <=? nat_of_ascii c)%nat && (nat_of_ascii c <=? 57)%nat)%bool.

Fixpoint all_digits (s : string) : bool :=
  match s with
  | "" => true
  | String c r => (is_digit c && all_digits r)%bool
  end.

(** The number that a string of decimal digits denotes, after [acc]. *)
Fixpoint decimal_from (acc : Z) (s : string) : Z :=
  match s with
  | "" => acc
  | String c r => decimal_from (10 * acc + (Z.of_nat (nat_of_ascii c) - 48)) r
  end.

(** [s] is the decimal numeral of [n] in exactly [width] digits. *)
Definition numeral (width : nat) (s : string) (n : Z) : Prop :=
  String.length s = width /\ all_digits s = true /\ decimal_from 0 s = n.

(** The template of a journal path. *)
Definition journal_path (yyyy mm dd : string) : string :=
  "/Notes/Journal/" +:+ yyyy +:+ "/" +:+ mm +:+ "/Note"
  +:+ yyyy +:+ mm +:+ dd +:+ ".md".

(** The header line of a timestamped entry. *)
Definition entry_header (hh mm ss : string) : string :=
  "### " +:+ hh +:+ ":" +:+ mm +:+ ":" +:+ ss.

(** [s] is a sequence of runes of [runes]. *)
Inductive run_of (runes : list string) : string -> Prop :=
| run_nil : run_of runes ""
| run_cons (r s : string) : In r runes -> run_of runes s -> run_of runes (r +:+ s).

(** [m] is [s] without the white space around it: what is cut off at
    either end is a sequence of space runes, and [m] neither starts nor
    ends with one. *)
Definition trimmed (s m : string) : Prop :=
  exists l r : string,
    s = l +:+ m +:+ r /\
    run_of Strings.space_runes l /\
    run_of Strings.space_runes r /\
    (forall x rest, In x Strings.space_runes -> m <> x +:+ rest) /\
    (forall x rest, In x Strings.space_runes -> m <> rest +:+ x).

(** Two digits, as the fast path of [appendInt] writes them. *)
Definition two_digits (u : Z) : string :=
  String (Time.utod (u / 10)) (String (Time.utod (u mod 10)) "").

Definition four_digits (u : Z) : string :=
  String (Time.utod (u / 1000)) (String (Time.utod (u / 100 mod 10))
    (String (Time.utod (u / 10 mod 10)) (String (Time.utod (u mod 10)) ""))).

(** Logging a request. *)
Definition log_request (st : State) (req : Request) : State :=
  mkState (files st) (sent st ++ [req]) (stdout st) (stderr st).

Section Decoded.

Context {R : Runtime}.

(** The [error_summary] that [Download] reads off the body of a 409. *)
Definition parsed_summary (body : string) : string :=
  ErrorSummary (fst (json_Unmarshal decode_apiError body (mkApiError ""))).

(** The config that [loadConfig] has after reading the file. *)
Definition file_config (st : State) (path : string) : Config :=
  match files st !! path with
  | Some data => fst (json_Unmarshal decode_Config data zeroConfig)
  | None => zeroConfig
  end.

End Decoded.

(** The state after the requests [new] were sent, and after text went
    to the two streams. *)
Definition sends (st : State) (new : list Request) : State :=
  mkState (files st) (sent st ++ new) (stdout st) (stderr st).

Definition prints (st : State) (out err : string) : State :=
  mkState (files st) (sent st) (stdout st +:+ out) (stderr st +:+ err).

(** Every byte of [s] satisfies [p]. *)
Fixpoint all_bytes (p : ascii -> bool) (s : string) : bool :=
  match s with
  | "" => true
  | String c r => (p c && all_bytes p r)%bool
  end.

(** The bytes of an escaped query component: letters, digits, [-_.~],
    and the [+] and [%] that escaping writes. *)
Definition query_safe (c : ascii) : bool :=
  (negb (Url.shouldEscape c) || Ascii.eqb c "+" || Ascii.eqb c "%")%bool.

(** The form that [refreshAccessToken] posts, and the one of
    [exchangeCode]. *)
Definition refresh_form (appKey appSecret refreshToken : string) : string :=
  "client_id=" +:+ Url.QueryEscape appKey
  +:+ "&client_secret=" +:+ Url.QueryEscape appSecret
  +:+ "&grant_type=refresh_token&refresh_token=" +:+ Url.QueryEscape refreshToken.

Definition exchange_form (appKey appSecret code : string) : string :=
  "client_id=" +:+ Url.QueryEscape appKey
  +:+ "&client_secret=" +:+ Url.QueryEscape appSecret
  +:+ "&code=" +:+ Url.QueryEscape code
  +:+ "&grant_type=authorization_code".

(** The request that [http.PostForm(url, _)] sends with the encoded
    form [body]. *)
Definition form_post (url body : string) : Request :=
  mkRequest "POST" url {[ "Content-Type" := "application/x-www-form-urlencoded" ]} body.

(** From [st] to [st'] the requests [new] were sent, and nothing else
    changed. *)
Definition sent_only (st st' : State) (new : list Request) : Prop :=
  files st' = files st /\ stdout st' = stdout st /\ stderr st' = stderr st /\
  sent st' = sent st ++ new.

(** The upload endpoint of the client that [main] builds. *)
Definition upload_endpoint : string := defaultBaseURL +:+ "/2/files/upload".

Section Loaded.

Context {R : Runtime} (w : World).

(** What the auth flow works with: the config as loaded, and the code
    as entered. *)
Definition auth_config (st : State) (configPath : string) : Config :=
  env_overrides w (file_config st configPath).

Definition auth_code : string := Strings.TrimSpace (Stdin_ScanLine w).

End Loaded.

(** Every byte of [p] is outside ASCII. *)
Fixpoint high (p : string) : Prop :=
  match p with
  | "" => True
  | String c r => Utf8.RuneSelf <= Utf8.code c /\ high r
  end.

(** A piece of a string literal that the scanner steps over. *)
Definition scans (piece : string) : Prop :=
  forall Y,
    Json.string_literal (piece +:+ Y) = Json.push piece (Json.string_literal Y).

(** A piece of a string literal that unquotes to the bytes [p]. *)
Definition reads (piece p : string) : Prop :=
  forall fuel Y,
    Json.unquote_loop (S fuel) (piece +:+ Y) = Json.put p (Json.unquote_loop fuel Y).

(** The end of a branch of [main]: the streams written, the outcome
    returned. *)
Ltac finish_run H :=
  cbv [mbind M_bind print_stderr print_stdout mret M_ret panic] in H;
  injection H as <- <-; cbn [files sent stdout stderr].

(** A branch that returns a value and, with an error, no content. *)
Ltac returned :=
  eexists _, _; split;
  [reflexivity | intros ?; first [reflexivity | congruence]].

(** Linear arithmetic with quotients and remainders by constants. *)
Ltac divlia := Z.to_euclidean_division_equations; lia.

(* ===================================================================== *)
(** ** Strings *)

Lemma append_nil_l (s : string) : "" +:+ s = s.
Proof. reflexivity. Qed.

Lemma append_cons (c : ascii) (s t : string) :
  String c s +:+ t = String c (s +:+ t).
Proof. reflexivity. Qed.

Lemma append_nil_r (s : string) : s +:+ "" = s.
Proof.
  induction s as [|c s IH]; [reflexivity |].
  now rewrite append_cons, IH.
Qed.

Lemma append_assoc (a b c : string) : (a +:+ b) +:+ c = a +:+ (b +:+ c).
Proof.
  induction a as [|x a IH]; [reflexivity |].
  now rewrite !append_cons, IH.
Qed.

Lemma length_append (a b : string) :
  String.length (a +:+ b) = (String.length a + String.length b)%nat.
Proof.
  induction a as [|x a IH]; [reflexivity |].
  rewrite append_cons. simpl. now rewrite IH.
Qed.

(** Concatenations are compared in right-nested form. *)
Create Rewrite HintDb str.
#[local] Hint Rewrite append_nil_l append_cons append_nil_r append_assoc : str.

Lemma ends_with_refl (s : string) : ends_with s s.
Proof. now exists "". Qed.

Lemma ends_with_append (a s suffix : string) :
  ends_with s suffix -> ends_with (a +:+ s) suffix.
Proof.
  intros [front ->]. exists (a +:+ front). now rewrite append_assoc.
Qed.

Lemma ends_with_trans (a b c : string) :
  ends_with a b -> ends_with b c -> ends_with a c.
Proof. intros [front ->] H. now apply ends_with_append. Qed.

(* ===================================================================== *)
(** ** Trimming *)

Lemma cut_prefix_iff (p s rest : string) :
  Strings.cut_prefix p s = Some rest <-> s = p +:+ rest.
Proof.
  revert s. induction p as [|a p IH]; intros s.
  - simpl. rewrite append_nil_l. split; congruence.
  - destruct s as [|b s]; simpl; rewrite append_cons; [split; discriminate |].
    destruct (Ascii.eqb_spec a b) as [-> | Hab].
    + rewrite IH. split; congruence.
    + split; [discriminate | congruence].
Qed.

Lemma cut_rune_Some (runes : list string) (s rest : string) :
  Strings.cut_rune runes s = Some rest -> exists r, In r runes /\ s = r +:+ rest.
Proof.
  induction runes as [|r runes IH]; simpl; [discriminate |].
  destruct (Strings.cut_prefix r s) as [rest' |] eqn:Hcut.
  - intros [= ->]. exists r. split; [now left | now apply cut_prefix_iff].
  - intros H. destruct (IH H) as (r' & Hin & Hs). exists r'. split; [now right | exact Hs].
Qed.

Lemma cut_rune_None (runes : list string) (s : string) :
  Strings.cut_rune runes s = None <-> forall r rest, In r runes -> s <> r +:+ rest.
Proof.
  induction runes as [|r runes IH]; simpl.
  - split; [intros _ r rest [] | reflexivity].
  - destruct (Strings.cut_prefix r s) as [rest' |] eqn:Hcut.
    + split; [discriminate |]. intros H. apply cut_prefix_iff in Hcut.
      exfalso. apply (H r rest'); [now left | exact Hcut].
    + rewrite IH. split.
      * intros H r' rest [<- | Hin]; [| now apply H].
        intros Hs. apply cut_prefix_iff in Hs. congruence.
      * intros H r' rest Hin. apply H. now right.
Qed.

Lemma run_of_app (runes : list string) (a b : string) :
  run_of runes a -> run_of runes b -> run_of runes (a +:+ b).
Proof.
  induction 1 as [| r s Hin _ IH]; intros Hb; [exact Hb |].
  rewrite append_assoc. constructor; [exact Hin | now apply IH].
Qed.

(** The loop removes leading runes and nothing else. *)
Lemma trim_loop_split (runes : list string) (n : nat) (s : string) :
  exists l, s = l +:+ Strings.trim_loop runes n s /\ run_of runes l.
Proof.
  revert s. induction n as [|n IH]; intros s; simpl.
  - exists "". split; [reflexivity | constructor].
  - destruct (Strings.cut_rune runes s) as [rest |] eqn:Hcut.
    + apply cut_rune_Some in Hcut as (r & Hin & ->).
      destruct (IH rest) as (l & Hrest & Hl).
      exists (r +:+ l). split; [| now constructor].
      rewrite append_assoc. now rewrite <- Hrest.
    + exists "". split; [reflexivity | constructor].
Qed.

(** With enough iterations, no rune is left in front. *)
Lemma trim_loop_done (runes : list string) (n : nat) (s : string) :
  (forall r, In r runes -> r <> "") ->
  (String.length s <= n)%nat ->
  Strings.cut_rune runes (Strings.trim_loop runes n s) = None.
Proof.
  intros Hne. revert s. induction n as [|n IH]; intros s Hlen; simpl.
  - destruct s; [| simpl in Hlen; lia].
    apply cut_rune_None. intros r rest Hin Hs.
    destruct r; [now apply (Hne "") | discriminate].
  - destruct (Strings.cut_rune runes s) as [rest |] eqn:Hcut; [| exact Hcut].
    apply IH. apply cut_rune_Some in Hcut as (r & Hin & ->).
    rewrite length_append in Hlen.
    destruct r; [now contradiction (Hne "" Hin) |]. simpl in Hlen. lia.
Qed.

(** Reversal. *)
Lemma rev_app_eq (s acc : string) : String.rev_app s acc = String.rev s +:+ acc.
Proof.
  revert acc. induction s as [|a s IH]; intros acc; [reflexivity |].
  unfold String.rev. simpl. rewrite (IH (String a "")), IH.
  now rewrite append_assoc.
Qed.

Lemma rev_cons (a : ascii) (s : string) :
  String.rev (String a s) = String.rev s +:+ String a "".
Proof. unfold String.rev at 1. simpl. apply rev_app_eq. Qed.

Lemma rev_append (a b : string) :
  String.rev (a +:+ b) = String.rev b +:+ String.rev a.
Proof.
  induction a as [|x a IH].
  - now rewrite append_nil_l, append_nil_r.
  - now rewrite append_cons, !rev_cons, IH, append_assoc.
Qed.

Lemma rev_involutive (s : string) : String.rev (String.rev s) = s.
Proof.
  induction s as [|a s IH]; [reflexivity |].
  now rewrite rev_cons, rev_append, IH.
Qed.

Lemma rev_length (s : string) : String.length (String.rev s) = String.length s.
Proof.
  induction s as [|a s IH]; [reflexivity |].
  rewrite rev_cons, length_append, IH. simpl. lia.
Qed.

Lemma rev_eq_nil (s : string) : String.rev s = "" -> s = "".
Proof. intros H. apply (f_equal String.rev) in H. now rewrite rev_involutive in H. Qed.

Lemma run_of_rev (runes : list string) (s : string) :
  run_of (map String.rev runes) s -> run_of runes (String.rev s).
Proof.
  induction 1 as [| r s Hin _ IH]; [constructor |].
  apply in_map_iff in Hin as (r0 & <- & Hin).
  rewrite rev_append, rev_involutive. apply run_of_app; [exact IH |].
  rewrite <- (append_nil_r r0). constructor; [exact Hin | constructor].
Qed.

Lemma space_runes_nonempty (r : string) : In r Strings.space_runes -> r <> "".
Proof.
  intros Hin ->. cbv in Hin.
  repeat (destruct Hin as [Hin | Hin]; [discriminate |]). exact Hin.
Qed.

Lemma TrimLeftSpace_spec (s : string) :
  (exists l, s = l +:+ Strings.TrimLeftSpace s /\ run_of Strings.space_runes l) /\
  (forall x rest, In x Strings.space_runes -> Strings.TrimLeftSpace s <> x +:+ rest).
Proof.
  split; [apply trim_loop_split |].
  apply cut_rune_None, trim_loop_done; [apply space_runes_nonempty | lia].
Qed.

Lemma TrimRightSpace_spec (s : string) :
  (exists r, s = Strings.TrimRightSpace s +:+ r /\ run_of Strings.space_runes r) /\
  (forall x rest, In x Strings.space_runes -> Strings.TrimRightSpace s <> rest +:+ x).
Proof.
  unfold Strings.TrimRightSpace.
  set (runes := map String.rev Strings.space_runes).
  split.
  - destruct (trim_loop_split runes (String.length s) (String.rev s))
      as (l & Hs & Hl).
    exists (String.rev l). split; [| now apply run_of_rev].
    rewrite <- rev_append, <- Hs. now rewrite rev_involutive.
  - intros x rest Hin Hm.
    assert (Hdone : Strings.cut_rune runes
                      (Strings.trim_loop runes (String.length s) (String.rev s))
                    = None).
    { apply trim_loop_done; [| rewrite rev_length; lia].
      intros r Hr. apply in_map_iff in Hr as (r0 & <- & Hr0).
      intros Hnil. apply rev_eq_nil in Hnil.
      now apply (space_runes_nonempty r0). }
    apply (f_equal String.rev) in Hm.
    rewrite rev_involutive, rev_append in Hm.
    eapply (proj1 (cut_rune_None _ _) Hdone); [| exact Hm].
    apply in_map. exact Hin.
Qed.

(** [strings.TrimSpace] cuts off the white space around a text and
    nothing else. *)
Lemma TrimSpace_trimmed (s : string) : trimmed s (Strings.TrimSpace s).
Proof.
  unfold Strings.TrimSpace.
  destruct (TrimLeftSpace_spec s) as ((l & Hl & Hrun_l) & Hfront).
  destruct (TrimRightSpace_spec (Strings.TrimLeftSpace s)) as ((r & Hr & Hrun_r) & Hback).
  exists l, r. split; [| split; [exact Hrun_l | split; [exact Hrun_r | split]]].
  - now rewrite <- Hr.
  - intros x rest Hin Hm. apply (Hfront x (rest +:+ r) Hin).
    rewrite Hr at 1. rewrite Hm. now rewrite append_assoc.
  - exact Hback.
Qed.

(* ===================================================================== *)
(** ** Digits *)

Lemma utod_digit (u : Z) :
  0 <= u < 10 ->
  is_digit (Time.utod u) = true /\
  Z.of_nat (nat_of_ascii (Time.utod u)) - 48 = u.
Proof.
  intros Hu.
  assert (Hcases : u = 0 \/ u = 1 \/ u = 2 \/ u = 3 \/ u = 4 \/ u = 5
                   \/ u = 6 \/ u = 7 \/ u = 8 \/ u = 9) by lia.
  repeat (destruct Hcases as [-> | Hcases]; [split; reflexivity |]).
  subst u. split; reflexivity.
Qed.

Lemma numeral_two_digits (u : Z) : 0 <= u < 100 -> numeral 2 (two_digits u) u.
Proof.
  intros Hu.
  destruct (utod_digit (u / 10)) as [Ha Va]; [divlia |].
  destruct (utod_digit (u mod 10)) as [Hb Vb]; [divlia |].
  unfold numeral, two_digits.
  cbn [String.length all_digits decimal_from]. rewrite Ha, Hb, Va, Vb.
  clear Ha Hb Va Vb. repeat split. divlia.
Qed.

Lemma numeral_four_digits (u : Z) : 0 <= u < 10000 -> numeral 4 (four_digits u) u.
Proof.
  intros Hu.
  destruct (utod_digit (u / 1000)) as [Ha Va]; [divlia |].
  destruct (utod_digit (u / 100 mod 10)) as [Hb Vb]; [divlia |].
  destruct (utod_digit (u / 10 mod 10)) as [Hc Vc]; [divlia |].
  destruct (utod_digit (u mod 10)) as [Hd Vd]; [divlia |].
  unfold numeral, four_digits.
  cbn [String.length all_digits decimal_from].
  rewrite Ha, Hb, Hc, Hd, Va, Vb, Vc, Vd.
  clear Ha Hb Hc Hd Va Vb Vc Vd. repeat split. divlia.
Qed.

Lemma appendInt_2 (b : string) (x : Z) :
  0 <= x < 100 -> Time.appendInt b x 2 = b +:+ two_digits x.
Proof.
  intros Hx. unfold Time.appendInt.
  destruct (Z.ltb_spec x 0) as [|_]; [lia |].
  rewrite Z.abs_eq by lia. simpl (2 =? 2).
  destruct (Z.ltb_spec x 100) as [_|]; [reflexivity | lia].
Qed.

Lemma appendInt_4 (b : string) (x : Z) :
  0 <= x < 10000 -> Time.appendInt b x 4 = b +:+ four_digits x.
Proof.
  intros Hx. unfold Time.appendInt.
  destruct (Z.ltb_spec x 0) as [|_]; [lia |].
  rewrite Z.abs_eq by lia. simpl (4 =? 2). simpl (4 =? 4).
  destruct (Z.ltb_spec x 10000) as [_|]; [reflexivity | lia].
Qed.

(** The clock of [absClock] is a time of day. *)
Lemma Clock_range (t : Time.Time) :
  0 <= Time.hour t < 24 /\ 0 <= Time.minute t < 60 /\ 0 <= Time.second t < 60 /\
  Time.hour t * 3600 + Time.minute t * 60 + Time.second t
  = Z.of_N (Time.abs t) mod 86400.
Proof.
  unfold Time.hour, Time.minute, Time.second, Time.Clock,
    Time.secondsPerDay, Time.secondsPerHour, Time.secondsPerMinute.
  simpl fst; simpl snd.
  change (24 * (60 * 60)) with 86400. change (60 * 60) with 3600.
  set (s := Z.of_N (Time.abs t) mod 86400).
  assert (0 <= s < 86400) by (apply Z.mod_pos_bound; lia).
  divlia.
Qed.

(* ===================================================================== *)
(** ** The entry formatter *)

Lemma chunks_clock :
  Time.chunks (String.length "15:04:05") "15:04:05"
  = [Time.stdHour; Time.literal ":"; Time.stdZeroMinute; Time.literal ":";
     Time.stdZeroSecond].
Proof. reflexivity. Qed.

Lemma chunks_year : Time.chunks (String.length "2006") "2006" = [Time.stdLongYear].
Proof. reflexivity. Qed.

Lemma chunks_month : Time.chunks (String.length "01") "01" = [Time.stdZeroMonth].
Proof. reflexivity. Qed.

Lemma chunks_date :
  Time.chunks (String.length "20060102") "20060102"
  = [Time.stdLongYear; Time.stdZeroMonth; Time.stdZeroDay].
Proof. reflexivity. Qed.

Lemma Format_clock (t : Time.Time) :
  Time.Format t "15:04:05"
  = two_digits (Time.hour t) +:+ ":" +:+ two_digits (Time.minute t) +:+ ":"
    +:+ two_digits (Time.second t).
Proof.
  destruct (Clock_range t) as (Hh & Hm & Hs & _).
  unfold Time.Format. rewrite chunks_clock.
  cbn [fold_left Time.appendChunk].
  rewrite !appendInt_2 by lia.
  now autorewrite with str.
Qed.

Lemma Sprintf_entry (stamp text : string) :
  Fmt.Sprintf ("### %s" +:+ LF +:+ "%s" +:+ LF) [Fmt.AStr stamp; Fmt.AStr text]
  = "### " +:+ stamp +:+ LF +:+ text +:+ LF.
Proof. reflexivity. Qed.

(** C9. For every time [t] and every text, [formatEntry t text true] is
    the text followed by a newline, and [formatEntry t text false] is
    the header ["### HH:MM:SS"], a newline, the text and a newline, where
    HH, MM and SS are the two-digit decimal numerals of the hour (0..23),
    minute and second of the time of day of [t]. *)
Theorem formatEntry_spec (t : Time.Time) (text : string) :
  formatEntry t text true = text +:+ LF /\
  exists hh mm ss : string,
    formatEntry t text false = entry_header hh mm ss +:+ LF +:+ text +:+ LF /\
    numeral 2 hh (Time.hour t) /\
    numeral 2 mm (Time.minute t) /\
    numeral 2 ss (Time.second t) /\
    0 <= Time.hour t < 24 /\ 0 <= Time.minute t < 60 /\ 0 <= Time.second t < 60 /\
    Time.hour t * 3600 + Time.minute t * 60 + Time.second t
    = Z.of_N (Time.abs t) mod 86400.
Proof.
  split; [reflexivity |].
  destruct (Clock_range t) as (Hh & Hm & Hs & Hday).
  exists (two_digits (Time.hour t)), (two_digits (Time.minute t)),
    (two_digits (Time.second t)).
  split.
  - unfold formatEntry, entry_header. rewrite Format_clock.
    rewrite Sprintf_entry. now autorewrite with str.
  - repeat (split; [apply numeral_two_digits; lia |]).
    repeat split; lia.
Qed.

Lemma Format_year (t : Time.Time) :
  0 <= Time.year t <= 9999 -> Time.Format t "2006" = four_digits (Time.year t).
Proof.
  intros Hy. unfold Time.Format. rewrite chunks_year.
  cbn [fold_left Time.appendChunk]. now rewrite appendInt_4 by lia.
Qed.

Lemma Format_month (t : Time.Time) :
  1 <= Time.month t <= 12 -> Time.Format t "01" = two_digits (Time.month t).
Proof.
  intros Hm. unfold Time.Format. rewrite chunks_month.
  cbn [fold_left Time.appendChunk]. now rewrite appendInt_2 by lia.
Qed.

Lemma Format_date (t : Time.Time) :
  0 <= Time.year t <= 9999 -> 1 <= Time.month t <= 12 -> 1 <= Time.day t <= 31 ->
  Time.Format t "20060102"
  = four_digits (Time.year t) +:+ two_digits (Time.month t)
    +:+ two_digits (Time.day t).
Proof.
  intros Hy Hm Hd. unfold Time.Format. rewrite chunks_date.
  cbn [fold_left Time.appendChunk].
  rewrite appendInt_4 by lia. rewrite !appendInt_2 by lia.
  now autorewrite with str.
Qed.

Lemma Sprintf_path (a b c : string) :
  Fmt.Sprintf "/Notes/Journal/%s/%s/Note%s.md" [Fmt.AStr a; Fmt.AStr b; Fmt.AStr c]
  = "/Notes/Journal/" +:+ a +:+ "/" +:+ b +:+ "/Note" +:+ c +:+ ".md".
Proof. reflexivity. Qed.

(** C8, as the code has it.  For every point in time whose year lies in
    0..9999 (with a month in 1..12 and a day in 1..31, as [Date()]
    returns them), [resolvePath] returns
    [/Notes/Journal/{YYYY}/{MM}/Note{YYYYMMDD}.md], where YYYY, MM and DD
    are the decimal numerals of the year, month and day in exactly four,
    two and two digits; 2025-01-15 maps to
    [/Notes/Journal/2025/01/Note20250115.md] and 2025-12-03 to
    [/Notes/Journal/2025/12/Note20251203.md]. *)
Theorem resolvePath_spec (t : Time.Time) :
  0 <= Time.year t <= 9999 ->
  1 <= Time.month t <= 12 ->
  1 <= Time.day t <= 31 ->
  (exists yyyy mm dd : string,
     resolvePath t = journal_path yyyy mm dd /\
     numeral 4 yyyy (Time.year t) /\
     numeral 2 mm (Time.month t) /\
     numeral 2 dd (Time.day t)) /\
  (Time.year t = 2025 /\ Time.month t = 1 /\ Time.day t = 15 ->
   resolvePath t = "/Notes/Journal/2025/01/Note20250115.md") /\
  (Time.year t = 2025 /\ Time.month t = 12 /\ Time.day t = 3 ->
   resolvePath t = "/Notes/Journal/2025/12/Note20251203.md").
Proof.
  intros Hy Hm Hd.
  assert (Hpath : resolvePath t
                  = journal_path (four_digits (Time.year t))
                      (two_digits (Time.month t)) (two_digits (Time.day t))).
  { unfold resolvePath, journal_path.
    rewrite Format_year, Format_month, Format_date by assumption.
    rewrite Sprintf_path. now autorewrite with str. }
  split; [| split].
  - eexists _, _, _. split; [exact Hpath |].
    split; [apply numeral_four_digits; lia |].
    split; apply numeral_two_digits; lia.
  - intros (Ey & Em & Ed). rewrite Hpath, Ey, Em, Ed. reflexivity.
  - intros (Ey & Em & Ed). rewrite Hpath, Ey, Em, Ed. reflexivity.
Qed.

Lemma resolvePath_spec_witness :
  (exists yyyy mm dd : string,
     resolvePath (Time.Date 2025 1 15 14 30 0) = journal_path yyyy mm dd /\
     numeral 4 yyyy 2025 /\ numeral 2 mm 1 /\ numeral 2 dd 15) /\
  resolvePath (Time.Date 2025 1 15 14 30 0)
  = "/Notes/Journal/2025/01/Note20250115.md".
Proof.
  destruct (resolvePath_spec (Time.Date 2025 1 15 14 30 0)) as (H1 & H2 & _);
    [simpl; lia | simpl; lia | simpl; lia |].
  split; [exact H1 | apply H2; repeat split].
Defined.

(** C8, as stated, fails in the year 10000: the year takes five digits
    and the compact date nine, so the path has no four-digit year. *)
Lemma resolvePath_year_10000 :
  resolvePath (Time.Date 10000 1 1 0 0 0)
  = "/Notes/Journal/10000/01/Note100000101.md" /\
  ~ (exists yyyy mm dd : string,
       resolvePath (Time.Date 10000 1 1 0 0 0) = journal_path yyyy mm dd /\
       numeral 4 yyyy 10000 /\ numeral 2 mm 1 /\ numeral 2 dd 1).
Proof.
  split; [reflexivity |].
  intros (yyyy & mm & dd & Hpath & (Ly & _) & (Lm & _) & (Ld & _)).
  apply (f_equal String.length) in Hpath.
  unfold journal_path in Hpath.
  rewrite !length_append, Ly, Lm, Ld in Hpath.
  vm_compute in Hpath. discriminate.
Qed.

(* ===================================================================== *)
(** ** Running a sequence *)

Lemma bind_run {A B : Type} (c : M A) (k : A -> M B) (st : State) :
  (c ≫= k) st
  = match c st with
    | (Some a, st') => k a st'
    | (None, st') => (None, st')
    end.
Proof. reflexivity. Qed.

(* ===================================================================== *)
(** ** The storage client *)

Section Client.

Context {R : Runtime} (w : World).

Lemma upload_request_inv (c : DropboxClient) (path content : string) (req : Request) :
  upload_request c path content = inr req ->
  Method req = "POST" /\
  URL req = baseURL c +:+ "/2/files/upload" /\
  ReqBody req = content /\
  Header req !! "Authorization" = Some ("Bearer " +:+ Token c) /\
  Header req !! "Content-Type" = Some "application/octet-stream" /\
  Header req !! "Dropbox-API-Arg"
  = Some (Marshal_map {[ "path" := JString path;
                         "mode" := JString "overwrite";
                         "mute" := JBool true ]}).
Proof.
  unfold upload_request, http_NewRequest.
  destruct (NewRequest_err _ _); [discriminate |].
  intros [= <-]. cbn [Header_Set Method URL ReqBody Header].
  repeat split; by simplify_map_eq.
Qed.

(** A call of [Upload] that returns no error sent the request it built
    and got status 200 for it. *)
Lemma Upload_ok_inv (c : DropboxClient) (path content : string) (st st' : State) :
  Upload w c path content st = (Some None, st') ->
  exists (req : Request) (resp : Response),
    upload_request c path content = inr req /\
    Do w (sent st) req = inr resp /\
    StatusCode resp = 200 /\
    st' = log_request st req.
Proof.
  unfold Upload.
  destruct (upload_request c path content) as [err | req]; [discriminate |].
  unfold mbind, M_bind, http_Do.
  destruct (Do w (sent st) req) as [err | resp] eqn:Hdo; [discriminate |].
  destruct (Z.eqb_spec (StatusCode resp) 200) as [H200 | Hne]; cbn [negb].
  - intros [= <-]. now exists req, resp.
  - destruct (Body resp). discriminate.
Qed.

End Client.

(** [strings.Contains] finds exactly the substrings. *)
Lemma prefix_iff (p s : string) :
  String.prefix p s = true <-> exists rest, s = p +:+ rest.
Proof.
  revert s. induction p as [|a p IH]; intros s.
  - split; [intros _; now exists s | now destruct s].
  - destruct s as [|b s]; simpl; [split; [discriminate | intros [rest [=]]] |].
    destruct (ascii_dec a b) as [-> | Hab].
    + rewrite IH. split; intros [rest Hs]; exists rest.
      * now rewrite append_cons, <- Hs.
      * rewrite append_cons in Hs. now injection Hs.
    + split; [discriminate |]. intros [rest Hs].
      rewrite append_cons in Hs. now injection Hs as -> _.
Qed.

Lemma Contains_iff (s substr : string) :
  Strings.Contains s substr = true
  <-> exists before after, s = before +:+ substr +:+ after.
Proof.
  induction s as [|c s IH]; cbn [Strings.Contains]; unfold Strings.HasPrefix;
    rewrite orb_true_iff, prefix_iff.
  - split.
    + intros [[rest Hs] | [=]]. now exists "", rest.
    + intros (before & after & Hs). left.
      destruct before; [now exists after |].
      rewrite append_cons in Hs. discriminate.
  - rewrite IH. split.
    + intros [[rest Hs] | (before & after & Hs)].
      * now exists "", rest.
      * exists (String c before), after. now rewrite append_cons, <- Hs.
    + intros (before & after & Hs).
      destruct before as [|b before]; [left; now exists after |].
      right. rewrite append_cons in Hs. injection Hs as _ Hs.
      now exists before, after.
Qed.

Lemma Sprintf_status (n : Z) (body : string) :
  Fmt.Sprintf "dropbox API error (status %d): %s" [Fmt.AInt n; Fmt.AStr body]
  = "dropbox API error (status " +:+ Fmt.itoa n +:+ "): " +:+ body.
Proof.
  transitivity ("dropbox API error (status " +:+ Fmt.itoa n +:+ "): "
                +:+ body +:+ ""); [reflexivity |].
  now rewrite append_nil_r.
Qed.

Lemma Errorf_status (n : Z) (body : string) :
  Fmt.Errorf "dropbox API error (status %d): %s" [Fmt.AInt n; Fmt.AStr body]
  = errNew ("dropbox API error (status " +:+ Fmt.itoa n +:+ "): " +:+ body).
Proof.
  unfold Fmt.Errorf. rewrite Sprintf_status. reflexivity.
Qed.

Lemma Errorf_summary (summary : string) :
  Fmt.Errorf "dropbox API error: %s" [Fmt.AStr summary]
  = errNew ("dropbox API error: " +:+ summary).
Proof.
  transitivity (errNew ("dropbox API error: " +:+ summary +:+ ""));
    [reflexivity |].
  now rewrite append_nil_r.
Qed.

Section Download.

Context {R : Runtime} (w : World).

(** C2. When the request of [Download(path)] is answered by a response
    whose body is [body]: on status 200 the result is [body] itself and
    no error; on status 409 with ["not_found"] a substring of the parsed
    [error_summary] it is the empty string and no error; on any other
    409 it is an error whose message is ["dropbox API error: "] followed
    by the summary; on any other status it is an error whose message
    carries the status code in decimal and the raw body. *)
Theorem Download_spec (c : DropboxClient) (path : string) (st : State)
    (req : Request) (resp : Response) (body : string) :
  download_request c path = inr req ->
  Do w (sent st) req = inr resp ->
  Body resp = (body, None) ->
  (StatusCode resp = 200 ->
   fst (Download w c path st) = Some (body, None)) /\
  (StatusCode resp = 409 ->
   (exists before after, parsed_summary body = before +:+ "not_found" +:+ after) ->
   fst (Download w c path st) = Some ("", None)) /\
  (StatusCode resp = 409 ->
   ~ (exists before after, parsed_summary body = before +:+ "not_found" +:+ after) ->
   fst (Download w c path st)
   = Some ("", Some (errNew ("dropbox API error: " +:+ parsed_summary body)))) /\
  (StatusCode resp <> 200 -> StatusCode resp <> 409 ->
   fst (Download w c path st)
   = Some ("", Some (errNew ("dropbox API error (status "
                             +:+ Fmt.itoa (StatusCode resp) +:+ "): " +:+ body)))).
Proof.
  intros Hreq Hdo Hbody.
  unfold Download. rewrite Hreq.
  unfold mbind, M_bind, http_Do. rewrite Hdo, Hbody.
  fold (parsed_summary body).
  rewrite Errorf_status, Errorf_summary.
  destruct (Strings.Contains (parsed_summary body) "not_found") eqn:Hsub.
  - apply Contains_iff in Hsub.
    repeat split.
    + intros ->. reflexivity.
    + intros ->. reflexivity.
    + intros _ Hno. contradiction.
    + intros H200 H409.
      destruct (Z.eqb_spec (StatusCode resp) 409); [contradiction |].
      destruct (Z.eqb_spec (StatusCode resp) 200); [contradiction |].
      reflexivity.
  - assert (Hno : ~ (exists before after,
                       parsed_summary body = before +:+ "not_found" +:+ after)).
    { intros H. apply Contains_iff in H. congruence. }
    repeat split.
    + intros ->. reflexivity.
    + intros _ H. contradiction.
    + intros ->. reflexivity.
    + intros H200 H409.
      destruct (Z.eqb_spec (StatusCode resp) 409); [contradiction |].
      destruct (Z.eqb_spec (StatusCode resp) 200); [contradiction |].
      reflexivity.
Qed.

End Download.

Section Upload.

Context {R : Runtime} (w : World).

(** C6. The request that [Upload(path, content)] builds is a POST whose
    body is exactly [content] and whose [Dropbox-API-Arg] header is the
    JSON of a map that carries the path, mode ["overwrite"] and mute
    [true]; [Upload] sends that request; it returns no error when the
    answer has status 200, and an error whose message carries the status
    code in decimal and the body when the answer has any other status. *)
Theorem Upload_spec (c : DropboxClient) (path content : string) (st : State)
    (req : Request) :
  upload_request c path content = inr req ->
  sent (snd (Upload w c path content st)) = sent st ++ [req] /\
  Method req = "POST" /\
  ReqBody req = content /\
  (exists meta : gmap string jvalue,
     Header req !! "Dropbox-API-Arg" = Some (Marshal_map meta) /\
     meta !! "path" = Some (JString path) /\
     meta !! "mode" = Some (JString "overwrite") /\
     meta !! "mute" = Some (JBool true)) /\
  (forall resp : Response,
     Do w (sent st) req = inr resp ->
     (StatusCode resp = 200 ->
      fst (Upload w c path content st) = Some None) /\
     (StatusCode resp <> 200 ->
      fst (Upload w c path content st)
      = Some (Some (errNew ("dropbox API error (status "
                            +:+ Fmt.itoa (StatusCode resp) +:+ "): "
                            +:+ fst (Body resp)))))).
Proof.
  intros Hreq.
  destruct (upload_request_inv c path content req Hreq)
    as (Hmethod & _ & Hbody & _ & _ & Harg).
  split; [| split; [exact Hmethod | split; [exact Hbody | split]]].
  - unfold Upload. rewrite Hreq. unfold mbind, M_bind, http_Do.
    destruct (Do w (sent st) req) as [err | resp]; [reflexivity |].
    destruct (negb (StatusCode resp =? 200)); [| reflexivity].
    now destruct (Body resp).
  - eexists. split; [exact Harg |]. repeat split; by simplify_map_eq.
  - intros resp Hdo.
    unfold Upload. rewrite Hreq. unfold mbind, M_bind, http_Do. rewrite Hdo.
    split.
    + intros ->. reflexivity.
    + intros Hne.
      destruct (Z.eqb_spec (StatusCode resp) 200); [contradiction |].
      cbn [negb]. destruct (Body resp) as [body err].
      now rewrite Errorf_status.
Qed.

End Upload.

(* ===================================================================== *)
(** ** The token resolver *)

Section Resolver.

Context {R : Runtime} (w : World).

(** [refreshAccessToken] always returns. *)
Lemma refreshAccessToken_returns (tokenURL appKey appSecret refreshToken : string)
    (st : State) :
  exists token err st',
    refreshAccessToken w tokenURL appKey appSecret refreshToken st
    = (Some (token, err), st').
Proof.
  unfold refreshAccessToken, http_PostForm, mbind, M_bind.
  destruct (http_NewRequest _ _ _) as [e | req]; cbn [mret M_ret].
  - eauto.
  - unfold http_Do. destruct (Do w _ _) as [e | resp]; [cbn; eauto |].
    destruct (Body resp) as [body [e |]]; [cbn; eauto |].
    destruct (negb (StatusCode resp =? 200)); [cbn; eauto |].
    destruct (json_Unmarshal _ _ _) as [result [e |]]; cbn; eauto.
Qed.

Lemma Errorf_refresh (cause : error) :
  Fmt.Errorf ("refresh token invalid, run: dropbox-appender auth"
              +:+ LF +:+ "  (%w)") [Fmt.AErr cause]
  = errWrap ("refresh token invalid, run: dropbox-appender auth"
             +:+ LF +:+ "  (" +:+ Error cause +:+ ")") cause.
Proof. reflexivity. Qed.

(** C3. [resolveToken] returns the value of [DROPBOX_TOKEN] whenever it
    is non-empty, whatever the config holds and without touching the
    state; otherwise, when app key, app secret and refresh token are all
    non-empty, it calls the refresh operation and returns its access
    token, or, when the refresh fails, an error that wraps the cause and
    whose message tells to run [dropbox-appender auth]; otherwise it
    fails with an error telling to run [dropbox-appender auth]. *)
Theorem resolveToken_spec (cfg : Config) (st : State) :
  (Getenv w "DROPBOX_TOKEN" <> "" ->
   resolveToken w cfg st = (Some (Getenv w "DROPBOX_TOKEN", None), st)) /\
  (Getenv w "DROPBOX_TOKEN" = "" ->
   AppKey cfg <> "" -> AppSecret cfg <> "" -> RefreshToken cfg <> "" ->
   exists token err st',
     refreshAccessToken w defaultTokenURL
       (AppKey cfg) (AppSecret cfg) (RefreshToken cfg) st
     = (Some (token, err), st') /\
     match err with
     | None => resolveToken w cfg st = (Some (token, None), st')
     | Some cause =>
         exists e,
           resolveToken w cfg st = (Some ("", Some e), st') /\
           Unwrap e = Some cause /\
           Error e = "refresh token invalid, run: dropbox-appender auth"
                     +:+ LF +:+ "  (" +:+ Error cause +:+ ")"
     end) /\
  (Getenv w "DROPBOX_TOKEN" = "" ->
   AppKey cfg = "" \/ AppSecret cfg = "" \/ RefreshToken cfg = "" ->
   resolveToken w cfg st
   = (Some ("", Some (errNew "no authentication configured, run: dropbox-appender auth")),
      st)).
Proof.
  unfold resolveToken. repeat split.
  - intros Hset. apply String.eqb_neq in Hset. now rewrite Hset.
  - intros Hunset Hk Hs Hr.
    destruct (refreshAccessToken_returns defaultTokenURL
                (AppKey cfg) (AppSecret cfg) (RefreshToken cfg) st)
      as (token & err & st' & Hrefresh).
    exists token, err, st'. split; [exact Hrefresh |].
    assert (Hrun : resolveToken w cfg st
                   = (Some match err with
                           | Some cause =>
                               ("", Some (errWrap
                                  ("refresh token invalid, run: dropbox-appender auth"
                                   +:+ LF +:+ "  (" +:+ Error cause +:+ ")") cause))
                           | None => (token, None)
                           end, st')).
    { unfold resolveToken. rewrite Hunset.
      apply String.eqb_neq in Hk, Hs, Hr. rewrite Hk, Hs, Hr.
      cbn [negb andb String.eqb].
      rewrite bind_run, Hrefresh.
      destruct err as [cause |]; [| reflexivity].
      now rewrite Errorf_refresh. }
    fold (resolveToken w cfg). rewrite Hrun.
    destruct err as [cause |]; [| reflexivity].
    eexists. repeat split.
  - intros -> Hempty. cbn [negb String.eqb].
    assert (Hcond : (negb (String.eqb (RefreshToken cfg) "")
                     && negb (String.eqb (AppKey cfg) "")
                     && negb (String.eqb (AppSecret cfg) ""))%bool = false).
    { destruct Hempty as [-> | [-> | ->]]; cbn;
        rewrite ?andb_false_r; reflexivity. }
    rewrite Hcond. reflexivity.
Qed.

End Resolver.

(* ===================================================================== *)
(** ** UTF-8: decoding a rune and encoding it again *)

Section Utf8Facts.

Import Utf8.

Lemma code_range (c : ascii) : 0 <= code c < 256.
Proof.
  unfold code. pose proof (N_ascii_bounded c). lia.
Qed.

Lemma land_low (a k : Z) : 0 <= k -> 0 <= a < 2 ^ k -> Z.land a (Z.ones k) = a.
Proof.
  intros Hk Ha. rewrite Z.land_ones by exact Hk. now apply Z.mod_small.
Qed.

Lemma chr_code (c : ascii) : chr (code c) = c.
Proof.
  unfold chr. change 0xFF with (Z.ones 8).
  rewrite land_low; [| lia | pose proof (code_range c); simpl; lia].
  unfold code. rewrite N2Z.id. apply ascii_N_embedding.
Qed.

(** Bits that do not overlap add up. *)
Lemma lor_shiftl (hi lo k : Z) :
  0 <= k -> 0 <= lo < 2 ^ k -> Z.lor (Z.shiftl hi k) lo = hi * 2 ^ k + lo.
Proof.
  intros Hk Hlo.
  assert (Hdisjoint : Z.land (Z.shiftl hi k) lo = 0).
  { apply Z.bits_inj'. intros n Hn.
    rewrite Z.land_spec, Z.bits_0.
    destruct (Z.lt_ge_cases n k) as [Hlt | Hge].
    - now rewrite Z.shiftl_spec_low.
    - rewrite <- (Z.mod_small lo (2 ^ k)) by exact Hlo.
      rewrite Z.mod_pow2_bits_high by lia. apply andb_false_r. }
  pose proof (Z.add_lor_land (Z.shiftl hi k) lo) as Hadd.
  rewrite Hdisjoint, Z.shiftl_mul_pow2 in Hadd by exact Hk.
  rewrite Z.shiftl_mul_pow2 by exact Hk. lia.
Qed.

Lemma lor_add (a lo k : Z) :
  0 <= k -> 0 <= lo < 2 ^ k -> a mod 2 ^ k = 0 -> Z.lor a lo = a + lo.
Proof.
  intros Hk Hlo Hmod.
  assert (Ha : a = Z.shiftl (a / 2 ^ k) k).
  { rewrite Z.shiftl_mul_pow2 by exact Hk.
    pose proof (Z.div_mod a (2 ^ k)) as Hdiv. lia. }
  rewrite Ha at 1. rewrite lor_shiftl by assumption.
  pose proof (Z.div_mod a (2 ^ k)) as Hdiv. lia.
Qed.

Lemma land_maskx (a : Z) : Z.land a maskx = a mod 64.
Proof. change maskx with (Z.ones 6). now rewrite Z.land_ones. Qed.

Lemma land_mask2 (a : Z) : Z.land a mask2 = a mod 32.
Proof. change mask2 with (Z.ones 5). now rewrite Z.land_ones. Qed.

Lemma land_mask3 (a : Z) : Z.land a mask3 = a mod 16.
Proof. change mask3 with (Z.ones 4). now rewrite Z.land_ones. Qed.

Lemma land_mask4 (a : Z) : Z.land a mask4 = a mod 8.
Proof. change mask4 with (Z.ones 3). now rewrite Z.land_ones. Qed.

Lemma lor_tx (y : Z) : 0 <= y < 64 -> Z.lor tx y = 128 + y.
Proof. intros Hy. now apply (lor_add 128 y 6). Qed.

Lemma lor_t2 (y : Z) : 0 <= y < 64 -> Z.lor t2 y = 192 + y.
Proof. intros Hy. now apply (lor_add 192 y 6). Qed.

Lemma lor_t3 (y : Z) : 0 <= y < 32 -> Z.lor t3 y = 224 + y.
Proof. intros Hy. now apply (lor_add 224 y 5). Qed.

Lemma lor_t4 (y : Z) : 0 <= y < 16 -> Z.lor t4 y = 240 + y.
Proof. intros Hy. now apply (lor_add 240 y 4). Qed.

(** The rune of a sequence of two, three and four bytes. *)
Lemma decode2_value (b0 b1 : Z) :
  0xC0 <= b0 <= 0xDF -> 0x80 <= b1 <= 0xBF ->
  Z.lor (Z.shiftl (Z.land b0 mask2) 6) (Z.land b1 maskx)
  = (b0 - 0xC0) * 64 + (b1 - 0x80).
Proof.
  intros H0 H1.
  rewrite land_mask2, land_maskx, Z.shiftl_mul_pow2 by lia.
  change (2 ^ 6) with 64.
  rewrite (lor_add _ _ 6); change (2 ^ 6) with 64; divlia.
Qed.

Lemma decode3_value (b0 b1 b2 : Z) :
  0xE0 <= b0 <= 0xEF -> 0x80 <= b1 <= 0xBF -> 0x80 <= b2 <= 0xBF ->
  Z.lor (Z.lor (Z.shiftl (Z.land b0 mask3) 12) (Z.shiftl (Z.land b1 maskx) 6))
        (Z.land b2 maskx)
  = (b0 - 0xE0) * 4096 + (b1 - 0x80) * 64 + (b2 - 0x80).
Proof.
  intros H0 H1 H2.
  rewrite land_mask3, !land_maskx, !Z.shiftl_mul_pow2 by lia.
  change (2 ^ 6) with 64. change (2 ^ 12) with 4096.
  rewrite (lor_add _ (b1 mod 64 * 64) 12); change (2 ^ 12) with 4096; [| lia | divlia | divlia].
  rewrite (lor_add _ _ 6); change (2 ^ 6) with 64; divlia.
Qed.

Lemma decode4_value (b0 b1 b2 b3 : Z) :
  0xF0 <= b0 <= 0xF7 -> 0x80 <= b1 <= 0xBF -> 0x80 <= b2 <= 0xBF ->
  0x80 <= b3 <= 0xBF ->
  Z.lor (Z.lor (Z.lor (Z.shiftl (Z.land b0 mask4) 18)
                      (Z.shiftl (Z.land b1 maskx) 12))
               (Z.shiftl (Z.land b2 maskx) 6))
        (Z.land b3 maskx)
  = (b0 - 0xF0) * 262144 + (b1 - 0x80) * 4096 + (b2 - 0x80) * 64 + (b3 - 0x80).
Proof.
  intros H0 H1 H2 H3.
  rewrite land_mask4, !land_maskx, !Z.shiftl_mul_pow2 by lia.
  change (2 ^ 6) with 64. change (2 ^ 12) with 4096. change (2 ^ 18) with 262144.
  rewrite (lor_add _ (b1 mod 64 * 4096) 18);
    change (2 ^ 18) with 262144; [| lia | divlia | divlia].
  rewrite (lor_add _ (b2 mod 64 * 64) 12);
    change (2 ^ 12) with 4096; [| lia | divlia | divlia].
  rewrite (lor_add _ _ 6); change (2 ^ 6) with 64; divlia.
Qed.

(** The bytes that [EncodeRune] writes for a rune given by its groups
    of six bits. *)
Lemma encode2_bytes (A B : Z) :
  2 <= A < 32 -> 0 <= B < 64 ->
  EncodeRune (A * 64 + B) = String (chr (192 + A)) (String (chr (128 + B)) "").
Proof.
  intros HA HB. unfold EncodeRune.
  rewrite Z.mod_small by lia.
  destruct (Z.leb_spec (A * 64 + B) rune1Max) as [Hle | _];
    [unfold rune1Max in Hle; lia |].
  destruct (Z.leb_spec (A * 64 + B) rune2Max) as [_ | Hgt];
    [| unfold rune2Max in Hgt; lia].
  rewrite land_maskx, Z.shiftr_div_pow2 by lia. change (2 ^ 6) with 64.
  replace ((A * 64 + B) / 64) with A by divlia.
  replace ((A * 64 + B) mod 64) with B by divlia.
  rewrite lor_t2, lor_tx by lia. reflexivity.
Qed.

Lemma encode3_bytes (A B C : Z) :
  0 <= A < 16 -> 0 <= B < 64 -> 0 <= C < 64 ->
  0x800 <= A * 4096 + B * 64 + C ->
  ~ (surrogateMin <= A * 4096 + B * 64 + C <= surrogateMax) ->
  EncodeRune (A * 4096 + B * 64 + C)
  = String (chr (224 + A)) (String (chr (128 + B)) (String (chr (128 + C)) "")).
Proof.
  intros HA HB HC Hlow Hsur. unfold EncodeRune.
  rewrite Z.mod_small by lia.
  set (r := A * 4096 + B * 64 + C) in *.
  destruct (Z.leb_spec r rune1Max) as [Hle | _];
    [unfold rune1Max in Hle; lia |].
  destruct (Z.leb_spec r rune2Max) as [Hle | _];
    [unfold rune2Max in Hle; lia |].
  destruct (Z.ltb_spec MaxRune r) as [Hgt | _];
    [unfold MaxRune in Hgt; subst r; lia |].
  destruct (Z.leb_spec surrogateMin r) as [Hmin | _];
    [destruct (Z.leb_spec r surrogateMax) as [Hmax | _]; [lia |] |];
    cbn [orb andb];
    (destruct (Z.leb_spec r rune3Max) as [_ | Hgt];
      [| unfold rune3Max in Hgt; subst r; lia]);
    unfold encode3;
    rewrite !land_maskx, !Z.shiftr_div_pow2 by lia;
    change (2 ^ 6) with 64; change (2 ^ 12) with 4096;
    replace (r / 4096) with A by (subst r; divlia);
    replace (r / 64 mod 64) with B by (subst r; divlia);
    replace (r mod 64) with C by (subst r; divlia);
    rewrite lor_t3, !lor_tx by lia; reflexivity.
Qed.

Lemma encode4_bytes (A B C D : Z) :
  0 <= A < 8 -> 0 <= B < 64 -> 0 <= C < 64 -> 0 <= D < 64 ->
  0x10000 <= A * 262144 + B * 4096 + C * 64 + D <= MaxRune ->
  EncodeRune (A * 262144 + B * 4096 + C * 64 + D)
  = String (chr (240 + A))
      (String (chr (128 + B)) (String (chr (128 + C)) (String (chr (128 + D)) ""))).
Proof.
  intros HA HB HC HD Hr. unfold EncodeRune.
  rewrite Z.mod_small by lia.
  set (r := A * 262144 + B * 4096 + C * 64 + D) in *.
  destruct (Z.leb_spec r rune1Max) as [Hle | _];
    [unfold rune1Max in Hle; lia |].
  destruct (Z.leb_spec r rune2Max) as [Hle | _];
    [unfold rune2Max in Hle; lia |].
  destruct (Z.ltb_spec MaxRune r) as [Hgt | _]; [lia |].
  destruct (Z.leb_spec surrogateMin r) as [Hmin | Hmin];
    [destruct (Z.leb_spec r surrogateMax) as [Hmax | _];
       [unfold surrogateMax in Hmax; lia |] |
     unfold surrogateMin in Hmin; lia].
  cbn [orb andb].
  destruct (Z.leb_spec r rune3Max) as [Hle | _];
    [unfold rune3Max in Hle; lia |].
  unfold encode4.
  rewrite !land_maskx, !Z.shiftr_div_pow2 by lia.
  change (2 ^ 6) with 64. change (2 ^ 12) with 4096. change (2 ^ 18) with 262144.
  replace (r / 262144) with A by (subst r; divlia).
  replace (r / 4096 mod 64) with B by (subst r; divlia).
  replace (r / 64 mod 64) with C by (subst r; divlia).
  replace (r mod 64) with D by (subst r; divlia).
  rewrite lor_t4, !lor_tx by lia. reflexivity.
Qed.

Lemma first_cases (b : Z) :
  0x80 <= b < 256 ->
  first b = xx \/
  (first b = s1 /\ 0xC2 <= b <= 0xDF) \/
  (first b = s2 /\ b = 0xE0) \/
  (first b = s3 /\ 0xE1 <= b <= 0xEF /\ b <> 0xED) \/
  (first b = s4 /\ b = 0xED) \/
  (first b = s5 /\ b = 0xF0) \/
  (first b = s6 /\ 0xF1 <= b <= 0xF3) \/
  (first b = s7 /\ b = 0xF4).
Proof.
  intros Hb. unfold first.
  repeat match goal with
         | |- context [?x <? ?y] => destruct (Z.ltb_spec x y)
         | |- context [?x =? ?y] => destruct (Z.eqb_spec x y)
         end; try lia; intuition lia.
Qed.

Lemma first_s1 (b : Z) : 0xC2 <= b <= 0xDF -> first b = s1.
Proof.
  intros Hb. unfold first.
  repeat match goal with
         | |- context [?x <? ?y] => destruct (Z.ltb_spec x y)
         | |- context [?x =? ?y] => destruct (Z.eqb_spec x y)
         end; try lia; reflexivity.
Qed.

Lemma first_of (b : Z) :
  0xE0 <= b <= 0xF4 ->
  first b = (if b =? 0xE0 then s2 else if b =? 0xED then s4
             else if b <? 0xF0 then s3 else if b =? 0xF0 then s5
             else if b =? 0xF4 then s7 else s6).
Proof.
  intros Hb. unfold first.
  repeat match goal with
         | |- context [?x <? ?y] => destruct (Z.ltb_spec x y)
         | |- context [?x =? ?y] => destruct (Z.eqb_spec x y)
         end; try lia; reflexivity.
Qed.

(** The constants of one row of [first]. *)
Ltac row x :=
  let a := eval vm_compute in (acceptRanges (Z.shiftr x 4)) in
  change (acceptRanges (Z.shiftr x 4)) with a;
  let t2 := eval vm_compute in (Z.land x 7 <=? 2) in
  change (Z.land x 7 <=? 2) with t2;
  let t3 := eval vm_compute in (Z.land x 7 <=? 3) in
  change (Z.land x 7 <=? 3) with t3;
  let t0 := eval vm_compute in (as_ <=? x) in
  change (as_ <=? x) with t0;
  cbn [fst snd].

Ltac in_range :=
  repeat match goal with
         | |- context [?x <? ?y] =>
             destruct (Z.ltb_spec x y); [unfold locb, hicb in *; lia |]
         end;
  cbn [orb].

(** The runes that [DecodeRuneInString] reads from well-formed
    sequences of two, three and four bytes. *)
Lemma decode_2 (c0 c1 : ascii) (X : string) :
  0xC2 <= code c0 <= 0xDF -> 0x80 <= code c1 <= 0xBF ->
  DecodeRuneInString (String c0 (String c1 X))
  = ((code c0 - 0xC0) * 64 + (code c1 - 0x80), 2%nat).
Proof.
  intros H0 H1. unfold DecodeRuneInString.
  rewrite (first_s1 _ H0). cbv zeta. row s1. in_range.
  rewrite decode2_value by lia. reflexivity.
Qed.

Lemma decode_3 (c0 c1 c2 : ascii) (X : string) :
  0xE0 <= code c0 <= 0xEF -> 0x80 <= code c1 <= 0xBF -> 0x80 <= code c2 <= 0xBF ->
  (code c0 = 0xE0 -> 0xA0 <= code c1) ->
  (code c0 = 0xED -> code c1 <= 0x9F) ->
  DecodeRuneInString (String c0 (String c1 (String c2 X)))
  = ((code c0 - 0xE0) * 4096 + (code c1 - 0x80) * 64 + (code c2 - 0x80), 3%nat).
Proof.
  intros H0 H1 H2 HE0 HED. unfold DecodeRuneInString.
  rewrite first_of by lia. cbv zeta.
  destruct (Z.eqb_spec (code c0) 0xE0) as [E0 | N0];
    [| destruct (Z.eqb_spec (code c0) 0xED) as [ED | ND];
       [| destruct (Z.ltb_spec (code c0) 0xF0) as [_ | ?]; [| lia]]].
  - row s2. in_range. rewrite decode3_value by lia. reflexivity.
  - row s4. in_range. rewrite decode3_value by lia. reflexivity.
  - row s3. in_range. rewrite decode3_value by lia. reflexivity.
Qed.

Lemma decode_4 (c0 c1 c2 c3 : ascii) (X : string) :
  0xF0 <= code c0 <= 0xF4 -> 0x80 <= code c1 <= 0xBF -> 0x80 <= code c2 <= 0xBF ->
  0x80 <= code c3 <= 0xBF ->
  (code c0 = 0xF0 -> 0x90 <= code c1) ->
  (code c0 = 0xF4 -> code c1 <= 0x8F) ->
  DecodeRuneInString (String c0 (String c1 (String c2 (String c3 X))))
  = ((code c0 - 0xF0) * 262144 + (code c1 - 0x80) * 4096 + (code c2 - 0x80) * 64
     + (code c3 - 0x80), 4%nat).
Proof.
  intros H0 H1 H2 H3 HF0 HF4. unfold DecodeRuneInString.
  rewrite first_of by lia. cbv zeta.
  destruct (Z.eqb_spec (code c0) 0xE0) as [? | _]; [lia |].
  destruct (Z.eqb_spec (code c0) 0xED) as [? | _]; [lia |].
  destruct (Z.ltb_spec (code c0) 0xF0) as [? | _]; [lia |].
  destruct (Z.eqb_spec (code c0) 0xF0) as [F0 | N0];
    [| destruct (Z.eqb_spec (code c0) 0xF4) as [F4 | N4]].
  - row s5. in_range. rewrite decode4_value by lia. reflexivity.
  - row s7. in_range. rewrite decode4_value by lia. reflexivity.
  - row s6. in_range. rewrite decode4_value by lia. reflexivity.
Qed.

Ltac not_a_rune H Hok :=
  injection H as <- <-; vm_compute in Hok; discriminate Hok.

Ltac out_of_range H Hok :=
  repeat match type of H with
         | context [?x <? ?y] =>
             destruct (Z.ltb_spec x y); cbn [orb] in H; [not_a_rune H Hok |]
         end.

(** A rune that is read from a byte outside ASCII is read from a
    well-formed sequence. *)
Lemma DecodeRune_inv (c0 : ascii) (rest : string) (r : Z) (size : nat) :
  0x80 <= code c0 ->
  DecodeRuneInString (String c0 rest) = (r, size) ->
  ((r =? RuneError) && (size =? 1)%nat)%bool = false ->
  (exists c1 X,
     rest = String c1 X /\ 0xC2 <= code c0 <= 0xDF /\ 0x80 <= code c1 <= 0xBF) \/
  (exists c1 c2 X,
     rest = String c1 (String c2 X) /\ 0xE0 <= code c0 <= 0xEF /\
     0x80 <= code c1 <= 0xBF /\ 0x80 <= code c2 <= 0xBF /\
     (code c0 = 0xE0 -> 0xA0 <= code c1) /\ (code c0 = 0xED -> code c1 <= 0x9F)) \/
  (exists c1 c2 c3 X,
     rest = String c1 (String c2 (String c3 X)) /\ 0xF0 <= code c0 <= 0xF4 /\
     0x80 <= code c1 <= 0xBF /\ 0x80 <= code c2 <= 0xBF /\ 0x80 <= code c3 <= 0xBF /\
     (code c0 = 0xF0 -> 0x90 <= code c1) /\ (code c0 = 0xF4 -> code c1 <= 0x8F)).
Proof.
  intros Hhigh Hdec Hok. pose proof (code_range c0) as Hb0.
  unfold DecodeRuneInString in Hdec. cbv zeta in Hdec.
  destruct (first_cases (code c0)) as
    [F | [[F ?] | [[F ?] | [[F ?] | [[F ?] | [[F ?] | [[F ?] | [F ?]]]]]]]];
    [lia | | | | | | | |]; rewrite F in Hdec; revert Hdec.
  - change (as_ <=? xx) with true. change (Z.odd xx) with true. cbv iota.
    intros Hdec. not_a_rune Hdec Hok.
  - row s1. intros Hdec. left.
    destruct rest as [| c1 X]; [not_a_rune Hdec Hok |].
    out_of_range Hdec Hok. exists c1, X. unfold locb, hicb in *. repeat split; lia.
  - row s2. intros Hdec. right. left.
    destruct rest as [| c1 [| c2 X]]; [not_a_rune Hdec Hok | |];
      out_of_range Hdec Hok; [not_a_rune Hdec Hok |].
    exists c1, c2, X. unfold locb, hicb in *. repeat split; lia.
  - row s3. intros Hdec. right. left.
    destruct rest as [| c1 [| c2 X]]; [not_a_rune Hdec Hok | |];
      out_of_range Hdec Hok; [not_a_rune Hdec Hok |].
    exists c1, c2, X. unfold locb, hicb in *. repeat split; lia.
  - row s4. intros Hdec. right. left.
    destruct rest as [| c1 [| c2 X]]; [not_a_rune Hdec Hok | |];
      out_of_range Hdec Hok; [not_a_rune Hdec Hok |].
    exists c1, c2, X. unfold locb, hicb in *. repeat split; lia.
  - row s5. intros Hdec. right. right.
    destruct rest as [| c1 [| c2 [| c3 X]]]; [not_a_rune Hdec Hok | | |];
      out_of_range Hdec Hok; try not_a_rune Hdec Hok.
    exists c1, c2, c3, X. unfold locb, hicb in *. repeat split; lia.
  - row s6. intros Hdec. right. right.
    destruct rest as [| c1 [| c2 [| c3 X]]]; [not_a_rune Hdec Hok | | |];
      out_of_range Hdec Hok; try not_a_rune Hdec Hok.
    exists c1, c2, c3, X. unfold locb, hicb in *. repeat split; lia.
  - row s7. intros Hdec. right. right.
    destruct rest as [| c1 [| c2 [| c3 X]]]; [not_a_rune Hdec Hok | | |];
      out_of_range Hdec Hok; try not_a_rune Hdec Hok.
    exists c1, c2, c3, X. unfold locb, hicb in *. repeat split; lia.
Qed.

Lemma bytes_to_app (p tail : string) : bytes_to (String.length p) (p +:+ tail) = p.
Proof.
  induction p as [| c p IH]; [now destruct tail |].
  rewrite append_cons. cbn [String.length bytes_to]. now rewrite IH.
Qed.

Lemma bytes_from_app (p tail : string) :
  bytes_from (String.length p) (p +:+ tail) = tail.
Proof.
  induction p as [| c p IH]; [reflexivity |].
  rewrite append_cons. cbn [String.length bytes_from]. exact IH.
Qed.

(** A rune that is read from a byte outside ASCII is the rune of a
    sequence [p] of bytes outside ASCII, which [EncodeRune] writes
    back. *)
Lemma DecodeRune_sequence (c0 : ascii) (rest : string) (r : Z) (size : nat) :
  0x80 <= code c0 ->
  DecodeRuneInString (String c0 rest) = (r, size) ->
  ((r =? RuneError) && (size =? 1)%nat)%bool = false ->
  exists p tail,
    String c0 rest = p +:+ tail /\ String.length p = size /\ p <> "" /\ high p /\
    EncodeRune r = p /\
    (forall X, DecodeRuneInString (p +:+ X) = (r, size)).
Proof.
  intros Hhigh Hdec Hok.
  destruct (DecodeRune_inv c0 rest r size Hhigh Hdec Hok) as
    [(c1 & X & -> & H0 & H1)
    | [(c1 & c2 & X & -> & H0 & H1 & H2 & HE0 & HED)
      | (c1 & c2 & c3 & X & -> & H0 & H1 & H2 & H3 & HF0 & HF4)]].
  - rewrite decode_2 in Hdec by assumption. injection Hdec as <- <-.
    exists (String c0 (String c1 "")), X.
    split; [reflexivity |]. split; [reflexivity |]. split; [discriminate |].
    split; [cbn [high]; unfold RuneSelf; lia |].
    split.
    + rewrite encode2_bytes by lia.
      replace (192 + (code c0 - 192)) with (code c0) by lia.
      replace (128 + (code c1 - 128)) with (code c1) by lia.
      now rewrite !chr_code.
    + intros Y. rewrite !append_cons, append_nil_l. now apply decode_2.
  - rewrite decode_3 in Hdec by assumption. injection Hdec as <- <-.
    exists (String c0 (String c1 (String c2 ""))), X.
    split; [reflexivity |]. split; [reflexivity |]. split; [discriminate |].
    split; [cbn [high]; unfold RuneSelf; lia |].
    split.
    + rewrite encode3_bytes; unfold surrogateMin, surrogateMax; try lia.
      replace (224 + (code c0 - 224)) with (code c0) by lia.
      replace (128 + (code c1 - 128)) with (code c1) by lia.
      replace (128 + (code c2 - 128)) with (code c2) by lia.
      now rewrite !chr_code.
    + intros Y. rewrite !append_cons, append_nil_l. now apply decode_3.
  - rewrite decode_4 in Hdec by assumption. injection Hdec as <- <-.
    exists (String c0 (String c1 (String c2 (String c3 "")))), X.
    split; [reflexivity |]. split; [reflexivity |]. split; [discriminate |].
    split; [cbn [high]; unfold RuneSelf; lia |].
    split.
    + rewrite encode4_bytes; unfold MaxRune; try lia.
      replace (240 + (code c0 - 240)) with (code c0) by lia.
      replace (128 + (code c1 - 128)) with (code c1) by lia.
      replace (128 + (code c2 - 128)) with (code c2) by lia.
      replace (128 + (code c3 - 128)) with (code c3) by lia.
      now rewrite !chr_code.
    + intros Y. rewrite !append_cons, append_nil_l. now apply decode_4.
Qed.

(** An ASCII byte is a rune of its own. *)
Lemma DecodeRune_ascii (c : ascii) (rest : string) :
  code c < 0x80 -> DecodeRuneInString (String c rest) = (code c, 1%nat).
Proof.
  intros Hc. unfold DecodeRuneInString, first.
  destruct (Z.ltb_spec (code c) 0x80) as [_ | ?]; [reflexivity | lia].
Qed.

End Utf8Facts.

(* ===================================================================== *)
(** ** JSON: string literals *)

Section JsonStrings.

Import Utf8 Json.

Lemma push_push {A : Type} (a b : string) (r : error + (string * A)) :
  push a (push b r) = push (a +:+ b) r.
Proof.
  destruct r as [e | [raw rest]]; [reflexivity |].
  cbn [push]. now rewrite append_assoc.
Qed.

Lemma scans_nil : scans "".
Proof.
  intros Y. rewrite append_nil_l.
  destruct (string_literal Y) as [e | [raw rest]]; [reflexivity |].
  cbn [push]. now rewrite append_nil_l.
Qed.

Lemma scans_app (a b : string) : scans a -> scans b -> scans (a +:+ b).
Proof.
  intros Ha Hb Y. now rewrite append_assoc, Ha, Hb, push_push.
Qed.

Lemma scans_ordinary (c : ascii) :
  Ascii.eqb c quote = false -> Ascii.eqb c backslash = false ->
  (code c <? 0x20) = false -> scans (String c "").
Proof.
  intros Hq Hb Hc Y. rewrite append_cons, append_nil_l.
  cbn [string_literal]. now rewrite Hq, Hb, Hc.
Qed.

(** A byte outside ASCII is no quote, no backslash and no control
    character. *)
Lemma high_ordinary (c : ascii) :
  RuneSelf <= code c ->
  Ascii.eqb c quote = false /\ Ascii.eqb c backslash = false /\
  (code c <? 0x20) = false /\ (code c <? RuneSelf) = false.
Proof.
  intros Hc. unfold RuneSelf in *.
  repeat split.
  - apply Ascii.eqb_neq. intros ->. vm_compute in Hc. now apply Hc.
  - apply Ascii.eqb_neq. intros ->. vm_compute in Hc. now apply Hc.
  - apply Z.ltb_ge. lia.
  - apply Z.ltb_ge. lia.
Qed.

Lemma scans_high (p : string) : high p -> scans p.
Proof.
  induction p as [| c p IH]; [intros _; apply scans_nil |].
  intros [Hc Hp].
  destruct (high_ordinary c Hc) as (Hq & Hb & Hctl & _).
  change (String c p) with (String c "" +:+ p).
  apply scans_app; [now apply scans_ordinary | now apply IH].
Qed.

Ltac every_byte c := destruct c as [[] [] [] [] [] [] [] []].

Lemma scans_safe (c : ascii) : htmlSafeSet (code c) = true -> scans (String c "").
Proof.
  intros Hsafe. every_byte c; vm_compute in Hsafe; try discriminate Hsafe;
    intros Y; reflexivity.
Qed.

Lemma reads_safe (c : ascii) :
  htmlSafeSet (code c) = true -> reads (String c "") (String c "").
Proof.
  intros Hsafe. every_byte c; vm_compute in Hsafe; try discriminate Hsafe;
    intros fuel Y; reflexivity.
Qed.

Lemma scans_escaped (c : ascii) :
  (code c <? RuneSelf) = true -> htmlSafeSet (code c) = false -> scans (escaped c).
Proof.
  intros Hlow Hsafe. every_byte c; vm_compute in Hlow, Hsafe;
    try discriminate Hlow; try discriminate Hsafe; intros Y; reflexivity.
Qed.

Lemma reads_escaped (c : ascii) :
  (code c <? RuneSelf) = true -> htmlSafeSet (code c) = false ->
  reads (escaped c) (String c "").
Proof.
  intros Hlow Hsafe. every_byte c; vm_compute in Hlow, Hsafe;
    try discriminate Hlow; try discriminate Hsafe; intros fuel Y; reflexivity.
Qed.

Lemma separator_piece (r : Z) :
  ((r =? 0x2028) || (r =? 0x2029))%bool = true ->
  scans (String backslash "u202" +:+ String (hex (Z.land r 0xF)) "") /\
  reads (String backslash "u202" +:+ String (hex (Z.land r 0xF)) "") (EncodeRune r).
Proof.
  intros Hr. apply orb_true_iff in Hr as [Hr | Hr]; apply Z.eqb_eq in Hr; subst r;
    split; intros ?; intros; reflexivity.
Qed.

Lemma reads_sequence (p : string) (r : Z) :
  p <> "" -> high p -> EncodeRune r = p ->
  (forall X, DecodeRuneInString (p +:+ X) = (r, String.length p)) ->
  reads p p.
Proof.
  intros Hne Hp Henc Hdec fuel Y.
  destruct p as [| c p]; [now contradiction Hne |].
  destruct Hp as [Hc _].
  destruct (high_ordinary c Hc) as (Hq & Hb & Hctl & Hself).
  specialize (Hdec Y). rewrite append_cons in Hdec |- *.
  cbn [unquote_loop]. rewrite Hb, Hq, Hctl, Hself. cbn [orb].
  rewrite Hdec, Henc.
  rewrite <- append_cons, bytes_from_app. reflexivity.
Qed.

(** One turn of the loop of [appendString] on a rune that is not an
    error: the bytes [p] of the rune are written as a piece that the
    scanner steps over and that unquotes to them. *)
Lemma appendString_step (c : ascii) (rest : string) (n : nat) (r : Z) (size : nat) :
  DecodeRuneInString (String c rest) = (r, size) ->
  ((r =? RuneError) && (size =? 1)%nat)%bool = false ->
  exists piece p tail,
    String c rest = p +:+ tail /\ p <> "" /\
    bytes_from size (String c rest) = tail /\
    appendString_loop (S n) (String c rest) = piece +:+ appendString_loop n tail /\
    piece <> "" /\ scans piece /\ reads piece p.
Proof.
  intros Hdec Hok. cbn [appendString_loop].
  destruct (Z.ltb_spec (code c) RuneSelf) as [Hlow | Hhigh].
  - rewrite DecodeRune_ascii in Hdec by exact Hlow. injection Hdec as <- <-.
    assert (Hlow' : (code c <? RuneSelf) = true) by now apply Z.ltb_lt.
    destruct (htmlSafeSet (code c)) eqn:Hsafe.
    + exists (String c ""), (String c ""), rest.
      repeat split; try discriminate;
        [now apply scans_safe | now apply reads_safe].
    + exists (escaped c), (String c ""), rest.
      repeat split; try discriminate;
        [| now apply scans_escaped | now apply reads_escaped].
      unfold escaped.
      repeat match goal with
             | |- context [if ?b then _ else _] => destruct b
             end; discriminate.
  - destruct (DecodeRune_sequence c rest r size Hhigh Hdec Hok) as
      (p & tail & Hs & Hlen & Hne & Hp & Henc & HX).
    rewrite Hdec, Hok. rewrite Hs, <- Hlen, bytes_to_app, bytes_from_app.
    destruct ((r =? 0x2028) || (r =? 0x2029))%bool eqn:Hsep.
    + destruct (separator_piece r Hsep) as [Hscan Hread].
      exists (String backslash "u202" +:+ String (hex (Z.land r 0xF)) ""), p, tail.
      rewrite Henc in Hread. rewrite append_assoc.
      repeat split; try assumption. discriminate.
    + exists p, p, tail.
      repeat split; try assumption; [now apply scans_high |].
      apply (reads_sequence p r); try assumption. now rewrite Hlen.
Qed.

(** What [valid_loop] checks in one turn. *)
Lemma valid_loop_step (k : nat) (c : ascii) (rest : string) :
  valid_loop k (String c rest) = true ->
  exists k' r size,
    k = S k' /\ DecodeRuneInString (String c rest) = (r, size) /\
    ((r =? RuneError) && (size =? 1)%nat)%bool = false /\
    valid_loop k' (bytes_from size (String c rest)) = true.
Proof.
  destruct k as [| k']; [discriminate |].
  cbn [valid_loop].
  destruct (DecodeRuneInString (String c rest)) as [r size].
  destruct ((r =? RuneError) && (size =? 1)%nat)%bool eqn:Hok; [discriminate |].
  intros Hrest. now exists k', r, size.
Qed.

Lemma length_nonempty (s : string) : s <> "" -> (1 <= String.length s)%nat.
Proof. destruct s; [congruence | cbn; lia]. Qed.

(** The scanner steps over what [appendString] writes for a string of
    valid UTF-8, up to the closing quote. *)
Lemma appendString_loop_scans (n : nat) :
  forall (s : string) (k : nat) (X : string),
    valid_loop k s = true ->
    string_literal (appendString_loop n s +:+ String quote X)
    = inr (appendString_loop n s, X).
Proof.
  induction n as [| n IH]; intros s k X Hvalid.
  - destruct s; reflexivity.
  - destruct s as [| c rest]; [reflexivity |].
    destruct (valid_loop_step k c rest Hvalid) as (k' & r & size & -> & Hdec & Hok & Htail).
    destruct (appendString_step c rest n r size Hdec Hok) as
      (piece & p & tail & _ & _ & Hfrom & Hloop & _ & Hscan & _).
    rewrite Hloop, append_assoc, Hscan, (IH tail k' X) by now rewrite <- Hfrom.
    reflexivity.
Qed.

(** What [appendString] writes for a string of valid UTF-8 unquotes to
    the string. *)
Lemma appendString_loop_reads (n : nat) :
  forall (s : string) (k m : nat),
    valid_loop k s = true ->
    (String.length s <= n)%nat ->
    (String.length (appendString_loop n s) <= m)%nat ->
    unquote_loop m (appendString_loop n s) = Some s.
Proof.
  induction n as [| n IH]; intros s k m Hvalid Hn Hm.
  - destruct s; [now destruct m | cbn in Hn; lia].
  - destruct s as [| c rest]; [now destruct m |].
    destruct (valid_loop_step k c rest Hvalid) as (k' & r & size & -> & Hdec & Hok & Htail).
    destruct (appendString_step c rest n r size Hdec Hok) as
      (piece & p & tail & Hs & Hp & Hfrom & Hloop & Hpiece & _ & Hread).
    rewrite Hloop in Hm |- *. rewrite length_append in Hm.
    apply length_nonempty in Hpiece, Hp.
    destruct m as [| m]; [lia |].
    assert (Hlen : String.length (String c rest)
                   = (String.length p + String.length tail)%nat)
      by now rewrite Hs, length_append.
    rewrite Hread, (IH tail k' m); [| now rewrite <- Hfrom | lia | lia].
    cbn [put]. now rewrite Hs.
Qed.

Lemma unquote_appendString (s : string) :
  ValidString s = true ->
  unquote (appendString_loop (String.length s) s) = Some s.
Proof.
  intros Hvalid. unfold unquote.
  now apply (appendString_loop_reads _ s (String.length s)).
Qed.

End JsonStrings.

(* ===================================================================== *)
(** ** JSON: the text of a config *)

Section JsonObjects.

Import Utf8 Json.

Lemma appendString_app (s X : string) :
  appendString s +:+ X
  = String quote (appendString_loop (String.length s) s +:+ String quote X).
Proof.
  unfold appendString. now rewrite append_assoc, !append_cons, append_nil_l.
Qed.

(** A string literal after a blank is read as a string. *)
Lemma value_string (f : nat) (d : Z) (s X : string) :
  ValidString s = true ->
  value (S f) d (" " +:+ appendString s +:+ X)
  = inr (Str (appendString_loop (String.length s) s), X).
Proof.
  intros Hs. rewrite appendString_app, append_cons, append_nil_l.
  cbn [value skip isSpace Ascii.eqb Bool.eqb orb andb quote].
  rewrite (appendString_loop_scans _ s (String.length s) X Hs). reflexivity.
Qed.

Ltac scan_on :=
  cbn [value members skip isSpace Ascii.eqb Bool.eqb orb andb quote].

(** A member that is followed by a comma, and the last member. *)
Lemma members_more (f : nat) (d : Z) (key v rest : string) :
  ValidString key = true -> ValidString v = true ->
  members (S (S f)) d
    (LF +:+ "  " +:+ appendString key +:+ ": " +:+ appendString v +:+ "," +:+ rest)
  = match members (S f) d rest with
    | inl e => inl e
    | inr (ms, rest') =>
        inr (member (appendString_loop (String.length key) key)
               (Str (appendString_loop (String.length v) v)) ms, rest')
    end.
Proof.
  intros Hkey Hv. change LF with (String "010"%char "").
  rewrite appendString_app, !append_cons, !append_nil_l.
  remember (S f) as g eqn:Hg. scan_on.
  rewrite (appendString_loop_scans _ key (String.length key) _ Hkey).
  scan_on. subst g.
  rewrite <- (append_nil_l (appendString v +:+ _)), <- append_cons.
  rewrite (value_string f d v _ Hv).
  remember (S f) as g eqn:Hg. scan_on. reflexivity.
Qed.

Lemma members_last (f : nat) (d : Z) (key v rest : string) :
  ValidString key = true -> ValidString v = true ->
  members (S (S f)) d
    (LF +:+ "  " +:+ appendString key +:+ ": " +:+ appendString v +:+ LF +:+ "}"
     +:+ rest)
  = inr (member (appendString_loop (String.length key) key)
           (Str (appendString_loop (String.length v) v)) no_member, rest).
Proof.
  intros Hkey Hv. change LF with (String "010"%char "").
  rewrite appendString_app, !append_cons, !append_nil_l.
  remember (S f) as g eqn:Hg. scan_on.
  rewrite (appendString_loop_scans _ key (String.length key) _ Hkey).
  scan_on. subst g.
  rewrite <- (append_nil_l (appendString v +:+ _)), <- append_cons.
  rewrite (value_string f d v _ Hv).
  scan_on. reflexivity.
Qed.

(** The brace that opens an object whose first member starts on the
    next line. *)
Lemma value_object (f : nat) (key rest : string) :
  value (S f) 0 ("{" +:+ LF +:+ "  " +:+ appendString key +:+ rest)
  = match members f 1 (LF +:+ "  " +:+ appendString key +:+ rest) with
    | inl e => inl e
    | inr (ms, rest') => inr (Object ms, rest')
    end.
Proof.
  change LF with (String "010"%char "").
  rewrite appendString_app, !append_cons, !append_nil_l.
  scan_on. reflexivity.
Qed.

(** The text that [MarshalIndent] writes for a config of valid UTF-8
    is read as the object of its three members. *)
Lemma parse_MarshalIndent_Config (cfg : Config) :
  ValidString (AppKey cfg) = true ->
  ValidString (AppSecret cfg) = true ->
  ValidString (RefreshToken cfg) = true ->
  parse (fst (MarshalIndent_Config cfg))
  = inr (Object
           (member "app_key"
              (Str (appendString_loop (String.length (AppKey cfg)) (AppKey cfg)))
           (member "app_secret"
              (Str (appendString_loop (String.length (AppSecret cfg)) (AppSecret cfg)))
           (member "refresh_token"
              (Str (appendString_loop (String.length (RefreshToken cfg))
                      (RefreshToken cfg)))
            no_member)))).
Proof.
  intros Hk Hs Hr. unfold parse, MarshalIndent_Config. cbn [fst].
  match goal with
  | |- context [value (3 * String.length ?text + 3)] =>
      assert (Hfuel : exists f, (3 * String.length text + 3)%nat = S (S (S (S (S f)))))
  end.
  { rewrite append_cons. cbn [String.length].
    match goal with
    | |- context [S (String.length ?t)] => exists (3 * String.length t + 1)%nat
    end. lia. }
  destruct Hfuel as [f ->].
  rewrite value_object.
  rewrite <- (append_nil_r "}").
  rewrite members_more, members_more, members_last by (assumption || reflexivity).
  reflexivity.
Qed.

Lemma Unmarshal_MarshalIndent_Config (cfg : Config) :
  ValidString (AppKey cfg) = true ->
  ValidString (AppSecret cfg) = true ->
  ValidString (RefreshToken cfg) = true ->
  checkValid (fst (MarshalIndent_Config cfg)) = None /\
  unmarshal Config_type (fst (MarshalIndent_Config cfg)) zeroConfig = (cfg, None).
Proof.
  intros Hk Hs Hr. unfold checkValid, unmarshal.
  rewrite parse_MarshalIndent_Config by assumption.
  split; [reflexivity |].
  cbn [decode_value object].
  change "app_key" with (appendString_loop (String.length "app_key") "app_key") at 1.
  change "app_secret"
    with (appendString_loop (String.length "app_secret") "app_secret") at 1.
  change "refresh_token"
    with (appendString_loop (String.length "refresh_token") "refresh_token") at 1.
  rewrite !unquote_appendString by (assumption || reflexivity).
  change (find_field (fields Config_type) "app_key") with (Some "app_key").
  change (find_field (fields Config_type) "app_secret") with (Some "app_secret").
  change (find_field (fields Config_type) "refresh_token") with (Some "refresh_token").
  destruct cfg as [k s r]. reflexivity.
Qed.

End JsonObjects.

(* ===================================================================== *)
(** ** The config store *)

Section ConfigStore.

Context {R : Runtime} (w : World).

Lemma loadConfig_eq (path : string) (st : State) :
  loadConfig w path st = (Some (env_overrides w (file_config st path), None), st).
Proof.
  unfold loadConfig, file_config, os_ReadFile, mbind, M_bind.
  destruct (files st !! path); reflexivity.
Qed.

(** C4, as the code has it.  [loadConfig(path)] returns a config and
    never an error, and leaves the state as it was.  The config read
    from the file is the zero value when the file is missing or is not
    well-formed JSON.  In the config returned, each of the three fields
    is the value of its environment variable when that is non-empty, and
    otherwise the value read from the file. *)
Theorem loadConfig_spec (path : string) (st : State) :
  exists cfg : Config,
    loadConfig w path st = (Some (cfg, None), st) /\
    (files st !! path = None -> file_config st path = zeroConfig) /\
    (forall data err,
       files st !! path = Some data -> checkValid data = Some err ->
       file_config st path = zeroConfig) /\
    (Getenv w "DROPBOX_APP_KEY" <> "" -> AppKey cfg = Getenv w "DROPBOX_APP_KEY") /\
    (Getenv w "DROPBOX_APP_KEY" = "" -> AppKey cfg = AppKey (file_config st path)) /\
    (Getenv w "DROPBOX_APP_SECRET" <> "" ->
     AppSecret cfg = Getenv w "DROPBOX_APP_SECRET") /\
    (Getenv w "DROPBOX_APP_SECRET" = "" ->
     AppSecret cfg = AppSecret (file_config st path)) /\
    (Getenv w "DROPBOX_REFRESH_TOKEN" <> "" ->
     RefreshToken cfg = Getenv w "DROPBOX_REFRESH_TOKEN") /\
    (Getenv w "DROPBOX_REFRESH_TOKEN" = "" ->
     RefreshToken cfg = RefreshToken (file_config st path)).
Proof.
  exists (env_overrides w (file_config st path)).
  split; [apply loadConfig_eq |].
  split; [| split].
  - intros Hnone. unfold file_config. now rewrite Hnone.
  - intros data err Hfile Hbad. unfold file_config, json_Unmarshal.
    now rewrite Hfile, Hbad.
  - unfold env_overrides.
    destruct (String.eqb_spec (Getenv w "DROPBOX_APP_KEY") "") as [Ek | Nk];
    destruct (String.eqb_spec (Getenv w "DROPBOX_APP_SECRET") "") as [Es | Ns];
    destruct (String.eqb_spec (Getenv w "DROPBOX_REFRESH_TOKEN") "") as [Er | Nr];
    cbn [negb set_AppKey set_AppSecret set_RefreshToken
         AppKey AppSecret RefreshToken];
    repeat split; intros; congruence.
Qed.

End ConfigStore.

Section RoundTrip.

Context {R : Runtime} (w : World).

(** A call of [saveConfig] that returns no error wrote the indented
    JSON of the config at the path. *)
Lemma saveConfig_ok_inv (path : string) (cfg : Config) (st st' : State) :
  saveConfig w path cfg st = (Some None, st') ->
  files st' = <[path := fst (MarshalIndent_Config cfg)]> (files st).
Proof.
  unfold saveConfig.
  destruct (MkdirAll w _); [discriminate |].
  destruct (MarshalIndent_Config cfg) as [data [err |]]; [discriminate |].
  unfold os_WriteFile. destruct (WriteFile_err w path); [discriminate |].
  now intros [= <-].
Qed.

End RoundTrip.

Section JsonRoundTrip.

Context (base : Runtime) (w : World).

(** C5, as the code has it.  With the [encoding/json] of [Json], for
    every runtime otherwise: when [saveConfig(path, cfg)] returns no
    error, none of the three override variables is set to a non-empty
    value, and the three fields of [cfg] are valid UTF-8,
    [loadConfig(path)] yields a config equal to [cfg]. *)
Theorem save_load_roundtrip (path : string) (cfg : Config) (st st' : State) :
  saveConfig (R := Json.runtime_over base) w path cfg st = (Some None, st') ->
  Getenv w "DROPBOX_APP_KEY" = "" ->
  Getenv w "DROPBOX_APP_SECRET" = "" ->
  Getenv w "DROPBOX_REFRESH_TOKEN" = "" ->
  Utf8.ValidString (AppKey cfg) = true ->
  Utf8.ValidString (AppSecret cfg) = true ->
  Utf8.ValidString (RefreshToken cfg) = true ->
  loadConfig (R := Json.runtime_over base) w path st' = (Some (cfg, None), st').
Proof.
  intros Hsave Hk Hs Hr Vk Vs Vr.
  apply saveConfig_ok_inv in Hsave.
  rewrite loadConfig_eq. unfold file_config, json_Unmarshal.
  rewrite Hsave, lookup_insert_eq.
  cbn [checkValid decode_Config MarshalIndent_Config Json.runtime_over].
  destruct (Unmarshal_MarshalIndent_Config cfg Vk Vs Vr) as [-> ->].
  cbn [fst]. unfold env_overrides. rewrite Hk, Hs, Hr. reflexivity.
Qed.

End JsonRoundTrip.

(* ===================================================================== *)
(** ** The input reader *)

Section InputReader.

Context (w : World).

Lemma Errorf_stdin (cause : error) :
  Fmt.Errorf "reading stdin: %w" [Fmt.AErr cause]
  = errWrap ("reading stdin: " +:+ Error cause) cause.
Proof.
  transitivity (errWrap ("reading stdin: " +:+ Error cause +:+ "") cause);
    [reflexivity |].
  now rewrite append_nil_r.
Qed.

(** C7, as the code has it.  With positional arguments, [readInput]
    returns them joined with single spaces and looks at nothing else.
    Without arguments, and with the status of standard input at hand:
    when standard input is not a character device it is read fully; if
    that read fails the result is an error that wraps the cause, with a
    message that starts with ["reading stdin: "]; if the text read,
    trimmed of surrounding white space, is non-empty, it is the result;
    in every other case the result is the error ["no input provided:
    pass text as argument or via stdin"].  Trimming cuts off the white
    space around the text and nothing else. *)
Theorem readInput_spec (args : list string) (st : State) :
  (args <> [] -> readInput w args st = (Some (Strings.Join args " ", None), st)) /\
  (forall mode : Z,
     args = [] -> Stdin_Stat w = Some mode ->
     (Z.land mode ModeCharDevice = 0 ->
      forall data cause,
        Stdin_ReadAll w = (data, Some cause) ->
        readInput w args st
        = (Some ("", Some (errWrap ("reading stdin: " +:+ Error cause) cause)), st)) /\
     (Z.land mode ModeCharDevice = 0 ->
      forall data,
        Stdin_ReadAll w = (data, None) -> Strings.TrimSpace data <> "" ->
        readInput w args st = (Some (Strings.TrimSpace data, None), st)) /\
     (Z.land mode ModeCharDevice = 0 ->
      forall data,
        Stdin_ReadAll w = (data, None) -> Strings.TrimSpace data = "" ->
        readInput w args st = (Some ("", Some no_input), st)) /\
     (Z.land mode ModeCharDevice <> 0 ->
      readInput w args st = (Some ("", Some no_input), st))) /\
  Error no_input = "no input provided: pass text as argument or via stdin" /\
  (forall data : string, trimmed data (Strings.TrimSpace data)).
Proof.
  split; [| split; [| split; [reflexivity | apply TrimSpace_trimmed]]].
  - intros Hargs. unfold readInput. destruct args; [contradiction | reflexivity].
  - intros mode -> Hstat. unfold readInput. cbn [length Nat.ltb Nat.leb].
    rewrite Hstat. repeat split.
    + intros Hmode data cause Hread. rewrite Hmode, Hread. cbn [Z.eqb].
      now rewrite Errorf_stdin.
    + intros Hmode data Hread Htext. rewrite Hmode, Hread. cbn [Z.eqb].
      apply String.eqb_neq in Htext. now rewrite Htext.
    + intros Hmode data Hread Htext. rewrite Hmode, Hread. cbn [Z.eqb].
      now rewrite Htext.
    + intros Hmode. apply Z.eqb_neq in Hmode. now rewrite Hmode.
Qed.

End InputReader.

(* ===================================================================== *)
(** ** The append flow *)

Section AppendFlow.

Context {R : Runtime} (w : World).

(** The steps of a run of the append flow that ends by returning. *)
Lemma append_flow_Returned (osargs : list string) (st st' : State) :
  append_flow w osargs st = (Some Returned, st') ->
  exists (noTimestamp : bool) (args : list string) (cfg : Config)
         (token input existing : string) (st1 st2 st3 st4 st5 : State),
    flag_Parse osargs = inr (noTimestamp, args) /\
    loadConfig w (defaultConfigPath w) st = (Some (cfg, None), st1) /\
    resolveToken w cfg st1 = (Some (token, None), st2) /\
    readInput w args st2 = (Some (input, None), st3) /\
    Download w (mkClient token "") (resolvePath (Now w)) st3
    = (Some (existing, None), st4) /\
    Upload w (mkClient token "") (resolvePath (Now w))
      (appendContent existing (formatEntry (Now w) input noTimestamp)) st4
    = (Some None, st5) /\
    sent st' = sent st5.
Proof.
  unfold append_flow.
  destruct (flag_Parse osargs) as [code | [noTimestamp args]]; [discriminate |].
  rewrite bind_run.
  destruct (loadConfig w _ st) as [[[cfg [e |]] |] st1] eqn:Hload;
    [discriminate | | discriminate].
  rewrite bind_run.
  destruct (resolveToken w cfg st1) as [[[token [e |]] |] st2] eqn:Htoken;
    [discriminate | | discriminate].
  rewrite bind_run.
  destruct (readInput w args st2) as [[[input [e |]] |] st3] eqn:Hinput;
    [discriminate | | discriminate].
  rewrite bind_run.
  destruct (Download w _ _ st3) as [[[existing [e |]] |] st4] eqn:Hdown;
    [discriminate | | discriminate].
  rewrite bind_run.
  destruct (Upload w _ _ _ st4) as [[[e |] |] st5] eqn:Hup;
    [discriminate | | discriminate].
  intros [= <-].
  exists noTimestamp, args, cfg, token, input, existing, st1, st2, st3, st4, st5.
  repeat split; assumption || reflexivity.
Qed.

(** A run of [main] that is not the [auth] subcommand and ends by
    returning: its input, its download, and its upload. *)
Lemma main_Returned_inv (st st' : State) :
  main w st = (Some Returned, st') ->
  auth_subcommand w = false ->
  exists (noTimestamp : bool) (args : list string) (token input existing : string)
         (st_in st_read st_down : State) (upload : Request),
    flag_Parse (tail (Args w)) = inr (noTimestamp, args) /\
    readInput w args st_in = (Some (input, None), st_read) /\
    Download w (mkClient token "") (resolvePath (Now w)) st_read
    = (Some (existing, None), st_down) /\
    upload_request (mkClient token "") (resolvePath (Now w))
      (appendContent existing (formatEntry (Now w) input noTimestamp))
    = inr upload /\
    sent st' = sent st_down ++ [upload].
Proof.
  intros Hmain Happend. unfold main in Hmain. rewrite Happend in Hmain.
  destruct (Args w) as [| prog osargs]; [discriminate |].
  apply append_flow_Returned in Hmain
    as (noTimestamp & args & cfg & token & input & existing
        & st1 & st2 & st3 & st4 & st5
        & Hflag & _ & _ & Hinput & Hdown & Hup & Hsent).
  apply Upload_ok_inv in Hup as (req & resp & Hreq & _ & _ & ->).
  exists noTimestamp, args, token, input, existing, st2, st3, st4, req.
  repeat split; assumption.
Qed.

(** C1. For every run of [main] that is not the [auth] subcommand and
    that ends by returning: the flags parsed to [noTimestamp] and the
    remaining arguments; [readInput] gave the input text; [Download] of
    the path of now gave [existing] without error; and the last request
    sent is the upload for that path, whose body is [existing], a
    newline and the entry formatted from the input when [existing] is
    non-empty, and exactly that entry when [existing] is empty. *)
Theorem append_run_uploads_combined_content (st st' : State) :
  main w st = (Some Returned, st') ->
  auth_subcommand w = false ->
  exists (noTimestamp : bool) (args : list string) (token input existing : string)
         (st_in st_read st_down : State) (upload : Request),
    flag_Parse (tail (Args w)) = inr (noTimestamp, args) /\
    readInput w args st_in = (Some (input, None), st_read) /\
    Download w (mkClient token "") (resolvePath (Now w)) st_read
    = (Some (existing, None), st_down) /\
    sent st' = sent st_down ++ [upload] /\
    URL upload = defaultBaseURL +:+ "/2/files/upload" /\
    (exists meta : gmap string jvalue,
       Header upload !! "Dropbox-API-Arg" = Some (Marshal_map meta) /\
       meta !! "path" = Some (JString (resolvePath (Now w)))) /\
    (existing <> "" ->
     ReqBody upload
     = existing +:+ LF +:+ formatEntry (Now w) input noTimestamp) /\
    (existing = "" ->
     ReqBody upload = formatEntry (Now w) input noTimestamp).
Proof.
  intros Hmain Happend.
  destruct (main_Returned_inv st st' Hmain Happend)
    as (noTimestamp & args & token & input & existing & st_in & st_read & st_down
        & upload & Hflag & Hinput & Hdown & Hreq & Hsent).
  apply upload_request_inv in Hreq as (_ & Hurl & Hbody & _ & _ & Harg).
  exists noTimestamp, args, token, input, existing, st_in, st_read, st_down, upload.
  split; [exact Hflag |]. split; [exact Hinput |]. split; [exact Hdown |].
  split; [exact Hsent |]. split; [exact Hurl |].
  split; [eexists; split; [exact Harg | by simplify_map_eq] |].
  rewrite Hbody. unfold appendContent. split.
  - intros Hne. apply String.eqb_neq in Hne. now rewrite Hne.
  - intros ->. reflexivity.
Qed.

Lemma formatEntry_ends_with_LF (t : Time.Time) (text : string) (noTimestamp : bool) :
  ends_with (formatEntry t text noTimestamp) LF.
Proof.
  destruct noTimestamp; unfold formatEntry.
  - now exists text.
  - rewrite Sprintf_entry. repeat apply ends_with_append. apply ends_with_refl.
Qed.

Lemma appendContent_ends_with_entry (existing entry : string) :
  ends_with (appendContent existing entry) entry.
Proof.
  unfold appendContent. destruct (String.eqb existing "").
  - apply ends_with_refl.
  - repeat apply ends_with_append. apply ends_with_refl.
Qed.

(** C10. For every time, text, timestamp flag and existing content:
    [formatEntry] returns a string that ends with a newline;
    [appendContent] returns a string that ends with the entry it was
    given; so the content produced for upload ends with a newline; and
    the body of the last request of every append run of [main] that ends
    by returning ends with a newline. *)
Theorem uploaded_content_ends_with_newline (t : Time.Time) (text : string)
    (noTimestamp : bool) (existing : string) :
  ends_with (formatEntry t text noTimestamp) LF /\
  (forall entry : string, ends_with (appendContent existing entry) entry) /\
  ends_with (appendContent existing (formatEntry t text noTimestamp)) LF /\
  (forall st st' : State,
     main w st = (Some Returned, st') ->
     auth_subcommand w = false ->
     exists upload : Request,
       last (sent st') = Some upload /\ ends_with (ReqBody upload) LF).
Proof.
  split; [apply formatEntry_ends_with_LF |].
  split; [intros entry; apply appendContent_ends_with_entry |].
  split.
  - eapply ends_with_trans;
      [apply appendContent_ends_with_entry | apply formatEntry_ends_with_LF].
  - intros st st' Hmain Happend.
    destruct (main_Returned_inv st st' Hmain Happend)
      as (noTs & args & token & input & old & st_in & st_read & st_down
          & upload & _ & _ & _ & Hreq & Hsent).
    apply upload_request_inv in Hreq as (_ & _ & Hbody & _).
    exists upload. split; [rewrite Hsent; apply last_snoc |].
    rewrite Hbody. eapply ends_with_trans;
      [apply appendContent_ends_with_entry | apply formatEntry_ends_with_LF].
Qed.

End AppendFlow.

(* ===================================================================== *)
(** ** Runs *)

Section Runs.

Existing Instance Ref.runtime.

(** The end-to-end scenarios. *)
Example first_note_uploads :
  map ReqBody (sent (snd (main Scenario.first_note Scenario.start)))
  = [""; "### 09:00:00" +:+ LF +:+ "first note of the day" +:+ LF] /\
  fst (main Scenario.first_note Scenario.start) = Some Returned.
Proof. vm_compute. split; reflexivity. Qed.

Example later_note_uploads :
  map ReqBody (sent (snd (main Scenario.later_note Scenario.start)))
  = [""; "### 10:00:00" +:+ LF +:+ "morning note" +:+ LF +:+ LF
         +:+ "### 14:30:45" +:+ LF +:+ "afternoon note" +:+ LF] /\
  stdout (snd (main Scenario.later_note Scenario.start))
  = "Appended to /Notes/Journal/2025/01/Note20250115.md" +:+ LF.
Proof. vm_compute. split; reflexivity. Qed.

(** Two runs in a row against the same service: the second finds what
    the first wrote. *)
Example two_runs :
  map ReqBody
    (sent (snd (main (Scenario.second_note)
                  (snd (main Scenario.first_note Scenario.start)))))
  = [""; "### 09:00:00" +:+ LF +:+ "first note of the day" +:+ LF;
     ""; "### 09:00:00" +:+ LF +:+ "first note of the day" +:+ LF +:+ LF
         +:+ "second note" +:+ LF].
Proof. vm_compute. reflexivity. Qed.

Example formatEntry_timestamp :
  formatEntry (Time.Date 2025 1 15 14 30 45) "X" false
  = "### 14:30:45" +:+ LF +:+ "X" +:+ LF.
Proof. reflexivity. Qed.

Example formatEntry_plain :
  formatEntry (Time.Date 2025 1 15 14 30 45) "X" true = "X" +:+ LF.
Proof. reflexivity. Qed.

Example upload_header :
  match upload_request Scenario.client "/Journal/2025/01/Note20250115.md"
          "file content here" with
  | inr req => Header req !! "Dropbox-API-Arg"
  | inl _ => None
  end
  = Some ("{" +:+ Ref.literal "mode" +:+ ":" +:+ Ref.literal "overwrite" +:+ ","
          +:+ Ref.literal "mute" +:+ ":true,"
          +:+ Ref.literal "path" +:+ ":"
          +:+ Ref.literal "/Journal/2025/01/Note20250115.md" +:+ "}").
Proof. vm_compute. reflexivity. Qed.

(** The config store on a file, on no file, on a malformed file, and
    under one override. *)
Example loadConfig_from_file :
  fst (loadConfig Scenario.bare Scenario.config_path
         (Scenario.with_file Scenario.config_text))
  = Some (mkConfig "file_key" "file_secret" "file_refresh", None).
Proof. vm_compute. reflexivity. Qed.

Example loadConfig_file_not_found :
  fst (loadConfig Scenario.bare "/nonexistent/config.json" Scenario.start)
  = Some (zeroConfig, None).
Proof. vm_compute. reflexivity. Qed.

Example loadConfig_malformed :
  fst (loadConfig Scenario.bare Scenario.config_path
         (Scenario.with_file "{app_key"))
  = Some (zeroConfig, None).
Proof. vm_compute. reflexivity. Qed.

Example loadConfig_partial_override :
  fst (loadConfig Scenario.overridden Scenario.config_path
         (Scenario.with_file Scenario.config_text))
  = Some (mkConfig "env_key" "file_secret" "file_refresh", None).
Proof. vm_compute. reflexivity. Qed.

(** The token resolver: the direct token wins and sends nothing; the
    refresh credentials are exchanged; nothing configured is an error. *)
Example resolveToken_direct :
  resolveToken Scenario.direct (mkConfig "k" "s" "r") Scenario.start
  = (Some ("direct_token", None), Scenario.start).
Proof. vm_compute. reflexivity. Qed.

Example resolveToken_refresh :
  fst (resolveToken Scenario.granting (mkConfig "k" "s" "r") Scenario.start)
  = Some ("fresh_access", None) /\
  map ReqBody (sent (snd (resolveToken Scenario.granting (mkConfig "k" "s" "r")
                            Scenario.start)))
  = ["client_id=k&client_secret=s&grant_type=refresh_token&refresh_token=r"].
Proof. vm_compute. split; reflexivity. Qed.

Example resolveToken_refresh_fails :
  fst (resolveToken Scenario.failing (mkConfig "k" "s" "r") Scenario.start)
  = Some ("", Some (errWrap
       ("refresh token invalid, run: dropbox-appender auth" +:+ LF
        +:+ "  (token refresh failed (status 500): internal)")
       (errNew "token refresh failed (status 500): internal"))).
Proof. vm_compute. reflexivity. Qed.

Example resolveToken_no_auth :
  fst (resolveToken Scenario.bare zeroConfig Scenario.start)
  = Some ("", Some (errNew "no authentication configured, run: dropbox-appender auth")).
Proof. vm_compute. reflexivity. Qed.

(** The storage client against a failing service. *)
Example Download_status_500 :
  fst (Download Scenario.failing Scenario.client "/some/path.md" Scenario.start)
  = Some ("", Some (errNew "dropbox API error (status 500): internal")).
Proof. vm_compute. reflexivity. Qed.

Example Upload_status_500 :
  fst (Upload Scenario.failing Scenario.client "/some/path.md" "content"
         Scenario.start)
  = Some (Some (errNew "dropbox API error (status 500): internal")).
Proof. vm_compute. reflexivity. Qed.

(** A run that fails at the download sends no upload and exits with 1. *)
Example failing_run :
  fst (main Scenario.broken Scenario.start) = Some (Exit 1) /\
  map URL (sent (snd (main Scenario.broken Scenario.start)))
  = [Scenario.download_url] /\
  stderr (snd (main Scenario.broken Scenario.start))
  = "error downloading: dropbox API error (status 500): internal" +:+ LF.
Proof. vm_compute. repeat split; reflexivity. Qed.

Lemma resolveToken_spec_witness :
  resolveToken Scenario.direct (mkConfig "k" "s" "r") Scenario.start
  = (Some ("direct_token", None), Scenario.start).
Proof.
  destruct (resolveToken_spec Scenario.direct (mkConfig "k" "s" "r") Scenario.start)
    as (Hdirect & _).
  apply Hdirect. vm_compute. discriminate.
Defined.

Lemma loadConfig_spec_witness :
  exists cfg : Config,
    loadConfig Scenario.overridden Scenario.config_path
      (Scenario.with_file Scenario.config_text)
    = (Some (cfg, None), Scenario.with_file Scenario.config_text) /\
    AppKey cfg = "env_key" /\
    AppSecret cfg = "file_secret" /\
    RefreshToken cfg = "file_refresh".
Proof.
  destruct (loadConfig_spec Scenario.overridden Scenario.config_path
              (Scenario.with_file Scenario.config_text))
    as (cfg & Hload & _ & _ & Hkey & _ & _ & Hsecret & _ & Hrefresh).
  exists cfg. split; [exact Hload |].
  split; [apply Hkey; vm_compute; discriminate |].
  split; [rewrite Hsecret by reflexivity | rewrite Hrefresh by reflexivity];
    vm_compute; reflexivity.
Defined.

Lemma append_run_witness :
  exists (noTimestamp : bool) (args : list string) (token input existing : string)
         (st_in st_read st_down : State) (upload : Request),
    flag_Parse (tail (Args Scenario.first_note)) = inr (noTimestamp, args) /\
    readInput Scenario.first_note args st_in = (Some (input, None), st_read) /\
    Download Scenario.first_note (mkClient token "")
      (resolvePath (Now Scenario.first_note)) st_read
    = (Some (existing, None), st_down) /\
    sent (snd (main Scenario.first_note Scenario.start)) = sent st_down ++ [upload] /\
    URL upload = defaultBaseURL +:+ "/2/files/upload" /\
    (exists meta : gmap string jvalue,
       Header upload !! "Dropbox-API-Arg" = Some (Marshal_map meta) /\
       meta !! "path" = Some (JString (resolvePath (Now Scenario.first_note)))) /\
    (existing <> "" ->
     ReqBody upload
     = existing +:+ LF +:+ formatEntry (Now Scenario.first_note) input noTimestamp) /\
    (existing = "" ->
     ReqBody upload = formatEntry (Now Scenario.first_note) input noTimestamp).
Proof.
  apply (append_run_uploads_combined_content Scenario.first_note Scenario.start).
  - vm_compute. reflexivity.
  - vm_compute. reflexivity.
Defined.

Lemma Download_spec_witness :
  fst (Download Scenario.first_note Scenario.client
         "/Journal/2025/01/Note20250115.md" Scenario.start)
  = Some ("", None).
Proof.
  edestruct (Download_spec Scenario.first_note Scenario.client
               "/Journal/2025/01/Note20250115.md" Scenario.start)
    as (_ & Habsent & _).
  - vm_compute. reflexivity.
  - vm_compute. reflexivity.
  - vm_compute. reflexivity.
  - apply Habsent; [reflexivity |].
    exists "path/", "/". vm_compute. reflexivity.
Defined.

Lemma Upload_spec_witness :
  exists req : Request,
    sent (snd (Upload Scenario.first_note Scenario.client
                 "/Journal/2025/01/Note20250115.md" "file content here"
                 Scenario.start)) = [req] /\
    ReqBody req = "file content here" /\
    fst (Upload Scenario.first_note Scenario.client
           "/Journal/2025/01/Note20250115.md" "file content here" Scenario.start)
    = Some None.
Proof.
  edestruct (Upload_spec Scenario.first_note Scenario.client
               "/Journal/2025/01/Note20250115.md" "file content here"
               Scenario.start)
    as (Hsent & _ & Hbody & _ & Hresult).
  - vm_compute. reflexivity.
  - eexists. split; [exact Hsent |]. split; [exact Hbody |].
    edestruct Hresult as [Hok _]; [vm_compute; reflexivity |].
    apply Hok. reflexivity.
Defined.

End Runs.

(* ===================================================================== *)
(** ** Runs with the JSON of the package *)

Section JsonRuns.

Existing Instance Json.runtime.

(** What [json.MarshalIndent] writes for a config, and the escapes of
    [<], [>], [&], the quote and the backslash. *)
Example MarshalIndent_Config_text :
  fst (MarshalIndent_Config (mkConfig "k" "s" "r"))
  = "{" +:+ LF
    +:+ "  " +:+ Ref.literal "app_key" +:+ ": " +:+ Ref.literal "k" +:+ "," +:+ LF
    +:+ "  " +:+ Ref.literal "app_secret" +:+ ": " +:+ Ref.literal "s" +:+ "," +:+ LF
    +:+ "  " +:+ Ref.literal "refresh_token" +:+ ": " +:+ Ref.literal "r" +:+ LF
    +:+ "}".
Proof. vm_compute. reflexivity. Qed.

Example appendString_escapes :
  Json.appendString (AppKey Scenario.escaped_config)
  = String Json.quote
      ("k" +:+ String Json.backslash "u003c1" +:+ String Json.backslash "u003e"
       +:+ String Json.backslash "u00262"
       +:+ String Json.backslash (String Json.quote "")
       +:+ String Json.backslash (String Json.backslash "")
       +:+ String Json.quote "").
Proof. vm_compute. reflexivity. Qed.

Example appendString_coerces :
  Json.appendString (AppKey Scenario.broken_config)
  = String Json.quote ("k" +:+ String Json.backslash "ufffd" +:+ String Json.quote "").
Proof. vm_compute. reflexivity. Qed.

(** A member of the wrong type is an error of [json.Unmarshal] that
    does not stop the decoding; a text that is not JSON is an error
    before anything is stored. *)
Example Unmarshal_mistyped :
  json_Unmarshal decode_Config Scenario.mistyped_text zeroConfig
  = (mkConfig "" "file_secret" "",
     Some (errNew ("json: cannot unmarshal number into Go struct field "
                   +:+ "Config.app_key of type string"))).
Proof. vm_compute. reflexivity. Qed.

Example Unmarshal_malformed :
  json_Unmarshal decode_Config "{app_key" zeroConfig
  = (zeroConfig,
     Some (errNew "invalid character 'a' looking for beginning of object key string")).
Proof. vm_compute. reflexivity. Qed.

(** C4, as stated, fails on a file that is well-formed JSON with a
    member of the wrong type: [json.Unmarshal] returns an error for it,
    and the member that it decoded stays in the config. *)
Lemma loadConfig_unparsable_not_zero :
  (exists err : error,
     snd (json_Unmarshal decode_Config Scenario.mistyped_text zeroConfig) = Some err) /\
  loadConfig Scenario.bare Scenario.config_path
    (Scenario.with_file Scenario.mistyped_text)
  = (Some (mkConfig "" "file_secret" "", None),
     Scenario.with_file Scenario.mistyped_text) /\
  mkConfig "" "file_secret" "" <> zeroConfig.
Proof.
  split; [eexists; vm_compute; reflexivity |].
  split; [vm_compute; reflexivity | discriminate].
Qed.

(** C5, as stated, fails in two ways.  When an override variable is
    set, the config loaded after a save has the app key of the
    environment.  And an app key that is not valid UTF-8 is written with
    the escape of U+FFFD for the offending byte, and read back with the
    three bytes of U+FFFD in its place. *)
Lemma roundtrip_fails :
  (exists st' : State,
     saveConfig Scenario.overridden Scenario.config_path (mkConfig "k" "s" "r")
       Scenario.start = (Some None, st') /\
     loadConfig Scenario.overridden Scenario.config_path st'
     = (Some (mkConfig "env_key" "s" "r", None), st') /\
     mkConfig "env_key" "s" "r" <> mkConfig "k" "s" "r") /\
  (exists st' : State,
     saveConfig Scenario.bare Scenario.config_path Scenario.broken_config
       Scenario.start = (Some None, st') /\
     loadConfig Scenario.bare Scenario.config_path st'
     = (Some (mkConfig ("k" +:+ byte 239 +:+ byte 191 +:+ byte 189) "s" "r", None),
        st') /\
     mkConfig ("k" +:+ byte 239 +:+ byte 191 +:+ byte 189) "s" "r"
     <> Scenario.broken_config).
Proof.
  split; eexists; (split; [vm_compute; reflexivity |]);
    (split; [vm_compute; reflexivity | discriminate]).
Qed.

Lemma save_load_roundtrip_witness :
  loadConfig Scenario.bare Scenario.config_path
    (snd (saveConfig Scenario.bare Scenario.config_path Scenario.escaped_config
            Scenario.start))
  = (Some (Scenario.escaped_config, None),
     snd (saveConfig Scenario.bare Scenario.config_path Scenario.escaped_config
            Scenario.start)).
Proof.
  apply (save_load_roundtrip Ref.runtime Scenario.bare Scenario.config_path
           Scenario.escaped_config Scenario.start).
  - vm_compute. reflexivity.
  - reflexivity.
  - reflexivity.
  - reflexivity.
  - vm_compute. reflexivity.
  - vm_compute. reflexivity.
  - vm_compute. reflexivity.
Defined.

End JsonRuns.

(** C7, as stated, fails when standard input cannot be read: the error
    is the one of the read, not the one for missing input. *)
Lemma readInput_read_error :
  Z.land Scenario.directory ModeCharDevice = 0 /\
  readInput Scenario.unreadable [] Scenario.start
  = (Some ("", Some (errWrap "reading stdin: read /dev/stdin: is a directory"
                       (errNew "read /dev/stdin: is a directory"))),
     Scenario.start) /\
  Strings.Contains "reading stdin: read /dev/stdin: is a directory"
    "no input provided" = false.
Proof. vm_compute. repeat split; reflexivity. Qed.

Lemma readInput_spec_witness :
  readInput Scenario.later_note [] Scenario.start
  = (Some ("afternoon note", None), Scenario.start).
Proof.
  destruct (readInput_spec Scenario.later_note [] Scenario.start)
    as (_ & Hstdin & _).
  destruct (Hstdin Scenario.pipe) as (_ & Htext & _); [reflexivity .. |].
  apply (Htext eq_refl ("  afternoon note" +:+ LF)); [reflexivity |].
  vm_compute. discriminate.
Defined.

(* ===================================================================== *)
(** ** The storage client, on every answer *)

Section DownloadRuns.

Context {R : Runtime} (w : World).

Lemma download_request_inv (c : DropboxClient) (path : string) (req : Request) :
  download_request c path = inr req ->
  Method req = "POST" /\
  URL req = baseURL c +:+ "/2/files/download" /\
  ReqBody req = "" /\
  Header req !! "Authorization" = Some ("Bearer " +:+ Token c) /\
  Header req !! "Dropbox-API-Arg" = Some (Marshal_map {[ "path" := JString path ]}).
Proof.
  unfold download_request, http_NewRequest.
  destruct (NewRequest_err _ _); [discriminate |].
  intros [= <-]. cbn [Header_Set Method URL ReqBody Header].
  repeat split; by simplify_map_eq.
Qed.

Lemma Errorf_creating (cause : error) :
  Fmt.Errorf "creating request: %w" [Fmt.AErr cause]
  = errWrap ("creating request: " +:+ Error cause) cause.
Proof.
  transitivity (errWrap ("creating request: " +:+ Error cause +:+ "") cause);
    [reflexivity | now rewrite append_nil_r].
Qed.

(** What [Download] does to the state, and that an error comes with an
    empty content. *)
Lemma Download_run (c : DropboxClient) (path : string) (st : State) :
  match download_request c path with
  | inl cause =>
      Download w c path st
      = (Some ("", Some (errWrap ("creating request: " +:+ Error cause) cause)), st)
  | inr req =>
      exists content err,
        Download w c path st = (Some (content, err), log_request st req) /\
        (err <> None -> content = "")
  end.
Proof.
  unfold Download.
  destruct (download_request c path) as [cause | req].
  - now rewrite Errorf_creating.
  - rewrite bind_run. unfold http_Do. fold (log_request st req).
    destruct (Do w (sent st) req) as [cause | resp]; [returned |].
    destruct (Body resp) as [body [cause |]]; [returned |].
    destruct (StatusCode resp =? 409).
    + destruct (Strings.Contains _ _); returned.
    + destruct (negb (StatusCode resp =? 200)); returned.
Qed.

(** X1. [Download] always returns (it never panics) and sends at most
    one request.  When the request cannot be built it sends nothing and
    fails.  Otherwise it sends exactly the request it built: a POST
    without body to [/2/files/download] under the client's base URL (the
    override when one is set, the content API otherwise), with the
    bearer token and the JSON of the path as headers.  Whenever it
    returns an error, the content it returns is empty. *)
Theorem Download_discipline (c : DropboxClient) (path : string) (st : State) :
  exists (content : string) (err : option error) (st' : State),
    Download w c path st = (Some (content, err), st') /\
    (err <> None -> content = "") /\
    (forall cause, download_request c path = inl cause -> st' = st /\ err <> None) /\
    (forall req,
       download_request c path = inr req ->
       st' = log_request st req /\
       Method req = "POST" /\
       ReqBody req = "" /\
       (BaseURL c <> "" -> URL req = BaseURL c +:+ "/2/files/download") /\
       (BaseURL c = "" ->
        URL req = "https://content.dropboxapi.com/2/files/download") /\
       Header req !! "Authorization" = Some ("Bearer " +:+ Token c) /\
       Header req !! "Dropbox-API-Arg"
       = Some (Marshal_map {[ "path" := JString path ]})).
Proof.
  pose proof (Download_run c path st) as Hrun.
  destruct (download_request c path) as [cause | req] eqn:Hreq.
  - eexists _, _, _. split; [exact Hrun |].
    split; [reflexivity |]. split; [| discriminate].
    intros cause' _. split; [reflexivity | discriminate].
  - destruct Hrun as (content & err & Hrun & Hempty).
    exists content, err, (log_request st req).
    split; [exact Hrun |]. split; [exact Hempty |]. split; [discriminate |].
    intros req' [= <-].
    apply download_request_inv in Hreq as (Hm & Hurl & Hbody & Hauth & Harg).
    split; [reflexivity |]. split; [exact Hm |]. split; [exact Hbody |].
    split; [| split; [| split; [exact Hauth | exact Harg]]].
    + intros Hset. rewrite Hurl. unfold baseURL.
      apply String.eqb_neq in Hset. now rewrite Hset.
    + intros Hunset. rewrite Hurl. unfold baseURL. now rewrite Hunset.
Qed.

End DownloadRuns.

(* ===================================================================== *)
(** ** The OAuth client *)

Lemma upperhex_safe (n : nat) :
  (n < 16)%nat -> Url.shouldEscape (Url.upperhex n) = false.
Proof.
  intros Hn.
  do 16 (destruct n as [|n]; [reflexivity |]). lia.
Qed.

(** Escaping leaves no byte that could end a component. *)
Lemma QueryEscape_safe (s : string) : all_bytes query_safe (Url.QueryEscape s) = true.
Proof.
  induction s as [|c s IH]; [reflexivity |].
  cbn [Url.QueryEscape].
  destruct (Ascii.eqb c " "); [cbn [all_bytes]; now rewrite IH |].
  destruct (Url.shouldEscape c) eqn:Hesc.
  - cbn [all_bytes]. rewrite IH. unfold query_safe at 2 3.
    rewrite !upperhex_safe.
    + reflexivity.
    + apply Nat.mod_upper_bound. lia.
    + apply Nat.Div0.div_lt_upper_bound. pose proof (nat_ascii_bounded c). lia.
  - cbn [all_bytes]. unfold query_safe at 1. now rewrite Hesc, IH.
Qed.

Lemma query_safe_separators (c : ascii) :
  query_safe c = true ->
  c <> "&"%char /\ c <> "="%char /\ c <> "?"%char /\ c <> "#"%char /\ c <> " "%char.
Proof. intros Hc. repeat split; intros ->; discriminate. Qed.

(** X2. [authorizeURL(appKey)] is the authorization endpoint with the
    three parameters in key order, the app key escaped; however the app
    key is written, what stands for it in the URL holds only letters,
    digits and [-_.~+%], so no separator of the query. *)
Theorem authorizeURL_spec (appKey : string) :
  authorizeURL appKey
  = "https://www.dropbox.com/oauth2/authorize?client_id="
    +:+ Url.QueryEscape appKey +:+ "&response_type=code&token_access_type=offline" /\
  all_bytes query_safe (Url.QueryEscape appKey) = true /\
  (forall c : ascii,
     query_safe c = true ->
     c <> "&"%char /\ c <> "="%char /\ c <> "?"%char /\ c <> "#"%char /\ c <> " "%char).
Proof.
  split; [reflexivity |].
  split; [apply QueryEscape_safe | apply query_safe_separators].
Qed.

Lemma Encode_refresh (appKey appSecret refreshToken : string) :
  Url.Encode [("grant_type", ["refresh_token"]);
              ("refresh_token", [refreshToken]);
              ("client_id", [appKey]);
              ("client_secret", [appSecret])]
  = refresh_form appKey appSecret refreshToken.
Proof. reflexivity. Qed.

Lemma Encode_exchange (appKey appSecret code : string) :
  Url.Encode [("grant_type", ["authorization_code"]);
              ("code", [code]);
              ("client_id", [appKey]);
              ("client_secret", [appSecret])]
  = exchange_form appKey appSecret code.
Proof. reflexivity. Qed.

Lemma Errorf_wrapping (prefix : string) (cause : error) :
  Fmt.wrapped (prefix +:+ "%w") [Fmt.AErr cause] = Some cause ->
  Fmt.Sprintf (prefix +:+ "%w") [Fmt.AErr cause] = prefix +:+ Error cause +:+ "" ->
  Fmt.Errorf (prefix +:+ "%w") [Fmt.AErr cause] = errWrap (prefix +:+ Error cause) cause.
Proof.
  intros Hw Hs. unfold Fmt.Errorf. now rewrite Hw, Hs, append_nil_r.
Qed.

Lemma Errorf_refresh_request (cause : error) :
  Fmt.Errorf "refresh request: %w" [Fmt.AErr cause]
  = errWrap ("refresh request: " +:+ Error cause) cause.
Proof. now apply (Errorf_wrapping "refresh request: "). Qed.

Lemma Errorf_token_request (cause : error) :
  Fmt.Errorf "token request: %w" [Fmt.AErr cause]
  = errWrap ("token request: " +:+ Error cause) cause.
Proof. now apply (Errorf_wrapping "token request: "). Qed.

Lemma Errorf_reading (cause : error) :
  Fmt.Errorf "reading response: %w" [Fmt.AErr cause]
  = errWrap ("reading response: " +:+ Error cause) cause.
Proof. now apply (Errorf_wrapping "reading response: "). Qed.

Lemma Errorf_parsing (cause : error) :
  Fmt.Errorf "parsing response: %w" [Fmt.AErr cause]
  = errWrap ("parsing response: " +:+ Error cause) cause.
Proof. now apply (Errorf_wrapping "parsing response: "). Qed.

Lemma Errorf_refresh_failed (n : Z) (body : string) :
  Fmt.Errorf "token refresh failed (status %d): %s" [Fmt.AInt n; Fmt.AStr body]
  = errNew ("token refresh failed (status " +:+ Fmt.itoa n +:+ "): " +:+ body).
Proof.
  transitivity (errNew ("token refresh failed (status " +:+ Fmt.itoa n +:+ "): "
                        +:+ body +:+ "")); [reflexivity |].
  now rewrite append_nil_r.
Qed.

Lemma Errorf_exchange_failed (n : Z) (body : string) :
  Fmt.Errorf "token exchange failed (status %d): %s" [Fmt.AInt n; Fmt.AStr body]
  = errNew ("token exchange failed (status " +:+ Fmt.itoa n +:+ "): " +:+ body).
Proof.
  transitivity (errNew ("token exchange failed (status " +:+ Fmt.itoa n +:+ "): "
                        +:+ body +:+ "")); [reflexivity |].
  now rewrite append_nil_r.
Qed.

Section OAuth.

Context {R : Runtime} (w : World).

Lemma PostForm_run (url : string) (data : Url.Values) (st : State) :
  NewRequest_err "POST" url = None ->
  http_PostForm w url data st
  = (Some (Do w (sent st) (form_post url (Url.Encode data))),
     log_request st (form_post url (Url.Encode data))).
Proof.
  intros Hnew. unfold http_PostForm, http_NewRequest. rewrite Hnew. reflexivity.
Qed.

(** X3. When the request can be built, [refreshAccessToken] sends
    exactly one request: a form POST to the token URL whose body is
    [client_id], [client_secret], [grant_type=refresh_token] and
    [refresh_token], the three values escaped.  A transport failure and
    a failed read of the body are wrapped; a status other than 200 is an
    error that carries the status code and the trimmed body; on 200 the
    result is the [access_token] of the decoded body, or the decoding
    error wrapped.  The refresh token of the answer is not looked at. *)
Theorem refreshAccessToken_spec (tokenURL appKey appSecret refreshToken : string)
    (st : State) :
  NewRequest_err "POST" tokenURL = None ->
  let req := form_post tokenURL (refresh_form appKey appSecret refreshToken) in
  let run := refreshAccessToken w tokenURL appKey appSecret refreshToken st in
  snd run = log_request st req /\
  (forall cause,
     Do w (sent st) req = inl cause ->
     fst run = Some ("", Some (errWrap ("refresh request: " +:+ Error cause) cause))) /\
  (forall resp body cause,
     Do w (sent st) req = inr resp -> Body resp = (body, Some cause) ->
     fst run = Some ("", Some (errWrap ("reading response: " +:+ Error cause) cause))) /\
  (forall resp body,
     Do w (sent st) req = inr resp -> Body resp = (body, None) ->
     (StatusCode resp <> 200 ->
      fst run
      = Some ("", Some (errNew ("token refresh failed (status "
                                +:+ Fmt.itoa (StatusCode resp) +:+ "): "
                                +:+ Strings.TrimSpace body)))) /\
     (StatusCode resp = 200 ->
      forall result,
        json_Unmarshal decode_tokenResponse body zeroTokenResponse = (result, None) ->
        fst run = Some (AccessToken result, None)) /\
     (StatusCode resp = 200 ->
      forall result cause,
        json_Unmarshal decode_tokenResponse body zeroTokenResponse
        = (result, Some cause) ->
        fst run
        = Some ("", Some (errWrap ("parsing response: " +:+ Error cause) cause)))).
Proof.
  intros Hnew req run. subst req run.
  unfold refreshAccessToken. cbv zeta.
  rewrite bind_run, PostForm_run by exact Hnew. rewrite Encode_refresh.
  set (req := form_post tokenURL (refresh_form appKey appSecret refreshToken)).
  split.
  - destruct (Do w (sent st) req) as [cause | resp]; [reflexivity |].
    destruct (Body resp) as [body [cause |]]; [reflexivity |].
    destruct (negb (StatusCode resp =? 200)); [reflexivity |].
    now destruct (json_Unmarshal _ _ _) as [result [cause |]].
  - split; [| split].
    + intros cause ->. cbn [fst mret M_ret].
      now rewrite Errorf_refresh_request.
    + intros resp body cause -> ->. cbn [fst mret M_ret].
      now rewrite Errorf_reading.
    + intros resp body -> ->. split; [| split].
      * intros Hne. apply Z.eqb_neq in Hne. rewrite Hne. cbn [negb fst mret M_ret].
        now rewrite Errorf_refresh_failed.
      * intros -> result ->. reflexivity.
      * intros -> result cause ->. cbn [Z.eqb Pos.eqb negb fst mret M_ret].
        now rewrite Errorf_parsing.
Qed.

(** What [exchangeCode] does to the state, and where a token response
    comes from. *)
Lemma exchangeCode_run (tokenURL appKey appSecret code : string) (st : State) :
  match NewRequest_err "POST" tokenURL with
  | Some cause =>
      exchangeCode w tokenURL appKey appSecret code st
      = (Some (inl (errWrap ("token request: " +:+ Error cause) cause)), st)
  | None =>
      exists r,
        exchangeCode w tokenURL appKey appSecret code st
        = (Some r,
           log_request st (form_post tokenURL (exchange_form appKey appSecret code))) /\
        (forall result,
           r = inr result ->
           exists resp body,
             Do w (sent st) (form_post tokenURL (exchange_form appKey appSecret code))
             = inr resp /\
             Body resp = (body, None) /\
             StatusCode resp = 200 /\
             json_Unmarshal decode_tokenResponse body zeroTokenResponse
             = (result, None))
  end.
Proof.
  unfold exchangeCode. cbv zeta. rewrite bind_run.
  destruct (NewRequest_err "POST" tokenURL) as [cause |] eqn:Hnew.
  - unfold http_PostForm, http_NewRequest. rewrite Hnew.
    cbn [mret M_ret]. now rewrite Errorf_token_request.
  - rewrite PostForm_run by exact Hnew. rewrite Encode_exchange.
    set (req := form_post tokenURL (exchange_form appKey appSecret code)).
    destruct (Do w (sent st) req) as [cause | resp] eqn:Hdo;
      [eexists; split; [reflexivity | discriminate] |].
    destruct (Body resp) as [body [cause |]] eqn:Hbody;
      [eexists; split; [reflexivity | discriminate] |].
    destruct (Z.eqb_spec (StatusCode resp) 200) as [H200 | Hne]; cbn [negb];
      [| eexists; split; [reflexivity | discriminate]].
    destruct (json_Unmarshal _ _ _) as [result [cause |]] eqn:Hjson;
      [eexists; split; [reflexivity | discriminate] |].
    eexists; split; [reflexivity |].
    intros result' [= <-]. now exists resp, body.
Qed.

(** X4. When the request can be built, [exchangeCode] sends exactly one
    request: a form POST to the token URL whose body is [client_id],
    [client_secret], [code] and [grant_type=authorization_code], the
    three values escaped.  A status other than 200 is an error that
    carries the status code and the trimmed body; on 200 the result is
    the decoded token response, or the decoding error wrapped; it
    returns a token response only from a 200 answer whose body decoded
    without error. *)
Theorem exchangeCode_spec (tokenURL appKey appSecret code : string) (st : State) :
  NewRequest_err "POST" tokenURL = None ->
  let req := form_post tokenURL (exchange_form appKey appSecret code) in
  let run := exchangeCode w tokenURL appKey appSecret code st in
  snd run = log_request st req /\
  (forall cause,
     Do w (sent st) req = inl cause ->
     fst run = Some (inl (errWrap ("token request: " +:+ Error cause) cause))) /\
  (forall resp body,
     Do w (sent st) req = inr resp -> Body resp = (body, None) ->
     (StatusCode resp <> 200 ->
      fst run
      = Some (inl (errNew ("token exchange failed (status "
                           +:+ Fmt.itoa (StatusCode resp) +:+ "): "
                           +:+ Strings.TrimSpace body)))) /\
     (StatusCode resp = 200 ->
      forall result,
        json_Unmarshal decode_tokenResponse body zeroTokenResponse = (result, None) ->
        fst run = Some (inr result)) /\
     (StatusCode resp = 200 ->
      forall result cause,
        json_Unmarshal decode_tokenResponse body zeroTokenResponse
        = (result, Some cause) ->
        fst run = Some (inl (errWrap ("parsing response: " +:+ Error cause) cause)))) /\
  (forall result,
     fst run = Some (inr result) ->
     exists resp body,
       Do w (sent st) req = inr resp /\ Body resp = (body, None) /\
       StatusCode resp = 200 /\
       json_Unmarshal decode_tokenResponse body zeroTokenResponse = (result, None)).
Proof.
  intros Hnew req run.
  pose proof (exchangeCode_run tokenURL appKey appSecret code st) as Hrun.
  rewrite Hnew in Hrun. destruct Hrun as (r & Hrun & Hfrom).
  fold req in Hrun, Hfrom. subst run. rewrite Hrun. cbn [fst snd].
  split; [reflexivity |].
  assert (Hstep : exchangeCode w tokenURL appKey appSecret code st
                  = (match Do w (sent st) req with
                     | inl cause =>
                         Some (inl (errWrap ("token request: " +:+ Error cause) cause))
                     | inr resp =>
                         match Body resp with
                         | (body, Some cause) =>
                             Some (inl (errWrap ("reading response: "
                                                 +:+ Error cause) cause))
                         | (body, None) =>
                             if negb (StatusCode resp =? 200) then
                               Some (inl (errNew ("token exchange failed (status "
                                                  +:+ Fmt.itoa (StatusCode resp)
                                                  +:+ "): " +:+ Strings.TrimSpace body)))
                             else
                               match json_Unmarshal decode_tokenResponse body
                                       zeroTokenResponse with
                               | (result, Some cause) =>
                                   Some (inl (errWrap ("parsing response: "
                                                       +:+ Error cause) cause))
                               | (result, None) => Some (inr result)
                               end
                         end
                     end, log_request st req)).
  { unfold exchangeCode. cbv zeta.
    rewrite bind_run, PostForm_run by exact Hnew. rewrite Encode_exchange.
    fold req.
    destruct (Do w (sent st) req) as [cause | resp];
      [cbn [mret M_ret]; now rewrite Errorf_token_request |].
    destruct (Body resp) as [body [cause |]];
      [cbn [mret M_ret]; now rewrite Errorf_reading |].
    destruct (negb (StatusCode resp =? 200));
      [cbn [mret M_ret]; now rewrite Errorf_exchange_failed |].
    destruct (json_Unmarshal _ _ _) as [result [cause |]];
      [cbn [mret M_ret]; now rewrite Errorf_parsing | reflexivity]. }
  rewrite Hrun in Hstep. injection Hstep as Hr.
  split; [| split].
  - intros cause Hdo. now rewrite Hr, Hdo.
  - intros resp body Hdo Hbody. rewrite Hr, Hdo, Hbody. split; [| split].
    + intros Hne. apply Z.eqb_neq in Hne. now rewrite Hne.
    + intros -> result ->. reflexivity.
    + intros -> result cause ->. reflexivity.
  - intros result [= ->]. now apply Hfrom.
Qed.

End OAuth.

(* ===================================================================== *)
(** ** The auth flow *)

Section AuthFlow.

Context {R : Runtime} (w : World).

Lemma nonempty_append (a b : string) : a <> "" -> a +:+ b <> "".
Proof. destruct a; [contradiction | discriminate]. Qed.

(** X5. When the loaded config (environment overrides applied) has no
    app key or no app secret, or when the code entered is empty once
    trimmed, the auth flow exits with status 1, having sent no request
    and written no file; it has written a message to the error stream. *)
Theorem runAuth_refuses (configPath : string) (st : State) :
  AppKey (auth_config w st configPath) = "" \/
  AppSecret (auth_config w st configPath) = "" \/
  auth_code w = "" ->
  exists (st' : State) (msg : string),
    runAuth w configPath st = (Some (Exit 1), st') /\
    sent st' = sent st /\
    files st' = files st /\
    stderr st' = stderr st +:+ msg /\ msg <> "".
Proof.
  intros Hrefuse. unfold runAuth.
  rewrite bind_run, loadConfig_eq. fold (auth_config w st configPath).
  fold (auth_code w).
  destruct (String.eqb (AppKey (auth_config w st configPath)) ""
            || String.eqb (AppSecret (auth_config w st configPath)) "")%bool eqn:Hcreds.
  - eexists _, _. split; [reflexivity |]. cbn [sent files stderr].
    split; [reflexivity |]. split; [reflexivity |].
    split; [apply append_assoc | discriminate].
  - apply orb_false_elim in Hcreds as [Hk Hs].
    apply String.eqb_neq in Hk, Hs.
    destruct Hrefuse as [Hk' | [Hs' | Hcode]]; [contradiction | contradiction |].
    rewrite Hcode. cbn [String.eqb].
    eexists _, _. split; [reflexivity |]. cbn [sent files stderr].
    repeat split. discriminate.
Qed.

Lemma saveConfig_ok_state (path : string) (cfg : Config) (st st' : State) :
  saveConfig w path cfg st = (Some None, st') ->
  st' = mkState (<[path := fst (MarshalIndent_Config cfg)]> (files st))
          (sent st) (stdout st) (stderr st).
Proof.
  unfold saveConfig.
  destruct (MkdirAll w _); [discriminate |].
  destruct (MarshalIndent_Config cfg) as [data [err |]]; [discriminate |].
  unfold os_WriteFile. destruct (WriteFile_err w path); [discriminate |].
  now intros [= <-].
Qed.

(** X6. An auth flow that returns has sent exactly one request, the
    exchange of the entered code (trimmed) under the loaded app key and
    secret, got status 200 with a body that decoded to a token response,
    and has written at the config path the indented JSON of the loaded
    app key and secret with the refresh token of that response; no other
    file changed, and nothing went to the error stream. *)
Theorem runAuth_saves_refresh_token (configPath : string) (st st' : State) :
  runAuth w configPath st = (Some Returned, st') ->
  exists (resp : Response) (body : string) (result : tokenResponse),
    let cfg := auth_config w st configPath in
    let req := form_post defaultTokenURL
                 (exchange_form (AppKey cfg) (AppSecret cfg) (auth_code w)) in
    AppKey cfg <> "" /\ AppSecret cfg <> "" /\ auth_code w <> "" /\
    sent st' = sent st ++ [req] /\
    Do w (sent st) req = inr resp /\
    StatusCode resp = 200 /\
    Body resp = (body, None) /\
    json_Unmarshal decode_tokenResponse body zeroTokenResponse = (result, None) /\
    files st'
    = <[configPath := fst (MarshalIndent_Config
                             (mkConfig (AppKey cfg) (AppSecret cfg)
                                (tr_RefreshToken result)))]> (files st) /\
    stderr st' = stderr st.
Proof.
  unfold runAuth.
  rewrite bind_run, loadConfig_eq. fold (auth_config w st configPath).
  fold (auth_code w).
  set (cfg := auth_config w st configPath).
  destruct (String.eqb (AppKey cfg) "" || String.eqb (AppSecret cfg) "")%bool
    eqn:Hcreds; [discriminate |].
  apply orb_false_elim in Hcreds as [Hk Hs]. apply String.eqb_neq in Hk, Hs.
  destruct (String.eqb_spec (auth_code w) "") as [Hcode | Hcode]; [discriminate |].
  do 5 (rewrite bind_run; cbn [print_stdout]). rewrite bind_run.
  match goal with
  | |- context [exchangeCode w ?url ?k ?s ?c ?st0] =>
      pose proof (exchangeCode_run w url k s c st0) as Hrun;
      destruct (exchangeCode w url k s c st0) as [[r |] st1] eqn:Hex
  end; [| discriminate].
  destruct (NewRequest_err "POST" defaultTokenURL) as [cause |].
  - injection Hrun as -> ->. discriminate.
  - destruct Hrun as (r' & [= -> ->] & Hfrom).
    destruct r' as [err | result]; [discriminate |].
    destruct (Hfrom result eq_refl) as (resp & body & Hdo & Hbody & H200 & Hjson).
    rewrite bind_run.
    match goal with
    | |- context [saveConfig w ?p ?c ?st0] =>
        pose proof (saveConfig_ok_state p c st0) as Hsave;
        destruct (saveConfig w p c st0) as [[[err |] |] st2]
    end; [discriminate | | discriminate].
    rewrite (Hsave st2 eq_refl). intros [= <-].
    exists resp, body, result. cbv zeta.
    repeat split; assumption.
Qed.

End AuthFlow.

(* ===================================================================== *)
(** ** What the steps of a run do to the state *)

Lemma sent_only_refl (st : State) : sent_only st st [].
Proof. unfold sent_only. now rewrite app_nil_r. Qed.

Lemma sent_only_log (st : State) (req : Request) :
  sent_only st (log_request st req) [req].
Proof. repeat split. Qed.

Section Steps.

Context {R : Runtime} (w : World).

Lemma readInput_effect (args : list string) (st st' : State)
    (r : option (string * option error)) :
  readInput w args st = (r, st') -> st' = st.
Proof.
  unfold readInput.
  destruct (0 <? length args)%nat; [now intros [= _ <-] |].
  destruct (Stdin_Stat w) as [mode |]; [| now intros [= _ <-]].
  destruct (Z.land mode ModeCharDevice =? 0); [| now intros [= _ <-]].
  destruct (Stdin_ReadAll w) as [data [err |]]; [now intros [= _ <-] |].
  destruct (negb _); now intros [= _ <-].
Qed.

Lemma refreshAccessToken_effect (tokenURL appKey appSecret refreshToken : string)
    (st st' : State) (r : option (string * option error)) :
  refreshAccessToken w tokenURL appKey appSecret refreshToken st = (r, st') ->
  exists new, sent_only st st' new /\ Forall (fun req => URL req = tokenURL) new.
Proof.
  unfold refreshAccessToken. cbv zeta. rewrite bind_run.
  unfold http_PostForm, http_NewRequest.
  destruct (NewRequest_err "POST" tokenURL) as [cause |].
  - intros [= _ <-]. exists []. split; [apply sent_only_refl | constructor].
  - unfold http_Do. cbn [Header_Set Method URL Header ReqBody].
    match goal with
    | |- context [Do w (sent st) ?q] => set (req := q)
    end.
    fold (log_request st req).
    intros Hrun. exists [req].
    split; [| repeat constructor].
    destruct (Do w (sent st) req) as [cause | resp];
      [injection Hrun as _ <-; apply sent_only_log |].
    destruct (Body resp) as [body [cause |]];
      [injection Hrun as _ <-; apply sent_only_log |].
    destruct (negb (StatusCode resp =? 200));
      [injection Hrun as _ <-; apply sent_only_log |].
    destruct (json_Unmarshal _ _ _) as [result [cause |]];
      injection Hrun as _ <-; apply sent_only_log.
Qed.

Lemma resolveToken_effect (cfg : Config) (st st' : State)
    (r : option (string * option error)) :
  resolveToken w cfg st = (r, st') ->
  exists new, sent_only st st' new /\ Forall (fun req => URL req = defaultTokenURL) new.
Proof.
  unfold resolveToken. cbv zeta.
  destruct (negb (String.eqb (Getenv w "DROPBOX_TOKEN") ""));
    [intros [= _ <-]; exists []; split; [apply sent_only_refl | constructor] |].
  destruct (_ && _)%bool;
    [| intros [= _ <-]; exists []; split; [apply sent_only_refl | constructor]].
  rewrite bind_run.
  destruct (refreshAccessToken w _ _ _ _ st) as [[[token [err |]] |] st1] eqn:Hrefresh;
    intros [= _ <-]; exact (refreshAccessToken_effect _ _ _ _ _ _ _ Hrefresh).
Qed.

Lemma Download_effect (c : DropboxClient) (path : string) (st st' : State)
    (r : option (string * option error)) :
  Download w c path st = (r, st') ->
  exists new,
    sent_only st st' new /\
    Forall (fun req => URL req = baseURL c +:+ "/2/files/download") new.
Proof.
  intros Hrun. pose proof (Download_run w c path st) as Hcases.
  destruct (download_request c path) as [cause | req] eqn:Hreq.
  - rewrite Hcases in Hrun. injection Hrun as _ <-.
    exists []. split; [apply sent_only_refl | constructor].
  - destruct Hcases as (content & err & Heq & _).
    rewrite Heq in Hrun. injection Hrun as _ <-.
    exists [req]. split; [apply sent_only_log |].
    apply download_request_inv in Hreq as (_ & Hurl & _). now repeat constructor.
Qed.

Lemma Upload_effect (c : DropboxClient) (path content : string) (st st' : State)
    (r : option (option error)) :
  Upload w c path content st = (r, st') ->
  exists new,
    sent_only st st' new /\
    (new = [] \/ exists req, upload_request c path content = inr req /\ new = [req]).
Proof.
  unfold Upload.
  destruct (upload_request c path content) as [cause | req].
  - intros [= _ <-]. exists []. split; [apply sent_only_refl | now left].
  - rewrite bind_run. unfold http_Do. fold (log_request st req).
    intros Hrun. exists [req]. split; [| right; now exists req].
    destruct (Do w (sent st) req) as [cause | resp];
      [injection Hrun as _ <-; apply sent_only_log |].
    destruct (negb (StatusCode resp =? 200)); [destruct (Body resp) |];
      injection Hrun as _ <-; apply sent_only_log.
Qed.

End Steps.

(* ===================================================================== *)
(** ** The append flow, whatever its outcome *)

Section AppendFlowSafety.

Context {R : Runtime} (w : World).

Lemma token_url_not_upload (req : Request) :
  URL req = defaultTokenURL -> URL req <> upload_endpoint.
Proof. intros -> H. discriminate. Qed.

Lemma download_url_not_upload (token : string) (req : Request) :
  URL req = baseURL (mkClient token "") +:+ "/2/files/download" ->
  URL req <> upload_endpoint.
Proof. intros -> H. discriminate. Qed.

Lemma appendContent_starts_with_existing (existing entry : string) :
  exists rest, appendContent existing entry = existing +:+ rest.
Proof.
  unfold appendContent. destruct (String.eqb_spec existing "") as [-> | _].
  - now exists entry.
  - now exists (LF +:+ entry).
Qed.

Lemma not_in_quiet (new : list Request) (url : string) (req : Request) :
  Forall (fun q => URL q = url) new -> In req new -> URL req = url.
Proof. intros Hall Hin. now apply (proj1 (List.Forall_forall _ _) Hall). Qed.

(** X7. Whatever the outcome of the append flow (a return, an exit, a
    panic): it changes no file; and every request that it sends to the
    upload endpoint is the last request of the run, directly follows a
    [Download] of the path of now that returned without error, and has
    as body that downloaded content combined with the entry, so a body
    that starts with the downloaded content. *)
Theorem upload_follows_download (osargs : list string) (st st' : State)
    (out : option Outcome) :
  append_flow w osargs st = (out, st') ->
  files st' = files st /\
  exists new : list Request,
    sent st' = sent st ++ new /\
    forall req : Request,
      In req new -> URL req = upload_endpoint ->
      exists (noTimestamp : bool) (args : list string)
             (token input existing : string) (st_read st_down : State),
        flag_Parse osargs = inr (noTimestamp, args) /\
        readInput w args st_read = (Some (input, None), st_read) /\
        Download w (mkClient token "") (resolvePath (Now w)) st_read
        = (Some (existing, None), st_down) /\
        sent st' = sent st_down ++ [req] /\
        ReqBody req
        = appendContent existing (formatEntry (Now w) input noTimestamp) /\
        exists rest, ReqBody req = existing +:+ rest.
Proof.
  intros Hrun. unfold append_flow in Hrun.
  destruct (flag_Parse osargs) as [code | [noTimestamp args]] eqn:Hflag.
  { finish_run Hrun. split; [reflexivity |]. exists [].
    split; [now rewrite app_nil_r | intros req []]. }
  rewrite bind_run, loadConfig_eq in Hrun. rewrite bind_run in Hrun.
  destruct (resolveToken w _ st) as [[[token [e |]] |] st2] eqn:Htoken;
    apply resolveToken_effect in Htoken
      as (n1 & (F1 & _ & _ & S1) & U1).
  1, 3: finish_run Hrun; split; [exact F1 |]; exists n1; split; [exact S1 |];
    intros req Hin Hurl;
    now apply (token_url_not_upload req (not_in_quiet _ _ _ U1 Hin)) in Hurl.
  rewrite bind_run in Hrun.
  destruct (readInput w args st2) as [[[input [e |]] |] st3] eqn:Hinput;
    pose proof (readInput_effect w _ _ _ _ Hinput) as ->.
  1, 3: finish_run Hrun; split; [exact F1 |]; exists n1; split; [exact S1 |];
    intros req Hin Hurl;
    now apply (token_url_not_upload req (not_in_quiet _ _ _ U1 Hin)) in Hurl.
  rewrite bind_run in Hrun.
  destruct (Download w _ _ st2) as [[[existing [e |]] |] st4] eqn:Hdown;
    pose proof (Download_effect w _ _ _ _ _ Hdown)
      as (n2 & (F2 & _ & _ & S2) & U2).
  1, 3: finish_run Hrun; split; [congruence |]; exists (n1 ++ n2);
    split; [rewrite S2, S1; now rewrite app_assoc |];
    intros req Hin Hurl; apply in_app_or in Hin as [Hin | Hin];
    [now apply (token_url_not_upload req (not_in_quiet _ _ _ U1 Hin)) in Hurl
    | now apply (download_url_not_upload token req
                   (not_in_quiet _ _ _ U2 Hin)) in Hurl].
  rewrite bind_run in Hrun.
  destruct (Upload w _ _ _ st4) as [r st5] eqn:Hup.
  pose proof (Upload_effect w _ _ _ _ _ _ Hup) as (n3 & (F3 & _ & _ & S3) & U3).
  assert (Hfinal : files st' = files st5 /\ sent st' = sent st5).
  { destruct r as [[e |] |]; finish_run Hrun; now split. }
  destruct Hfinal as [Ff Sf].
  split; [congruence |].
  exists (n1 ++ n2 ++ n3).
  split; [rewrite Sf, S3, S2, S1; now rewrite !app_assoc |].
  intros req Hin Hurl.
  apply in_app_or in Hin as [Hin | Hin];
    [now apply (token_url_not_upload req (not_in_quiet _ _ _ U1 Hin)) in Hurl |].
  apply in_app_or in Hin as [Hin | Hin];
    [now apply (download_url_not_upload token req
                  (not_in_quiet _ _ _ U2 Hin)) in Hurl |].
  destruct U3 as [-> | (ul & Hreq & ->)]; [destruct Hin |].
  destruct Hin as [<- | []].
  apply upload_request_inv in Hreq as (_ & _ & Hbody & _).
  exists noTimestamp, args, token, input, existing, st2, st4.
  split; [reflexivity |]. split; [exact Hinput |]. split; [exact Hdown |].
  split; [now rewrite Sf, S3 |]. split; [exact Hbody |].
  rewrite Hbody. apply appendContent_starts_with_existing.
Qed.

End AppendFlowSafety.

Lemma Sprintf_appended (path : string) :
  Fmt.Sprintf ("Appended to %s" +:+ LF) [Fmt.AStr path]
  = "Appended to " +:+ path +:+ LF.
Proof. reflexivity. Qed.

Lemma Sprintf_downloading (e : error) :
  Fmt.Sprintf ("error downloading: %v" +:+ LF) [Fmt.AErr e]
  = "error downloading: " +:+ Error e +:+ LF.
Proof. reflexivity. Qed.

Lemma Sprintf_uploading (e : error) :
  Fmt.Sprintf ("error uploading: %v" +:+ LF) [Fmt.AErr e]
  = "error uploading: " +:+ Error e +:+ LF.
Proof. reflexivity. Qed.

Section AppendFlowReports.

Context {R : Runtime} (w : World).

(** X8. Once the flags are parsed, a run of the append flow that
    returns has written exactly the line [Appended to <path>] to
    standard output and nothing to the error stream; a run that exits
    does so with status 1, having written nothing to standard output and
    exactly one message, ended by a newline, to the error stream. *)
Theorem append_flow_reports (osargs args : list string) (noTimestamp : bool)
    (st st' : State) (out : Outcome) :
  flag_Parse osargs = inr (noTimestamp, args) ->
  append_flow w osargs st = (Some out, st') ->
  match out with
  | Returned =>
      stdout st' = stdout st +:+ "Appended to " +:+ resolvePath (Now w) +:+ LF /\
      stderr st' = stderr st
  | Exit code =>
      code = 1 /\
      stdout st' = stdout st /\
      exists msg : string, stderr st' = stderr st +:+ msg +:+ LF
  end.
Proof.
  intros Hflag Hrun. unfold append_flow in Hrun. rewrite Hflag in Hrun.
  rewrite bind_run, loadConfig_eq in Hrun. rewrite bind_run in Hrun.
  destruct (resolveToken w _ st) as [[[token [e |]] |] st2] eqn:Htoken;
    apply resolveToken_effect in Htoken as (n1 & (_ & O1 & E1 & _) & _);
    [| | discriminate].
  { finish_run Hrun. rewrite O1, E1. repeat split. now exists (Error e). }
  rewrite bind_run in Hrun.
  destruct (readInput w args st2) as [[[input [e |]] |] st3] eqn:Hinput;
    pose proof (readInput_effect w _ _ _ _ Hinput) as ->; [| | discriminate].
  { finish_run Hrun. rewrite O1, E1. repeat split. now exists (Error e). }
  rewrite bind_run in Hrun.
  destruct (Download w _ _ st2) as [[[existing [e |]] |] st4] eqn:Hdown;
    pose proof (Download_effect w _ _ _ _ _ Hdown) as (n2 & (_ & O2 & E2 & _) & _);
    [| | discriminate].
  { rewrite Sprintf_downloading in Hrun. finish_run Hrun.
    rewrite O2, E2, O1, E1. repeat split.
    now exists ("error downloading: " +:+ Error e). }
  rewrite bind_run in Hrun.
  destruct (Upload w _ _ _ st4) as [[[e |] |] st5] eqn:Hup;
    pose proof (Upload_effect w _ _ _ _ _ _ Hup) as (n3 & (_ & O3 & E3 & _) & _);
    [| | discriminate].
  - rewrite Sprintf_uploading in Hrun. finish_run Hrun.
    rewrite O3, E3, O2, E2, O1, E1. repeat split.
    now exists ("error uploading: " +:+ Error e).
  - rewrite Sprintf_appended in Hrun. finish_run Hrun.
    rewrite O3, E3, O2, E2, O1, E1. now split.
Qed.

End AppendFlowReports.

Section AppendFlowSucceeds.

Context {R : Runtime} (w : World).

Lemma resolveToken_direct_run (cfg : Config) (st : State) :
  Getenv w "DROPBOX_TOKEN" <> "" ->
  resolveToken w cfg st = (Some (Getenv w "DROPBOX_TOKEN", None), st).
Proof.
  intros Hset. unfold resolveToken. apply String.eqb_neq in Hset. now rewrite Hset.
Qed.

Lemma readInput_args (args : list string) (st : State) :
  args <> [] -> readInput w args st = (Some (Strings.Join args " ", None), st).
Proof. intros Hargs. unfold readInput. destruct args; [contradiction | reflexivity]. Qed.

(** X9. The append flow succeeds when: the flags parse; [DROPBOX_TOKEN]
    is non-empty; there is a positional argument; the download request
    is answered with status 200, or with status 409 and a summary that
    contains ["not_found"]; and the upload request that follows is
    answered with status 200.  It then returns, having sent exactly the
    download and the upload of the combined content, in this order,
    written the confirmation line, and changed nothing else. *)
Theorem append_flow_succeeds (osargs args : list string) (noTimestamp : bool)
    (st : State) (download upload : Request) (answer stored : Response)
    (body existing : string) :
  flag_Parse osargs = inr (noTimestamp, args) ->
  Getenv w "DROPBOX_TOKEN" <> "" ->
  args <> [] ->
  download_request (mkClient (Getenv w "DROPBOX_TOKEN") "") (resolvePath (Now w))
  = inr download ->
  Do w (sent st) download = inr answer ->
  Body answer = (body, None) ->
  (StatusCode answer = 200 /\ existing = body) \/
  (StatusCode answer = 409 /\
   Strings.Contains (parsed_summary body) "not_found" = true /\ existing = "") ->
  upload_request (mkClient (Getenv w "DROPBOX_TOKEN") "") (resolvePath (Now w))
    (appendContent existing
       (formatEntry (Now w) (Strings.Join args " ") noTimestamp))
  = inr upload ->
  Do w (sent st ++ [download]) upload = inr stored ->
  StatusCode stored = 200 ->
  append_flow w osargs st
  = (Some Returned,
     mkState (files st) (sent st ++ [download; upload])
       (stdout st +:+ "Appended to " +:+ resolvePath (Now w) +:+ LF)
       (stderr st)).
Proof.
  intros Hflag Htoken Hargs Hdl Hanswer Hbody Hfound Hul Hstored H200.
  unfold append_flow. rewrite Hflag.
  rewrite bind_run, loadConfig_eq.
  rewrite bind_run, resolveToken_direct_run by exact Htoken.
  rewrite bind_run, readInput_args by exact Hargs.
  assert (Hdown : Download w (mkClient (Getenv w "DROPBOX_TOKEN") "")
                    (resolvePath (Now w)) st
                  = (Some (existing, None), log_request st download)).
  { unfold Download. rewrite Hdl, bind_run. unfold http_Do.
    rewrite Hanswer, Hbody. fold (parsed_summary body).
    destruct Hfound as [[-> ->] | (-> & -> & ->)]; reflexivity. }
  rewrite bind_run, Hdown.
  assert (Hup : Upload w (mkClient (Getenv w "DROPBOX_TOKEN") "")
                  (resolvePath (Now w))
                  (appendContent existing
                     (formatEntry (Now w) (Strings.Join args " ") noTimestamp))
                  (log_request st download)
                = (Some None, log_request (log_request st download) upload)).
  { unfold Upload. rewrite Hul, bind_run. unfold http_Do.
    cbn [log_request sent]. rewrite Hstored, H200. reflexivity. }
  rewrite bind_run, Hup. rewrite Sprintf_appended.
  cbv [mbind M_bind print_stdout mret M_ret log_request].
  cbn [files sent stdout stderr]. now rewrite <- app_assoc.
Qed.

End AppendFlowSucceeds.

Section EarlierEntryPoint.

Context {R : Runtime} (w : World).

(** X10. With a non-empty [DROPBOX_TOKEN] and a command line that is
    not the [auth] subcommand, the entry point with the config store and
    the token resolver behaves exactly as the earlier entry point that
    knew the token variable only: same outcome, same requests, same
    output.  Without the token, the earlier entry point exits with
    status 1 once the flags are parsed, having read no input and sent
    nothing. *)
Theorem main_direct_token_agrees (st : State) :
  (Getenv w "DROPBOX_TOKEN" <> "" -> auth_subcommand w = false ->
   main w st = main_direct_token w st) /\
  (Getenv w "DROPBOX_TOKEN" = "" ->
   forall prog osargs noTimestamp args,
     Args w = prog :: osargs -> flag_Parse osargs = inr (noTimestamp, args) ->
     main_direct_token w st
     = (Some (Exit 1),
        mkState (files st) (sent st) (stdout st)
          (stderr st +:+ "DROPBOX_TOKEN environment variable is required" +:+ LF))).
Proof.
  split.
  - intros Hset Happend. unfold main, main_direct_token. rewrite Happend.
    destruct (Args w) as [| prog osargs]; [reflexivity |].
    unfold append_flow.
    destruct (flag_Parse osargs) as [code | [noTimestamp args]]; [reflexivity |].
    rewrite bind_run, loadConfig_eq.
    rewrite bind_run, resolveToken_direct_run by exact Hset.
    apply String.eqb_neq in Hset. rewrite Hset. reflexivity.
  - intros Hunset prog osargs noTimestamp args Hargs Hflag.
    unfold main_direct_token. rewrite Hargs, Hflag, Hunset. reflexivity.
Qed.

End EarlierEntryPoint.

(* ===================================================================== *)
(** ** Input text, documents and paths *)

Lemma Join_nil_inv (args : list string) :
  args <> [] -> Strings.Join args " " = "" -> args = [""].
Proof.
  destruct args as [| a [| b rest]]; [contradiction | |].
  - intros _ H. simpl in H. now subst.
  - intros _ H. cbn [Strings.Join] in H.
    destruct a; discriminate.
Qed.

(** X11. [readInput] returns an empty text without error in one case
    only: a single positional argument that is the empty string.  Text
    taken from standard input is never empty, and has no white space at
    either end. *)
Theorem readInput_empty_text (w : World) (args : list string) (st st' : State)
    (text : string) :
  readInput w args st = (Some (text, None), st') ->
  (text = "" -> args = [""]) /\
  (args = [] ->
   text <> "" /\
   exists data, Stdin_ReadAll w = (data, None) /\ trimmed data text).
Proof.
  unfold readInput.
  destruct args as [| a rest].
  - cbn [length Nat.ltb Nat.leb].
    destruct (Stdin_Stat w) as [mode |]; [| discriminate].
    destruct (Z.land mode ModeCharDevice =? 0); [| discriminate].
    destruct (Stdin_ReadAll w) as [data [err |]]; [discriminate |].
    destruct (String.eqb_spec (Strings.TrimSpace data) "") as [Hempty | Hne];
      [discriminate |].
    intros [= <- <-]. split; [contradiction |].
    intros _. split; [exact Hne |].
    exists data. split; [reflexivity | apply TrimSpace_trimmed].
  - intros [= <- <-]. split; [| discriminate].
    intros Hempty. apply Join_nil_inv; [discriminate | exact Hempty].
Qed.

Lemma formatEntry_nonempty (t : Time.Time) (text : string) (noTimestamp : bool) :
  formatEntry t text noTimestamp <> "".
Proof.
  destruct (formatEntry_ends_with_LF t text noTimestamp) as [front ->].
  destruct front; discriminate.
Qed.

Lemma appendContent_nonempty (doc entry : string) :
  doc <> "" -> appendContent doc entry = doc +:+ LF +:+ entry.
Proof. intros Hdoc. unfold appendContent. apply String.eqb_neq in Hdoc. now rewrite Hdoc. Qed.

Lemma Join_cons_cons (a b : string) (rest : list string) (sep : string) :
  Strings.Join (a :: b :: rest) sep = a +:+ sep +:+ Strings.Join (b :: rest) sep.
Proof. reflexivity. Qed.

Lemma fold_appendContent (entries : list string) (doc : string) :
  doc <> "" ->
  fold_left appendContent entries doc = Strings.Join (doc :: entries) LF.
Proof.
  revert doc. induction entries as [| e es IH]; intros doc Hdoc; [reflexivity |].
  cbn [fold_left]. rewrite appendContent_nonempty by exact Hdoc.
  rewrite IH by (now apply nonempty_append).
  rewrite Join_cons_cons. destruct es as [| e2 es]; [reflexivity |].
  rewrite !Join_cons_cons. now rewrite !append_assoc.
Qed.

(** X12. Starting from an absent (empty) document, appending the
    formatted entries of a sequence of inputs one after the other yields
    those entries joined by single newlines, in order: every append adds
    one separator and one entry, and changes nothing of what was there. *)
Theorem appended_entries_join (inputs : list (Time.Time * string * bool)) :
  fold_left appendContent
    (map (fun '(t, text, noTimestamp) => formatEntry t text noTimestamp) inputs) ""
  = Strings.Join
      (map (fun '(t, text, noTimestamp) => formatEntry t text noTimestamp) inputs) LF.
Proof.
  destruct inputs as [| [[t text] noTimestamp] inputs]; [reflexivity |].
  cbn [map fold_left]. unfold appendContent at 2. cbn [String.eqb].
  apply fold_appendContent, formatEntry_nonempty.
Qed.

Lemma resolvePath_digits (t : Time.Time) :
  0 <= Time.year t <= 9999 -> 1 <= Time.month t <= 12 -> 1 <= Time.day t <= 31 ->
  resolvePath t
  = journal_path (four_digits (Time.year t)) (two_digits (Time.month t))
      (two_digits (Time.day t)).
Proof.
  intros Hy Hm Hd. unfold resolvePath, journal_path.
  rewrite Format_year, Format_month, Format_date by assumption.
  rewrite Sprintf_path. now autorewrite with str.
Qed.

Lemma utod_inj (u v : Z) :
  0 <= u < 10 -> 0 <= v < 10 -> Time.utod u = Time.utod v -> u = v.
Proof.
  intros Hu Hv Heq.
  destruct (utod_digit u Hu) as [_ <-]. destruct (utod_digit v Hv) as [_ <-].
  now rewrite Heq.
Qed.

(** X13. For times whose year lies in 0..9999 (month in 1..12, day in
    1..31), two times have the same journal path exactly when they fall
    on the same calendar day: the time of day plays no part, and
    different days never share a document. *)
Theorem resolvePath_same_day (t1 t2 : Time.Time) :
  0 <= Time.year t1 <= 9999 -> 1 <= Time.month t1 <= 12 -> 1 <= Time.day t1 <= 31 ->
  0 <= Time.year t2 <= 9999 -> 1 <= Time.month t2 <= 12 -> 1 <= Time.day t2 <= 31 ->
  resolvePath t1 = resolvePath t2 <->
  Time.year t1 = Time.year t2 /\ Time.month t1 = Time.month t2 /\
  Time.day t1 = Time.day t2.
Proof.
  intros Hy1 Hm1 Hd1 Hy2 Hm2 Hd2.
  rewrite !resolvePath_digits by assumption.
  split.
  - unfold journal_path, four_digits, two_digits.
    cbv beta iota zeta delta [String.append]. intros Heq.
    injection Heq as Y3 Y2 Y1 Y0 M1 M0 _ _ _ _ _ _ D1 D0.
    apply utod_inj in Y3, Y2, Y1, Y0, M1, M0, D1, D0; divlia.
  - intros (-> & -> & ->). reflexivity.
Qed.

(* ===================================================================== *)
(** ** Credentials from the environment, and the outcomes of the auth flow *)

Section Credentials.

Context {R : Runtime} (w : World).

Lemma refreshAccessToken_state (tokenURL appKey appSecret refreshToken : string)
    (st : State) :
  NewRequest_err "POST" tokenURL = None ->
  snd (refreshAccessToken w tokenURL appKey appSecret refreshToken st)
  = log_request st (form_post tokenURL (refresh_form appKey appSecret refreshToken)).
Proof.
  intros Hnew. unfold refreshAccessToken. cbv zeta.
  rewrite bind_run, PostForm_run by exact Hnew. rewrite Encode_refresh.
  destruct (Do w (sent st) _) as [cause | resp]; [reflexivity |].
  destruct (Body resp) as [body [cause |]]; [reflexivity |].
  destruct (negb (StatusCode resp =? 200)); [reflexivity |].
  now destruct (json_Unmarshal _ _ _) as [result [cause |]].
Qed.

(** X14. Credentials in the environment are the ones used: when the
    three override variables are set to non-empty values and there is no
    direct token, the token that [resolveToken] returns for the config
    that [loadConfig] loads, whatever the config file holds or lacks,
    comes from exactly one request, the refresh posted with the app key,
    app secret and refresh token of the environment. *)
Theorem environment_credentials_refresh (path : string) (st : State) :
  Getenv w "DROPBOX_TOKEN" = "" ->
  Getenv w "DROPBOX_APP_KEY" <> "" ->
  Getenv w "DROPBOX_APP_SECRET" <> "" ->
  Getenv w "DROPBOX_REFRESH_TOKEN" <> "" ->
  NewRequest_err "POST" defaultTokenURL = None ->
  exists cfg : Config,
    loadConfig w path st = (Some (cfg, None), st) /\
    cfg = mkConfig (Getenv w "DROPBOX_APP_KEY") (Getenv w "DROPBOX_APP_SECRET")
            (Getenv w "DROPBOX_REFRESH_TOKEN") /\
    sent (snd (resolveToken w cfg st))
    = sent st ++ [form_post defaultTokenURL
                    (refresh_form (Getenv w "DROPBOX_APP_KEY")
                       (Getenv w "DROPBOX_APP_SECRET")
                       (Getenv w "DROPBOX_REFRESH_TOKEN"))].
Proof.
  intros Hdirect Hk Hs Hr Hnew.
  eexists. split; [apply loadConfig_eq |].
  assert (Hcfg : env_overrides w (file_config st path)
                 = mkConfig (Getenv w "DROPBOX_APP_KEY")
                     (Getenv w "DROPBOX_APP_SECRET")
                     (Getenv w "DROPBOX_REFRESH_TOKEN")).
  { unfold env_overrides. apply String.eqb_neq in Hk, Hs, Hr.
    now rewrite Hk, Hs, Hr. }
  split; [exact Hcfg |]. rewrite Hcfg.
  unfold resolveToken. cbv zeta. rewrite Hdirect.
  cbn [AppKey AppSecret RefreshToken String.eqb negb].
  apply String.eqb_neq in Hk, Hs, Hr. rewrite Hk, Hs, Hr. cbn [negb andb].
  rewrite bind_run.
  pose proof (refreshAccessToken_state defaultTokenURL
                (Getenv w "DROPBOX_APP_KEY") (Getenv w "DROPBOX_APP_SECRET")
                (Getenv w "DROPBOX_REFRESH_TOKEN") st Hnew) as Hstate.
  destruct (refreshAccessToken w _ _ _ _ st) as [[[token [err |]] |] st1];
    cbn [snd] in Hstate; subst st1; reflexivity.
Qed.

Lemma saveConfig_effect (path : string) (cfg : Config) (st st' : State)
    (r : option (option error)) :
  saveConfig w path cfg st = (r, st') ->
  r <> None /\ sent st' = sent st /\ stdout st' = stdout st /\ stderr st' = stderr st.
Proof.
  unfold saveConfig.
  destruct (MkdirAll w _); [now intros [= <- <-] |].
  destruct (MarshalIndent_Config cfg) as [data [err |]]; [now intros [= <- <-] |].
  unfold os_WriteFile. destruct (WriteFile_err w path); now intros [= <- <-].
Qed.

Lemma exchangeCode_effect (tokenURL appKey appSecret code : string) (st st' : State)
    (r : option (error + tokenResponse)) :
  exchangeCode w tokenURL appKey appSecret code st = (r, st') ->
  r <> None /\
  exists new,
    sent_only st st' new /\ (length new <= 1)%nat /\
    Forall (fun req => URL req = tokenURL) new.
Proof.
  intros Hrun. pose proof (exchangeCode_run w tokenURL appKey appSecret code st) as Hcases.
  destruct (NewRequest_err "POST" tokenURL) as [cause |].
  - rewrite Hcases in Hrun. injection Hrun as <- <-. split; [discriminate |].
    exists []. split; [apply sent_only_refl |]. split; [simpl; lia | constructor].
  - destruct Hcases as (r' & Heq & _). rewrite Heq in Hrun.
    injection Hrun as <- <-. split; [discriminate |].
    eexists [_]. split; [apply sent_only_log |].
    split; [simpl; lia | now repeat constructor].
Qed.

(** X15. Every run of the auth flow ends by returning or by exiting
    with status 1; it never panics.  It sends at most one request, and
    only to the token URL: the auth flow never contacts the storage
    service. *)
Theorem runAuth_outcome (configPath : string) (st : State) :
  exists (out : Outcome) (st' : State) (new : list Request),
    runAuth w configPath st = (Some out, st') /\
    (out = Returned \/ out = Exit 1) /\
    sent st' = sent st ++ new /\
    (length new <= 1)%nat /\
    Forall (fun req => URL req = defaultTokenURL) new.
Proof.
  unfold runAuth. rewrite bind_run, loadConfig_eq.
  set (cfg := env_overrides w (file_config st configPath)).
  destruct (String.eqb (AppKey cfg) "" || String.eqb (AppSecret cfg) "")%bool.
  { eexists _, _, []. split; [reflexivity |]. cbn [sent].
    split; [now right |]. split; [now rewrite app_nil_r |].
    split; [simpl; lia | constructor]. }
  do 5 (rewrite bind_run; cbn [print_stdout]).
  destruct (String.eqb _ "").
  { eexists _, _, []. split; [reflexivity |]. cbn [sent].
    split; [now right |]. split; [now rewrite app_nil_r |].
    split; [simpl; lia | constructor]. }
  rewrite bind_run.
  match goal with
  | |- context [exchangeCode w ?url ?k ?s ?c ?st0] =>
      destruct (exchangeCode w url k s c st0) as [r st1] eqn:Hex;
      apply exchangeCode_effect in Hex
        as (Hr & new & (_ & _ & _ & Hsent) & Hlen & Hurl)
  end.
  cbn [sent] in Hsent.
  destruct r as [[err | result] |]; [| | contradiction].
  { eexists _, _, new. split; [reflexivity |]. cbn [sent]. now split; [right |]. }
  rewrite bind_run.
  match goal with
  | |- context [saveConfig w ?p ?c ?st0] =>
      destruct (saveConfig w p c st0) as [r st2] eqn:Hsave;
      apply saveConfig_effect in Hsave as (Hr2 & Hsent2 & _ & _)
  end.
  destruct r as [[err |] |]; [| | contradiction].
  - eexists _, _, new. split; [reflexivity |]. cbn [sent].
    split; [now right |]. split; [congruence | now split].
  - eexists _, _, new. split; [reflexivity |]. cbn [sent].
    split; [now left |]. split; [congruence | now split].
Qed.

End Credentials.

(* ===================================================================== *)
(** ** When the storage client reports success *)

Section ClientSuccess.

Context {R : Runtime} (w : World).

(** X16. [Upload] returns no error exactly when it could build its
    request and the service answered that request with status 200: a
    transport failure, or any other status, is never reported as a
    success. *)
Theorem Upload_succeeds_iff (c : DropboxClient) (path content : string) (st : State) :
  fst (Upload w c path content st) = Some None <->
  exists (req : Request) (resp : Response),
    upload_request c path content = inr req /\
    Do w (sent st) req = inr resp /\
    StatusCode resp = 200.
Proof.
  split.
  - intros Hok.
    destruct (Upload w c path content st) as [r st'] eqn:Hrun.
    cbn [fst] in Hok. subst r.
    apply Upload_ok_inv in Hrun as (req & resp & Hreq & Hdo & H200 & _).
    now exists req, resp.
  - intros (req & resp & Hreq & Hdo & H200).
    unfold Upload. rewrite Hreq, bind_run. unfold http_Do.
    now rewrite Hdo, H200.
Qed.

(** X17. [Download] returns a content without error exactly when it
    could build its request, the body of the answer was read, and either
    the status is 200 and the content is that body, or the status is 409,
    the parsed summary contains ["not_found"] and the content is empty.
    No other answer is taken for a document, or for its absence. *)
Theorem Download_succeeds_iff (c : DropboxClient) (path content : string)
    (st : State) :
  fst (Download w c path st) = Some (content, None) <->
  exists (req : Request) (resp : Response) (body : string),
    download_request c path = inr req /\
    Do w (sent st) req = inr resp /\
    Body resp = (body, None) /\
    ((StatusCode resp = 200 /\ content = body) \/
     (StatusCode resp = 409 /\
      Strings.Contains (parsed_summary body) "not_found" = true /\ content = "")).
Proof.
  unfold Download.
  destruct (download_request c path) as [cause | req].
  { split; [discriminate | intros (req & resp & body & [=] & _)]. }
  rewrite bind_run. unfold http_Do.
  destruct (Do w (sent st) req) as [cause | resp] eqn:Hdo.
  { split; [discriminate | intros (req' & resp & body & [= <-] & Hdo' & _)].
    congruence. }
  destruct (Body resp) as [body [cause |]] eqn:Hbody.
  { split; [discriminate |].
    intros (req' & resp' & body' & [= <-] & Hdo' & Hbody' & _).
    rewrite Hdo in Hdo'. injection Hdo' as <-. congruence. }
  fold (parsed_summary body).
  assert (Hsame : forall req' resp' body',
            @inr error Request req = inr req' -> Do w (sent st) req' = inr resp' ->
            Body resp' = (body', None) -> resp' = resp /\ body' = body).
  { intros req' resp' body' [= <-] Hdo' Hbody'.
    rewrite Hdo in Hdo'. injection Hdo' as <-.
    rewrite Hbody in Hbody'. now injection Hbody' as <-. }
  destruct (Z.eqb_spec (StatusCode resp) 409) as [H409 | Hn409].
  - destruct (Strings.Contains (parsed_summary body) "not_found") eqn:Hfound.
    + split.
      * intros [= <-]. exists req, resp, body. repeat split; try assumption.
        right. now repeat split.
      * intros (req' & resp' & body' & Hreq & Hdo' & Hbody' & Hcase).
        destruct (Hsame _ _ _ Hreq Hdo' Hbody') as [-> ->].
        destruct Hcase as [[H200 _] | (_ & _ & ->)]; [lia | reflexivity].
    + split; [discriminate |].
      intros (req' & resp' & body' & Hreq & Hdo' & Hbody' & Hcase).
      destruct (Hsame _ _ _ Hreq Hdo' Hbody') as [-> ->].
      destruct Hcase as [[H200 _] | (_ & Hyes & _)]; [lia | congruence].
  - destruct (Z.eqb_spec (StatusCode resp) 200) as [H200 | Hn200]; cbn [negb].
    + split.
      * intros [= <-]. exists req, resp, body. repeat split; try assumption.
        now left.
      * intros (req' & resp' & body' & Hreq & Hdo' & Hbody' & Hcase).
        destruct (Hsame _ _ _ Hreq Hdo' Hbody') as [-> ->].
        destruct Hcase as [[_ ->] | (H409 & _)]; [reflexivity | contradiction].
    + split; [discriminate |].
      intros (req' & resp' & body' & Hreq & Hdo' & Hbody' & Hcase).
      destruct (Hsame _ _ _ Hreq Hdo' Hbody') as [-> ->].
      destruct Hcase as [[H200 _] | (H409 & _)]; contradiction.
Qed.

End ClientSuccess.

(* ===================================================================== *)
(** ** Runs of the further properties *)

Section FurtherRuns.

Existing Instance Ref.runtime.

Example auth_run :
  fst (main Scenario.authorizing Scenario.start) = Some Returned /\
  map ReqBody (sent (snd (main Scenario.authorizing Scenario.start)))
  = ["client_id=key+1&client_secret=s%26cret&code=code123&grant_type=authorization_code"] /\
  fst (loadConfig Scenario.bare Scenario.config_path
         (snd (main Scenario.authorizing Scenario.start)))
  = Some (mkConfig "key 1" "s&cret" "new_refresh", None).
Proof. vm_compute. repeat split; reflexivity. Qed.

Lemma refreshAccessToken_spec_witness :
  fst (refreshAccessToken Scenario.granting "https://api.dropboxapi.com/oauth2/token"
         "k" "s" "r" Scenario.start)
  = Some ("fresh_access", None).
Proof.
  edestruct (refreshAccessToken_spec Scenario.granting
               "https://api.dropboxapi.com/oauth2/token" "k" "s" "r" Scenario.start)
    as (_ & _ & _ & Hanswer); [reflexivity |].
  edestruct Hanswer as (_ & Hok & _); [vm_compute; reflexivity | reflexivity |].
  apply (Hok eq_refl (mkTokenResponse "fresh_access" "" "")).
  vm_compute. reflexivity.
Defined.

Lemma exchangeCode_spec_witness :
  fst (exchangeCode Scenario.authorizing "https://api.dropboxapi.com/oauth2/token"
         "key 1" "s&cret" "code123" Scenario.start)
  = Some (inr (mkTokenResponse "fresh_access" "new_refresh" "bearer")).
Proof.
  edestruct (exchangeCode_spec Scenario.authorizing
               "https://api.dropboxapi.com/oauth2/token" "key 1" "s&cret" "code123"
               Scenario.start)
    as (_ & _ & Hanswer & _); [reflexivity |].
  edestruct Hanswer as (_ & Hok & _); [vm_compute; reflexivity | reflexivity |].
  apply (Hok eq_refl (mkTokenResponse "fresh_access" "new_refresh" "bearer")).
  vm_compute. reflexivity.
Defined.

Lemma runAuth_refuses_witness :
  exists (st' : State) (msg : string),
    runAuth Scenario.bare Scenario.config_path Scenario.start = (Some (Exit 1), st') /\
    sent st' = sent Scenario.start /\
    files st' = files Scenario.start /\
    stderr st' = stderr Scenario.start +:+ msg /\ msg <> "".
Proof.
  apply (runAuth_refuses Scenario.bare Scenario.config_path Scenario.start).
  left. vm_compute. reflexivity.
Defined.

Lemma runAuth_saves_refresh_token_witness :
  exists (resp : Response) (body : string) (result : tokenResponse),
    sent (snd (runAuth Scenario.authorizing Scenario.config_path Scenario.start))
    = [form_post defaultTokenURL (exchange_form "key 1" "s&cret" "code123")] /\
    json_Unmarshal decode_tokenResponse body zeroTokenResponse = (result, None) /\
    files (snd (runAuth Scenario.authorizing Scenario.config_path Scenario.start))
    = {[ Scenario.config_path :=
           fst (MarshalIndent_Config
                  (mkConfig "key 1" "s&cret" (tr_RefreshToken result))) ]}.
Proof.
  destruct (runAuth_saves_refresh_token Scenario.authorizing Scenario.config_path
              Scenario.start
              (snd (runAuth Scenario.authorizing Scenario.config_path Scenario.start)))
    as (resp & body & result & _ & _ & _ & Hsent & _ & _ & _ & Hjson & Hfiles & _).
  - vm_compute. reflexivity.
  - exists resp, body, result. split; [exact Hsent |]. split; [exact Hjson |].
    exact Hfiles.
Defined.

Lemma upload_follows_download_witness :
  files (snd (append_flow Scenario.first_note
                ["first"; "note"; "of"; "the"; "day"] Scenario.start))
  = files Scenario.start /\
  exists new : list Request,
    sent (snd (append_flow Scenario.first_note
                 ["first"; "note"; "of"; "the"; "day"] Scenario.start))
    = sent Scenario.start ++ new.
Proof.
  destruct (upload_follows_download Scenario.first_note
              ["first"; "note"; "of"; "the"; "day"] Scenario.start
              (snd (append_flow Scenario.first_note
                      ["first"; "note"; "of"; "the"; "day"] Scenario.start))
              (Some Returned))
    as (Hfiles & new & Hsent & _).
  - vm_compute. reflexivity.
  - split; [exact Hfiles | now exists new].
Defined.

Lemma append_flow_reports_witness :
  stdout (snd (append_flow Scenario.broken ["note"] Scenario.start)) = "" /\
  exists msg : string,
    stderr (snd (append_flow Scenario.broken ["note"] Scenario.start))
    = "" +:+ msg +:+ LF.
Proof.
  destruct (append_flow_reports Scenario.broken ["note"] ["note"] false
              Scenario.start
              (snd (append_flow Scenario.broken ["note"] Scenario.start)) (Exit 1))
    as (_ & Hout & Herr).
  - reflexivity.
  - vm_compute. reflexivity.
  - split; [exact Hout | exact Herr].
Defined.

Lemma append_flow_succeeds_witness :
  map ReqBody
    (sent (snd (append_flow Scenario.first_note
                  ["first"; "note"; "of"; "the"; "day"] Scenario.start)))
  = [""; "### 09:00:00" +:+ LF +:+ "first note of the day" +:+ LF].
Proof.
  erewrite (append_flow_succeeds Scenario.first_note
              ["first"; "note"; "of"; "the"; "day"]
              ["first"; "note"; "of"; "the"; "day"] false Scenario.start);
    cycle 1.
  - reflexivity.
  - vm_compute. discriminate.
  - discriminate.
  - vm_compute. reflexivity.
  - vm_compute. reflexivity.
  - vm_compute. reflexivity.
  - right. split; [reflexivity |]. split; [vm_compute; reflexivity | reflexivity].
  - vm_compute. reflexivity.
  - vm_compute. reflexivity.
  - reflexivity.
  - vm_compute. reflexivity.
Defined.

Lemma environment_credentials_refresh_witness :
  exists cfg : Config,
    loadConfig Scenario.environment_only Scenario.config_path
      (Scenario.with_file Scenario.config_text)
    = (Some (cfg, None), Scenario.with_file Scenario.config_text) /\
    cfg = mkConfig "env_key" "env_secret" "env_refresh" /\
    sent (snd (resolveToken Scenario.environment_only cfg
                 (Scenario.with_file Scenario.config_text)))
    = [form_post defaultTokenURL (refresh_form "env_key" "env_secret" "env_refresh")].
Proof.
  apply (environment_credentials_refresh Scenario.environment_only
           Scenario.config_path (Scenario.with_file Scenario.config_text));
    solve [reflexivity | vm_compute; discriminate].
Defined.

End FurtherRuns.

Lemma readInput_empty_text_witness :
  "afternoon note" <> "" /\
  exists data : string,
    Stdin_ReadAll Scenario.later_note = (data, None) /\ trimmed data "afternoon note".
Proof.
  destruct (readInput_empty_text Scenario.later_note [] Scenario.start Scenario.start
              "afternoon note") as (_ & Hstdin).
  - vm_compute. reflexivity.
  - apply Hstdin. reflexivity.
Defined.

Lemma resolvePath_same_day_witness :
  resolvePath (Time.Date 2025 1 15 9 0 0) = resolvePath (Time.Date 2025 1 15 14 30 45)
  <-> 2025 = 2025 /\ 1 = 1 /\ 15 = 15.
Proof.
  apply (resolvePath_same_day (Time.Date 2025 1 15 9 0 0)
           (Time.Date 2025 1 15 14 30 45)); simpl; lia.
Defined.
